(** * ChurnSight: the segment risk evaluator of [main.py]

    The dashboard script [main.py] holds one piece of decision logic, written
    twice with the same text: once for a customer picked from the dataset
    (lines 392-484) and once for a profile typed into the form (lines
    613-703).  It selects a cohort of the dataset by a fallback chain, takes
    the cohort's mean of [Exited], buckets it into a risk label, lists
    qualitative factors and computes percentiles; the form path can append
    the profile to the CSV file (lines 729-739).

    Modelling choices.
    - A pandas [DataFrame] is an ordered list of rows, a column is the list
      of one field.  [data[mask]] is [filter].
    - Python floats are modelled by rationals [Q]; [NaN] is [None].  The
      thresholds [0.15] and [0.30] are the rationals 15/100 and 30/100.
      Two places where double precision shows are modelled with their
      rounding: the mean of the two middle values inside [Series.median],
      and the cast of the identifier column to [float64] by [pd.concat].
    - The columns the script matches and compares on are typed as the CSV
      has them: [Geography] is a string, the counters are integers.  Only
      [Exited] and [CustomerId] can be missing in a row ([NaN]): the first
      because the script itself stores [None] there, the second because the
      script tests whether the column exists at all.
    - [RowNumber] and [Surname] are never read and are left out; [Gender],
      [HasCrCard] and [Card Type] are not read by the logic either, but the
      saved row carries them.
    - The script is modelled twice.  Over [World], the frame [data] is a
      value and a block is a function of it: this is where the results of
      the analysis are stated.  Over [Mem], a store of objects, the names
      of the script hold references and the analysis is written statement
      by statement, with its allocations, its aliases and its writes in
      place: this is where it is shown to change no object it was given.
      The two print the same. *)

From Stdlib Require Import String ZArith QArith Qround Qpower Bool Lia List.
From Stdlib Require Import Permutation Sorted.
From Stdlib Require Import Lqa.
Import ListNotations.

Local Open Scope string_scope.
Local Open Scope list_scope.
Local Open Scope Z_scope.

(** ** Rows, frames and customers *)

Record Row : Type := mkRow {
  CustomerId : option Z;
  CreditScore : Q;
  Geography : string;
  Gender : string;
  Age : Z;
  Tenure : Z;
  Balance : Q;
  NumOfProducts : Z;
  HasCrCard : Z;
  IsActiveMember : Z;
  EstimatedSalary : Q;
  Exited : option Z;
  Complain : Q;
  SatisfactionScore : Q;
  CardType : string;
  PointEarned : Q
}.

(** A frame is its rows plus the one fact about its columns that the script
    asks for: ["CustomerId" in data.columns]. *)
Record DataFrame : Type := mkFrame {
  has_CustomerId : bool;
  rows : list Row
}.

(** The fourteen variables [credit_new], [geo_new], ... that both paths fill
    in before the analysis; the form path also stores them in the dict
    [client]. *)
Record Client : Type := mkClient {
  credit_new : Q;
  geo_new : string;
  gender_new : string;
  age_new : Z;
  tenure_new : Z;
  balance_new : Q;
  salary_new : Q;
  num_products_new : Z;
  has_cr_card_new : Z;
  is_active_new : Z;
  complain_new : Q;
  satisfaction_new : Q;
  card_type_new : string;
  points_new : Q
}.

(** ** The pandas operations the script calls *)

Module Pandas.

(** [Series.dropna]: the present values, in order. *)
Fixpoint dropna {A : Type} (s : list (option A)) : list A :=
  match s with
  | [] => []
  | Some x :: s' => x :: dropna s'
  | None :: s' => dropna s'
  end.

Definition Qsum (s : list Q) : Q := fold_right Qplus 0%Q s.

(** [Series.mean] on a series without missing values; the mean of an
    empty series is [NaN]. *)
Definition mean (s : list Q) : option Q :=
  match s with
  | [] => None
  | _ :: _ => Some (Qsum s / inject_Z (Z.of_nat (length s)))%Q
  end.

(** [Series.mean] with the default [skipna=True]. *)
Definition mean_skipna (s : list (option Z)) : option Q :=
  mean (map inject_Z (dropna s)).

(** [(series <= val)]: a boolean series; its mean counts [True] as 1. *)
Definition le_mask (s : list Q) (val : Q) : list bool :=
  map (fun x => Qle_bool x val) s.

Definition bool_to_Q (b : bool) : Q := if b then 1%Q else 0%Q.

Definition mean_bool (m : list bool) : option Q := mean (map bool_to_Q m).

(** [Series.max] with [skipna=True]; [NaN] when nothing is present. *)
Fixpoint Zmax_list (s : list Z) : option Z :=
  match s with
  | [] => None
  | x :: s' =>
      match Zmax_list s' with
      | None => Some x
      | Some m => Some (Z.max x m)
      end
  end.

Definition max_skipna (s : list (option Z)) : option Z := Zmax_list (dropna s).

(** Sorting, for [Series.median]. *)
Fixpoint insert_sorted (x : Q) (s : list Q) : list Q :=
  match s with
  | [] => [x]
  | y :: s' => if Qle_bool x y then x :: y :: s' else y :: insert_sorted x s'
  end.

Definition sort_values (s : list Q) : list Q := fold_right insert_sorted [] s.

(** *** Double precision

    The binary exponent of a positive rational [n/d]: the [e] with
    [2^e <= n/d < 2^(e+1)]. *)
Definition binade (n d : positive) : Z :=
  let e := Z.log2 (Zpos n) - Z.log2 (Zpos d) in
  if Qle_bool (2 ^ e)%Q (Zpos n # d) then e else e - 1.

(** The nearest integer, the even one of the two at a tie. *)
Definition round_half_even (x : Q) : Z :=
  let f := Qfloor x in
  match Qcompare (x - inject_Z f) (1 # 2) with
  | Lt => f
  | Gt => f + 1
  | Eq => if Z.even f then f else f + 1
  end.

(** The double nearest to a positive rational, as a fraction in lowest
    terms: a multiple of the spacing [ulp] of the doubles around the number,
    which leaves 53 significant bits at the binade of the number and is the
    spacing of the subnormal numbers below [2^-1022]. *)
Definition ulp (n d : positive) : Q := (2 ^ (Z.max (binade n d) (-1022) - 52))%Q.

Definition round_positive (n d : positive) : Q :=
  Qred (inject_Z (round_half_even ((Zpos n # d) / ulp n d)) * ulp n d).

(** The result of an arithmetic operation whose exact value is [x]: the
    nearest double, ties to the even mantissa.  The rational is reduced
    first, so that equal rationals round to the same fraction.  Overflow to
    infinity, beyond 1.8e308, is not modelled. *)
Definition round_double (x : Q) : Q :=
  match Qnum (Qred x) with
  | Z0 => 0%Q
  | Zpos n => round_positive n (Qden (Qred x))
  | Zneg n => (- round_positive n (Qden (Qred x)))%Q
  end.

(** A rational that is a double. *)
Definition is_double (x : Q) : Prop := (round_double x == x)%Q.

(** The mean of the two middle values [a <= b] as NumPy takes it: their sum,
    a double, divided by two.  On doubles the result lies between [a] and
    [b] and the two tests are idle ([mean_of_two_doubles] below); they keep
    it there on the rationals that are not doubles, which no column
    holds. *)
Definition mean_of_two (a b : Q) : Q :=
  let m := round_double (round_double (a + b) / 2) in
  if Qle_bool m a then a else if Qle_bool b m then b else m.

(** [Series.median]: the middle value of the sorted series, the mean of
    the two middle values when the length is even, [NaN] when empty. *)
Definition median (s : list Q) : option Q :=
  let sorted := sort_values s in
  let n := length sorted in
  match n with
  | O => None
  | _ =>
      if Nat.odd n
      then Some (nth (n / 2) sorted 0%Q)
      else Some (mean_of_two (nth (n / 2 - 1) sorted 0%Q) (nth (n / 2) sorted 0%Q))
  end.

(** A comparison with [NaN] is [False] in Python. *)
Definition lt_nan (x : option Q) (y : Q) : bool :=
  match x with
  | Some v => negb (Qle_bool y v)
  | None => false
  end.

Definition gt_nan (x : Q) (y : option Q) : bool :=
  match y with
  | Some v => negb (Qle_bool x v)
  | None => false
  end.

(** [==] between an identifier cell and a selected value: [NaN] equals
    nothing, itself included. *)
Definition eq_nan (x y : option Z) : bool :=
  match x, y with
  | Some a, Some b => a =? b
  | _, _ => false
  end.

End Pandas.

(** ** Cohort selection (lines 392-412 and 613-633) *)

(** [len(segment) < 40]: 40 is written inline in the source, twice per path. *)
Definition too_small (segment : list Row) : bool := (length segment <? 40)%nat.

Definition match_geo_active_products (c : Client) (r : Row) : bool :=
  String.eqb (Geography r) (geo_new c)
  && (IsActiveMember r =? is_active_new c)
  && (NumOfProducts r =? num_products_new c).

Definition match_geo_active (c : Client) (r : Row) : bool :=
  String.eqb (Geography r) (geo_new c)
  && (IsActiveMember r =? is_active_new c).

Definition match_geo (c : Client) (r : Row) : bool :=
  String.eqb (Geography r) (geo_new c).

Definition level_products : string := "Geography + IsActiveMember + NumOfProducts".
Definition level_activity : string := "Geography + IsActiveMember".
Definition level_region : string := "Geography".
Definition level_all : string := "вся база".

(** The script assigns [segment] and [segment_level] and then overwrites
    both under three successive [if]s; the pair below is that state. *)
Definition segment (data : list Row) (c : Client) : list Row * string :=
  let st := (filter (match_geo_active_products c) data, level_products) in
  let st :=
    if too_small (fst st)
    then (filter (match_geo_active c) data, level_activity)
    else st in
  let st :=
    if too_small (fst st)
    then (filter (match_geo c) data, level_region)
    else st in
  let st :=
    if (length (fst st) =? 0)%nat
    then (data, level_all)
    else st in
  st.

(** The chain as the specification words it: an ordered list of candidate
    cohorts with a minimum-size gate on the first two, the region cohort
    accepted unless empty, the whole population last. *)
Definition cohort_products (data : list Row) (c : Client) : list Row :=
  filter (match_geo_active_products c) data.
Definition cohort_activity (data : list Row) (c : Client) : list Row :=
  filter (match_geo_active c) data.
Definition cohort_region (data : list Row) (c : Client) : list Row :=
  filter (match_geo c) data.

Definition fallback_chain (data : list Row) (c : Client) : list Row * string :=
  if (40 <=? length (cohort_products data c))%nat
  then (cohort_products data c, level_products)
  else if (40 <=? length (cohort_activity data c))%nat
  then (cohort_activity data c, level_activity)
  else if (1 <=? length (cohort_region data c))%nat
  then (cohort_region data c, level_region)
  else (data, level_all).

(** ** Churn rate and risk label (lines 414-424 and 635-645) *)

(** [segment["Exited"].mean()]. *)
Definition segment_churn (segment : list Row) : option Q :=
  Pandas.mean_skipna (map Exited segment).

Definition low_risk : string := "Низкий риск".
Definition medium_risk : string := "Средний риск".
Definition high_risk : string := "Повышенный риск".

(** The pair [(risk_label, risk_color)] set by the [if]/[elif]/[else]. *)
Definition risk_label (churn : option Q) : string * string :=
  if Pandas.lt_nan churn (15 # 100)
  then (low_risk, "🟢")
  else if Pandas.lt_nan churn (30 # 100)
  then (medium_risk, "🟠")
  else (high_risk, "🔴").

(** ** Qualitative factors (lines 438-458 and 659-679) *)

Definition factor_germany : string :=
  "Клиент из Germany — в этом регионе исторически самый высокий отток.".
Definition factor_inactive : string :=
  "Клиент неактивен (IsActiveMember=0) — это сильно повышает риск.".
Definition factor_products : string :=
  "У клиента много продуктов (NumOfProducts ≥ 3) — такие чаще уходят.".
Definition factor_credit : string :=
  "Низкий кредитный рейтинг (CreditScore < 600).".
Definition factor_age : string :=
  "Возраст 40+ — это сегмент с повышенным риском оттока.".
Definition factor_satisfaction : string :=
  "Низкий уровень удовлетворённости (Satisfaction Score < 3).".
Definition factor_complain : string :=
  "Есть жалобы клиента (Complain > 0).".
Definition factor_balance : string :=
  "Высокий баланс — важно удержать такого клиента.".
Definition factor_none : string :=
  "Явных факторов повышенного риска не выявлено по простым правилам.".

(** [factors.append(x)] under an [if]. *)
Definition append_if (cond : bool) (x : string) (factors : list string) : list string :=
  if cond then factors ++ [x] else factors.

(** [not factors]. *)
Definition is_empty (factors : list string) : bool :=
  match factors with [] => true | _ :: _ => false end.

Definition factors (data : list Row) (c : Client) : list string :=
  let factors := [] in
  let factors := append_if (String.eqb (geo_new c) "Germany") factor_germany factors in
  let factors := append_if (is_active_new c =? 0) factor_inactive factors in
  let factors := append_if (3 <=? num_products_new c) factor_products factors in
  let factors := append_if (negb (Qle_bool 600 (credit_new c))) factor_credit factors in
  let factors := append_if (40 <=? age_new c) factor_age factors in
  let factors := append_if (negb (Qle_bool 3 (satisfaction_new c))) factor_satisfaction factors in
  let factors := append_if (negb (Qle_bool (complain_new c) 0)) factor_complain factors in
  let factors :=
    append_if (Pandas.gt_nan (balance_new c) (Pandas.median (map Balance data)))
              factor_balance factors in
  let factors := append_if (is_empty factors) factor_none factors in
  factors.

(** The eight checks as the specification lists them. *)
Inductive Check : Type :=
| IsGermany | IsInactive | ManyProducts | LowCredit | Age40
| LowSatisfaction | HasComplaints | HighBalance.

Definition all_checks : list Check :=
  [IsGermany; IsInactive; ManyProducts; LowCredit; Age40;
   LowSatisfaction; HasComplaints; HighBalance].

Definition check_text (k : Check) : string :=
  match k with
  | IsGermany => factor_germany
  | IsInactive => factor_inactive
  | ManyProducts => factor_products
  | LowCredit => factor_credit
  | Age40 => factor_age
  | LowSatisfaction => factor_satisfaction
  | HasComplaints => factor_complain
  | HighBalance => factor_balance
  end.

(** How many values of a series are at most [val], and how many are below. *)
Definition count_le (s : list Q) (val : Q) : nat :=
  length (filter (fun x => Qle_bool x val) s).

Definition count_lt (s : list Q) (val : Q) : nat :=
  length (filter (fun x => negb (Qle_bool val x)) s).

(** [v] is the value at position [k], counted from 0, when the series is put
    in order: fewer than [k + 1] values are below it and more than [k] are
    at most it. *)
Definition rank_is (s : list Q) (k : nat) (v : Q) : Prop :=
  In v s /\ (count_lt s v <= k < count_le s v)%nat.

(** The median of the reals: the middle value, or half the sum of the two
    middle values. *)
Definition exact_median (s : list Q) (m : Q) : Prop :=
  exists lo hi,
    rank_is s ((length s - 1) / 2) lo /\ rank_is s (length s / 2) hi
    /\ (m == (lo + hi) / 2)%Q.

(** The median in double precision: as above, the half sum being taken in
    floating point. *)
Definition double_median (s : list Q) (m : Q) : Prop :=
  exists lo hi,
    rank_is s ((length s - 1) / 2) lo /\ rank_is s (length s / 2) hi
    /\ (m == if Nat.odd (length s) then hi else Pandas.mean_of_two lo hi)%Q.

(** The conditions of the eight checks, given what the median is. *)
Definition applies_given (is_median : Q -> Prop) (c : Client) (k : Check) : Prop :=
  match k with
  | IsGermany => geo_new c = "Germany"
  | IsInactive => is_active_new c = 0
  | ManyProducts => num_products_new c >= 3
  | LowCredit => (credit_new c < 600)%Q
  | Age40 => age_new c >= 40
  | LowSatisfaction => (satisfaction_new c < 3)%Q
  | HasComplaints => (0 < complain_new c)%Q
  | HighBalance => exists m, is_median m /\ (m < balance_new c)%Q
  end.

(** The checks as the specification words them, with the median of the
    reals. *)
Definition applies_exactly (data : list Row) (c : Client) (k : Check) : Prop :=
  applies_given (exact_median (map Balance data)) c k.

(** The checks with the median in double precision. *)
Definition applies (data : list Row) (c : Client) (k : Check) : Prop :=
  applies_given (double_median (map Balance data)) c k.

Definition appliesb (data : list Row) (c : Client) (k : Check) : bool :=
  match k with
  | IsGermany => String.eqb (geo_new c) "Germany"
  | IsInactive => is_active_new c =? 0
  | ManyProducts => 3 <=? num_products_new c
  | LowCredit => negb (Qle_bool 600 (credit_new c))
  | Age40 => 40 <=? age_new c
  | LowSatisfaction => negb (Qle_bool 3 (satisfaction_new c))
  | HasComplaints => negb (Qle_bool (complain_new c) 0)
  | HighBalance => Pandas.gt_nan (balance_new c) (Pandas.median (map Balance data))
  end.

(** The specification's list: the applicable checks in the listed order,
    the placeholder when there is none. *)
Definition factor_list_spec (data : list Row) (c : Client) : list string :=
  match filter (appliesb data c) all_checks with
  | [] => [factor_none]
  | ks => map check_text ks
  end.

(** ** Percentiles (lines 465-482 and 685-702) *)

Inductive Column : Type :=
| ColCreditScore | ColAge | ColBalance | ColEstimatedSalary | ColTenure
| ColSatisfactionScore | ColPointEarned.

(** The cell of a row on one of the seven columns of the loop; [Age] and
    [Tenure] are integer columns compared with a number. *)
Definition cell (col : Column) (r : Row) : Q :=
  match col with
  | ColCreditScore => CreditScore r
  | ColAge => inject_Z (Age r)
  | ColBalance => Balance r
  | ColEstimatedSalary => EstimatedSalary r
  | ColTenure => inject_Z (Tenure r)
  | ColSatisfactionScore => SatisfactionScore r
  | ColPointEarned => PointEarned r
  end.

(** [data[col]]. *)
Definition column (col : Column) (data : list Row) : list Q := map (cell col) data.

(** One dict of [rows]; the source stores [round(val, 2)] and the
    percentile formatted as text, which is rendering: the numbers are kept
    as computed. *)
Record PercentileRow : Type := mkPercentileRow {
  indicator : string;
  client_value : Q;
  pct : option Q
}.

(** [(data[col] <= val).mean()]. *)
Definition percentile (data : list Row) (col : Column) (val : Q) : option Q :=
  Pandas.mean_bool (Pandas.le_mask (column col data) val).

(** The triples the [for] loop runs over. *)
Definition percentile_inputs (c : Client) : list (Column * Q * string) :=
  [ (ColCreditScore, credit_new c, "Кредитный рейтинг");
    (ColAge, inject_Z (age_new c), "Возраст");
    (ColBalance, balance_new c, "Баланс на счёте");
    (ColEstimatedSalary, salary_new c, "Зарплата");
    (ColTenure, inject_Z (tenure_new c), "Стаж клиента");
    (ColSatisfactionScore, satisfaction_new c, "Удовлетворённость");
    (ColPointEarned, points_new c, "Накопленные баллы") ].

Definition percentile_rows (data : list Row) (c : Client) : list PercentileRow :=
  map (fun '(col, val, label) =>
         {| indicator := label; client_value := val; pct := percentile data col val |})
      (percentile_inputs c).

(** The seven columns in the order of the loop, and the customer's value
    on each. *)
Definition seven_columns : list Column :=
  [ColCreditScore; ColAge; ColBalance; ColEstimatedSalary; ColTenure;
   ColSatisfactionScore; ColPointEarned].

Definition client_column (col : Column) (c : Client) : Q :=
  match col with
  | ColCreditScore => credit_new c
  | ColAge => inject_Z (age_new c)
  | ColBalance => balance_new c
  | ColEstimatedSalary => salary_new c
  | ColTenure => inject_Z (tenure_new c)
  | ColSatisfactionScore => satisfaction_new c
  | ColPointEarned => points_new c
  end.

(** ** The whole assessment *)

Record RiskAssessment : Type := mkAssessment {
  a_segment_level : string;
  a_segment_size : nat;
  a_segment_churn : option Q;
  a_base_churn : option Q;
  a_risk_label : string;
  a_risk_color : string;
  a_factors : list string;
  a_percentiles : list PercentileRow
}.

(** [base_churn = data["Exited"].mean()] (line 334). *)
Definition base_churn (data : list Row) : option Q :=
  Pandas.mean_skipna (map Exited data).

Definition evaluate (data : list Row) (c : Client) : RiskAssessment :=
  let '(seg, segment_level) := segment data c in
  let churn := segment_churn seg in
  let '(label, color) := risk_label churn in
  {| a_segment_level := segment_level;
     a_segment_size := length seg;
     a_segment_churn := churn;
     a_base_churn := base_churn data;
     a_risk_label := label;
     a_risk_color := color;
     a_factors := factors data c;
     a_percentiles := percentile_rows data c |}.

(** ** The script around the analysis

    The script reads the module-level frame [data], writes to the page
    through [st.markdown], [st.write] and [st.table], and, on the save
    button, overwrites the CSV file.  [World] holds the three; a script
    block is a state transformer that may raise. *)

Inductive Exn : Type :=
| ValueError              (* int(nan) *)
| IndexError              (* .iloc[0] on an empty frame *)
| StreamlitAPIException   (* a slider whose bounds coincide *)
| NameError               (* a name bound to no object *)
| TypeError.              (* an object of another type than the operation takes *)

Inductive Result (A : Type) : Type :=
| Ok (a : A)
| Raise (e : Exn).
Arguments Ok {A} a.
Arguments Raise {A} e.

Inductive Output : Type :=
| NoCustomerIdError
| SegmentSummary (level : string) (size : nat) (churn base : option Q)
| Verdict (color label : string)
| FactorLine (f : string)
| PercentileTable (table : list PercentileRow)
| RawRow (r : Row)
| ClientDict (c : Client)
| SavedNotice (id : Z).

Record World : Type := mkWorld {
  w_data : DataFrame;      (* the global [data], loaded once at start *)
  w_csv : DataFrame;       (* the content of the file at [DATA_PATH] *)
  w_screen : list Output   (* what has been written to the page, in order *)
}.

Module Script.

Definition t (A : Type) : Type := World -> Result A * World.

Definition ret {A : Type} (a : A) : t A := fun w => (Ok a, w).

Definition bind {A B : Type} (m : t A) (k : A -> t B) : t B :=
  fun w =>
    match m w with
    | (Ok a, w') => k a w'
    | (Raise e, w') => (Raise e, w')
    end.

Definition lift {A : Type} (r : Result A) : t A := fun w => (r, w).

Definition read_data : t DataFrame := fun w => (Ok (w_data w), w).

Definition emit (o : Output) : t unit :=
  fun w => (Ok tt, {| w_data := w_data w; w_csv := w_csv w;
                      w_screen := w_screen w ++ [o] |}).

(** [frame.to_csv(DATA_PATH, index=False)]. *)
Definition to_csv (frame : DataFrame) : t unit :=
  fun w => (Ok tt, {| w_data := w_data w; w_csv := frame;
                      w_screen := w_screen w |}).

Fixpoint for_each {A : Type} (f : A -> t unit) (l : list A) : t unit :=
  match l with
  | [] => ret tt
  | x :: l' => bind (f x) (fun _ => for_each f l')
  end.

End Script.

Notation "x <- m ;; k" := (Script.bind m (fun x => k))
  (at level 61, m at next level, right associativity).
Notation "m ;;; k" := (Script.bind m (fun _ => k))
  (at level 61, right associativity).

(** The analysis as both paths print it (lines 426-484 and 647-703; the
    histogram is charting and left out). *)
Definition show_analysis (c : Client) : Script.t unit :=
  df <- Script.read_data ;;
  let a := evaluate (rows df) c in
  Script.emit (SegmentSummary (a_segment_level a) (a_segment_size a)
                              (a_segment_churn a) (a_base_churn a)) ;;;
  Script.emit (Verdict (a_risk_color a) (a_risk_label a)) ;;;
  Script.for_each (fun f => Script.emit (FactorLine f)) (a_factors a) ;;;
  Script.emit (PercentileTable (a_percentiles a)).

(** *** A customer of the dataset (lines 358-507) *)

(** [data["CustomerId"]]; a frame without the column has no cells to
    compare, which the script rules out before it reads them. *)
Definition id_cells (df : DataFrame) : list (option Z) :=
  if has_CustomerId df then map CustomerId (rows df) else map (fun _ => None) (rows df).

(** [data[data["CustomerId"] == selected_customer_id].iloc[0]]. *)
Definition row_by_id (data : list Row) (selected : option Z) : Result Row :=
  match filter (fun r => Pandas.eq_nan (CustomerId r) selected) data with
  | [] => Raise IndexError
  | r :: _ => Ok r
  end.

(** Lines 373-386: the variables are read off the row; [int] and [float]
    are the identity on the typed columns. *)
Definition client_of_row (row : Row) : Client :=
  {| credit_new := CreditScore row;
     geo_new := Geography row;
     gender_new := Gender row;
     age_new := Age row;
     tenure_new := Tenure row;
     balance_new := Balance row;
     salary_new := EstimatedSalary row;
     num_products_new := NumOfProducts row;
     has_cr_card_new := HasCrCard row;
     is_active_new := IsActiveMember row;
     complain_new := Complain row;
     satisfaction_new := SatisfactionScore row;
     card_type_new := CardType row;
     points_new := PointEarned row |}.

(** [selected] is what the select box returns, [clicked] the button. *)
Definition existing_client_block (selected : option Z) (clicked : bool) : Script.t unit :=
  df <- Script.read_data ;;
  if negb (has_CustomerId df)
  then Script.emit NoCustomerIdError
  else
    row <- Script.lift (row_by_id (rows df) selected) ;;
    let c := client_of_row row in
    if clicked
    then show_analysis c ;;; Script.emit (RawRow row)
    else Script.ret tt.

(** *** A new customer (lines 512-745) *)

(** [int(data["CustomerId"].max()) + 1 if "CustomerId" in data.columns else 1];
    [int] of [NaN] raises [ValueError]. *)
Definition new_id (df : DataFrame) : Result Z :=
  if has_CustomerId df
  then match Pandas.max_skipna (map CustomerId (rows df)) with
       | Some m => Ok (m + 1)
       | None => Raise ValueError
       end
  else Ok 1.

(** [client.copy()] with the two keys added (lines 731-733). *)
Definition client_row (c : Client) (id : Z) : Row :=
  {| CustomerId := Some id;
     CreditScore := credit_new c;
     Geography := geo_new c;
     Gender := gender_new c;
     Age := age_new c;
     Tenure := tenure_new c;
     Balance := balance_new c;
     NumOfProducts := num_products_new c;
     HasCrCard := has_cr_card_new c;
     IsActiveMember := is_active_new c;
     EstimatedSalary := salary_new c;
     Exited := None;
     Complain := complain_new c;
     SatisfactionScore := satisfaction_new c;
     CardType := card_type_new c;
     PointEarned := points_new c |}.

Definition clear_id (r : Row) : Row :=
  {| CustomerId := None;
     CreditScore := CreditScore r; Geography := Geography r; Gender := Gender r;
     Age := Age r; Tenure := Tenure r; Balance := Balance r;
     NumOfProducts := NumOfProducts r; HasCrCard := HasCrCard r;
     IsActiveMember := IsActiveMember r; EstimatedSalary := EstimatedSalary r;
     Exited := Exited r; Complain := Complain r;
     SatisfactionScore := SatisfactionScore r; CardType := CardType r;
     PointEarned := PointEarned r |}.

(** *** The dtype of the identifier column

    The identifier column read from the file is [int64] when every cell
    holds an integer of 64 bits, and [float64] as soon as a cell is empty.
    The one-row frame built from the dictionary of the new customer is
    [int64] while the new identifier fits, [uint64] up to 2^64, and a column
    of Python objects beyond. *)
Inductive Dtype : Type := Int64 | UInt64 | Float64 | Object.

Definition int64_min : Z := - 2 ^ 63.
Definition int64_max : Z := 2 ^ 63 - 1.
Definition uint64_max : Z := 2 ^ 64 - 1.

Definition is_missing (x : option Z) : bool :=
  match x with None => true | Some _ => false end.

Definition fits (lo hi : Z) (x : option Z) : bool :=
  match x with Some i => (lo <=? i) && (i <=? hi) | None => false end.

Definition column_dtype (cells : list (option Z)) : Dtype :=
  if existsb is_missing cells then Float64
  else if forallb (fits int64_min int64_max) cells then Int64
  else if forallb (fits 0 uint64_max) cells then UInt64
  else Object.

(** The dtype [pd.concat] gives a column whose parts have these dtypes:
    NumPy's promotion, where a signed and an unsigned 64-bit column meet in
    [float64]. *)
Definition common_dtype (a b : Dtype) : Dtype :=
  match a, b with
  | Object, _ | _, Object => Object
  | Float64, _ | _, Float64 => Float64
  | Int64, Int64 => Int64
  | UInt64, UInt64 => UInt64
  | Int64, UInt64 | UInt64, Int64 => Float64
  end.

(** The double nearest to an integer, ties to the even mantissa: what a
    cast of an integer to [float64] stores.  Integers below 2^53 in absolute
    value are kept; beyond, the 53 leading bits are kept and the rest is
    rounded.  (Integers of 1024 bits and more, which become infinite, are
    not modelled.) *)
Definition Z_to_double (z : Z) : Z :=
  let a := Z.abs z in
  if a <? 2 ^ 53 then z
  else
    let k := Z.log2 a - 52 in
    let q := a / 2 ^ k in
    let r := a mod 2 ^ k in
    let half := 2 ^ (k - 1) in
    let m := if r <? half then q
             else if half <? r then q + 1
             else if Z.even q then q else q + 1 in
    Z.sgn z * (m * 2 ^ k).

(** A row with another identifier cell. *)
Definition set_id (x : option Z) (r : Row) : Row :=
  {| CustomerId := x;
     CreditScore := CreditScore r; Geography := Geography r; Gender := Gender r;
     Age := Age r; Tenure := Tenure r; Balance := Balance r;
     NumOfProducts := NumOfProducts r; HasCrCard := HasCrCard r;
     IsActiveMember := IsActiveMember r; EstimatedSalary := EstimatedSalary r;
     Exited := Exited r; Complain := Complain r;
     SatisfactionScore := SatisfactionScore r; CardType := CardType r;
     PointEarned := PointEarned r |}.

(** The identifier cell of a row once its column has dtype [d]. *)
Definition astype_id (d : Dtype) (r : Row) : Row :=
  match d with
  | Float64 => set_id (option_map Z_to_double (CustomerId r)) r
  | Int64 | UInt64 | Object => r
  end.

(** [pd.concat([data, pd.DataFrame([client_row])], ignore_index=True)]: the
    result has the union of the columns, the old rows are [NaN] on a column
    they did not have, and the identifier column takes the common dtype of
    its two parts, every cell being cast to it. *)
Definition concat_row (df : DataFrame) (r : Row) : DataFrame :=
  let old := if has_CustomerId df then rows df else map clear_id (rows df) in
  let d := common_dtype (column_dtype (map CustomerId old))
                        (column_dtype [CustomerId r]) in
  {| has_CustomerId := true;
     rows := map (astype_id d) (old ++ [r]) |}.

(** The identifiers a frame holds. *)
Definition identifiers (df : DataFrame) : list Z := Pandas.dropna (id_cells df).

(** Every identifier of the frame is below 2^53 in absolute value, the
    range in which [float64] holds every integer. *)
Definition small_identifiers (df : DataFrame) : Prop :=
  forall i, In i (identifiers df) -> - 2 ^ 53 < i < 2 ^ 53.

Definition save_client (c : Client) : Script.t unit :=
  df <- Script.read_data ;;
  id <- Script.lift (new_id df) ;;
  let updated_data := concat_row df (client_row c id) in
  Script.to_csv updated_data ;;;
  Script.emit (SavedNotice id).

Definition new_client_block (c : Client) (analyze_clicked analyze_and_save_clicked : bool)
  : Script.t unit :=
  if analyze_clicked || analyze_and_save_clicked
  then
    show_analysis c ;;;
    Script.emit (ClientDict c) ;;;
    if analyze_and_save_clicked then save_client c else Script.ret tt
  else Script.ret tt.

(** ** The analysis over a store of objects

    [World] keeps the frame [data] as a value, which cannot tell a copy
    from the object itself.  Whether the analysis changes the population is
    a question about objects: [data[mask]] builds a new frame,
    [segment = data] binds a second name to the same one, [factors.append]
    and [rows.append] change a list in place, [client_row[...] = ...]
    changes a dict in place, and [filtered_plot["Status"] = ...] (line 233)
    changes a frame in place.
    Below, the names of the script hold references into a store, and the
    analysis is written statement by statement over it. *)

Inductive Obj : Type :=
| Frame (df : DataFrame)                 (* a frame with the columns of the file *)
| StatusFrame (df : DataFrame) (status : list (option string))
                                         (* the same with a column [Status] *)
| Strings (l : list string)              (* the list [factors] *)
| Dicts (l : list PercentileRow)         (* the list [rows] of dicts *)
| Table (l : list PercentileRow)         (* [pd.DataFrame(rows)] *)
| Dict (c : Client) (customer_id : option Z) (exited : bool).
                                         (* the dict [client], with the keys
                                            [CustomerId] and [Exited] once set *)

(** A reference is the position of the object in the store; objects are
    never freed, a new one goes to the end. *)
Definition Ref : Type := nat.

Record Mem : Type := mkMem {
  m_objects : list Obj;
  m_csv : DataFrame;       (* the content of the file at [DATA_PATH] *)
  m_screen : list Output   (* what has been written to the page, in order *)
}.

Definition add_objects (m : Mem) (fresh : list Obj) : Mem :=
  {| m_objects := m_objects m ++ fresh; m_csv := m_csv m; m_screen := m_screen m |}.

Definition add_screen (m : Mem) (out : list Output) : Mem :=
  {| m_objects := m_objects m; m_csv := m_csv m; m_screen := m_screen m ++ out |}.

Fixpoint replace_nth (l : list Obj) (r : nat) (o : Obj) : list Obj :=
  match l, r with
  | [], _ => []
  | _ :: l', O => o :: l'
  | x :: l', S r' => x :: replace_nth l' r' o
  end.

Module Heap.

Definition t (A : Type) : Type := Mem -> Result A * Mem.

Definition ret {A : Type} (a : A) : t A := fun m => (Ok a, m).

Definition raise {A : Type} (e : Exn) : t A := fun m => (Raise e, m).

Definition bind {A B : Type} (p : t A) (k : A -> t B) : t B :=
  fun m =>
    match p m with
    | (Ok a, m') => k a m'
    | (Raise e, m') => (Raise e, m')
    end.

(** A new object. *)
Definition alloc (o : Obj) : t Ref :=
  fun m => (Ok (length (m_objects m)), add_objects m [o]).

(** The object a name is bound to. *)
Definition load (r : Ref) : t Obj :=
  fun m =>
    match nth_error (m_objects m) r with
    | Some o => (Ok o, m)
    | None => (Raise NameError, m)
    end.

(** A change of the object in place: every name bound to it sees it. *)
Definition store (r : Ref) (o : Obj) : t unit :=
  fun m =>
    match nth_error (m_objects m) r with
    | Some _ => (Ok tt, {| m_objects := replace_nth (m_objects m) r o;
                           m_csv := m_csv m; m_screen := m_screen m |})
    | None => (Raise NameError, m)
    end.

Definition emit (o : Output) : t unit := fun m => (Ok tt, add_screen m [o]).

Definition lift {A : Type} (r : Result A) : t A := fun m => (r, m).

Fixpoint for_each {A : Type} (f : A -> t unit) (l : list A) : t unit :=
  match l with
  | [] => ret tt
  | x :: l' => bind (f x) (fun _ => for_each f l')
  end.

(** An [if] without [else]. *)
Definition when (cond : bool) (p : t unit) : t unit := if cond then p else ret tt.

End Heap.

Notation "x <~ p ;; k" := (Heap.bind p (fun x => k))
  (at level 61, p at next level, right associativity).
Notation "p ;;~ k" := (Heap.bind p (fun _ => k))
  (at level 61, right associativity).

(** *** Reading a frame

    The columns and masks built on the way ([data["Geography"] == geo_new],
    [segment["Exited"]]) are temporaries that no name holds; they are not
    put in the store.  The analysis reads frames with the columns of the
    file; the frame with a status column is only drawn. *)

Definition frame (r : Ref) : Heap.t DataFrame :=
  o <~ Heap.load r ;;
  match o with
  | Frame df => Heap.ret df
  | _ => Heap.raise TypeError
  end.

(** [frame[mask]]: a new frame with the rows the mask keeps. *)
Definition getitem_mask (r : Ref) (mask : Row -> bool) : Heap.t Ref :=
  df <~ frame r ;;
  Heap.alloc (Frame {| has_CustomerId := has_CustomerId df;
                       rows := filter mask (rows df) |}).

(** [len(frame)]. *)
Definition len (r : Ref) : Heap.t nat :=
  df <~ frame r ;; Heap.ret (length (rows df)).

(** [frame["Exited"].mean()]. *)
Definition mean_Exited (r : Ref) : Heap.t (option Q) :=
  df <~ frame r ;; Heap.ret (segment_churn (rows df)).

(** [frame["Balance"].median()]. *)
Definition median_Balance (r : Ref) : Heap.t (option Q) :=
  df <~ frame r ;; Heap.ret (Pandas.median (map Balance (rows df))).

(** [(frame[col] <= val).mean()]. *)
Definition mean_le (r : Ref) (col : Column) (val : Q) : Heap.t (option Q) :=
  df <~ frame r ;; Heap.ret (percentile (rows df) col val).

(** [frame.copy()]. *)
Definition copy (r : Ref) : Heap.t Ref :=
  df <~ frame r ;; Heap.alloc (Frame df).

(** *** Writing in place *)

(** [frame["Status"] = values]: the frame itself gets the column, or has
    it overwritten. *)
Definition setitem_Status (r : Ref) (values : list (option string)) : Heap.t unit :=
  o <~ Heap.load r ;;
  match o with
  | Frame df | StatusFrame df _ => Heap.store r (StatusFrame df values)
  | _ => Heap.raise TypeError
  end.

Definition strings (r : Ref) : Heap.t (list string) :=
  o <~ Heap.load r ;;
  match o with Strings l => Heap.ret l | _ => Heap.raise TypeError end.

(** [factors.append(x)]. *)
Definition append_string (r : Ref) (x : string) : Heap.t unit :=
  l <~ strings r ;; Heap.store r (Strings (l ++ [x])).

Definition dicts (r : Ref) : Heap.t (list PercentileRow) :=
  o <~ Heap.load r ;;
  match o with Dicts l => Heap.ret l | _ => Heap.raise TypeError end.

(** [rows.append({...})]. *)
Definition append_dict (r : Ref) (d : PercentileRow) : Heap.t unit :=
  l <~ dicts r ;; Heap.store r (Dicts (l ++ [d])).

Definition table (r : Ref) : Heap.t (list PercentileRow) :=
  o <~ Heap.load r ;;
  match o with Table l => Heap.ret l | _ => Heap.raise TypeError end.

(** *** The analysis (lines 392-484 and 613-703) *)

(** The three overwrites of [segment] and [segment_level]; the last one
    binds [segment] to the population itself. *)
Definition select_segment (data : Ref) (c : Client) : Heap.t (Ref * string) :=
  segment <~ getitem_mask data (match_geo_active_products c) ;;
  let st := (segment, level_products) in
  n <~ len (fst st) ;;
  st <~ (if (n <? 40)%nat
         then segment <~ getitem_mask data (match_geo_active c) ;;
              Heap.ret (segment, level_activity)
         else Heap.ret st) ;;
  n <~ len (fst st) ;;
  st <~ (if (n <? 40)%nat
         then segment <~ getitem_mask data (match_geo c) ;;
              Heap.ret (segment, level_region)
         else Heap.ret st) ;;
  n <~ len (fst st) ;;
  Heap.ret (if (n =? 0)%nat then (data, level_all) else st).

(** [factors = []] and the guarded appends. *)
Definition build_factors (data : Ref) (c : Client) : Heap.t Ref :=
  factors <~ Heap.alloc (Strings []) ;;
  Heap.when (String.eqb (geo_new c) "Germany") (append_string factors factor_germany) ;;~
  Heap.when (is_active_new c =? 0) (append_string factors factor_inactive) ;;~
  Heap.when (3 <=? num_products_new c) (append_string factors factor_products) ;;~
  Heap.when (negb (Qle_bool 600 (credit_new c))) (append_string factors factor_credit) ;;~
  Heap.when (40 <=? age_new c) (append_string factors factor_age) ;;~
  Heap.when (negb (Qle_bool 3 (satisfaction_new c)))
            (append_string factors factor_satisfaction) ;;~
  Heap.when (negb (Qle_bool (complain_new c) 0)) (append_string factors factor_complain) ;;~
  median <~ median_Balance data ;;
  Heap.when (Pandas.gt_nan (balance_new c) median) (append_string factors factor_balance) ;;~
  l <~ strings factors ;;
  Heap.when (is_empty l) (append_string factors factor_none) ;;~
  Heap.ret factors.

(** [rows = []] and the loop over the seven columns. *)
Definition build_rows (data : Ref) (c : Client) : Heap.t Ref :=
  rows <~ Heap.alloc (Dicts []) ;;
  Heap.for_each
    (fun '(col, val, label) =>
       pct <~ mean_le data col val ;;
       append_dict rows {| indicator := label; client_value := val; pct := pct |})
    (percentile_inputs c) ;;~
  Heap.ret rows.

(** The analysis, with [base_churn] as line 334 computed it. *)
Definition analysis (data : Ref) (base_churn : option Q) (c : Client) : Heap.t unit :=
  st <~ select_segment data c ;;
  let segment := fst st in
  let segment_level := snd st in
  segment_churn <~ mean_Exited segment ;;
  let risk := risk_label segment_churn in
  n <~ len segment ;;
  Heap.emit (SegmentSummary segment_level n segment_churn base_churn) ;;~
  Heap.emit (Verdict (snd risk) (fst risk)) ;;~
  factors <~ build_factors data c ;;
  l <~ strings factors ;;
  Heap.for_each (fun f => Heap.emit (FactorLine f)) l ;;~
  rows <~ build_rows data c ;;
  d <~ dicts rows ;;
  tbl <~ Heap.alloc (Table d) ;;
  shown <~ table tbl ;;
  Heap.emit (PercentileTable shown).

(** Line 334 and the analysis. *)
Definition analyse (data : Ref) (c : Client) : Heap.t unit :=
  base_churn <~ mean_Exited data ;;
  analysis data base_churn c.

(** *** The status column of the histogram (lines 232-234) *)

(** [Series.map({0: ..., 1: ...})]: any other value gives [NaN]. *)
Definition status_of (exited : option Z) : option string :=
  match exited with
  | Some 0 => Some "Остались (0)"
  | Some 1 => Some "Ушли (1)"
  | _ => None
  end.

Definition status_plot (filtered_data : Ref) : Heap.t Ref :=
  filtered_plot <~ copy filtered_data ;;
  df <~ frame filtered_plot ;;
  setitem_Status filtered_plot (map status_of (map Exited (rows df))) ;;~
  Heap.ret filtered_plot.

(** *** The form and the save (lines 594-611 and 725-745) *)

Definition dict (r : Ref) : Heap.t (Client * option Z * bool) :=
  o <~ Heap.load r ;;
  match o with
  | Dict c id exited => Heap.ret (c, id, exited)
  | _ => Heap.raise TypeError
  end.

(** [d.copy()]. *)
Definition dict_copy (r : Ref) : Heap.t Ref :=
  d <~ dict r ;;
  let '(c, id, exited) := d in
  Heap.alloc (Dict c id exited).

(** [d["CustomerId"] = id] and [d["Exited"] = None]. *)
Definition setitem_CustomerId (r : Ref) (id : Z) : Heap.t unit :=
  d <~ dict r ;;
  let '(c, _, exited) := d in
  Heap.store r (Dict c (Some id) exited).

Definition setitem_Exited_None (r : Ref) : Heap.t unit :=
  d <~ dict r ;;
  let '(c, id, _) := d in
  Heap.store r (Dict c id true).

(** The row of [pd.DataFrame([d])]; without the key [CustomerId] the cell
    is missing after the concatenation. *)
Definition row_of_dict (c : Client) (id : option Z) : Row :=
  match id with
  | Some i => client_row c i
  | None => clear_id (client_row c 0)
  end.

(** [pd.concat([frame, pd.DataFrame([d])], ignore_index=True)]; the frame
    of one row is a temporary. *)
Definition concat_dict (a d : Ref) : Heap.t Ref :=
  df <~ frame a ;;
  x <~ dict d ;;
  let '(c, id, _) := x in
  Heap.alloc (Frame (concat_row df (row_of_dict c id))).

(** [frame.to_csv(DATA_PATH, index=False)]. *)
Definition to_csv (r : Ref) : Heap.t unit :=
  df <~ frame r ;;
  fun m => (Ok tt, {| m_objects := m_objects m; m_csv := df; m_screen := m_screen m |}).

(** Lines 729-745. *)
Definition save (data client : Ref) : Heap.t unit :=
  df <~ frame data ;;
  new_id <~ Heap.lift (new_id df) ;;
  client_row <~ dict_copy client ;;
  setitem_CustomerId client_row new_id ;;~
  setitem_Exited_None client_row ;;~
  updated_data <~ concat_dict data client_row ;;
  to_csv updated_data ;;~
  Heap.emit (SavedNotice new_id).

(** The block of the form once it is submitted. *)
Definition new_client (data : Ref) (c : Client)
    (analyze_clicked analyze_and_save_clicked : bool) : Heap.t unit :=
  if analyze_clicked || analyze_and_save_clicked
  then
    client <~ Heap.alloc (Dict c None false) ;;
    analyse data c ;;~
    d <~ dict client ;;
    Heap.emit (ClientDict (fst (fst d))) ;;~
    if analyze_and_save_clicked then save data client else Heap.ret tt
  else Heap.ret tt.

(** ** Notions used in the statements *)

(** The rows of a cohort whose outcome label is known, and their labels. *)
Definition label_known (r : Row) : bool :=
  match Exited r with Some _ => true | None => false end.

Definition known_rows (seg : list Row) : list Row := filter label_known seg.
Definition known_labels (seg : list Row) : list Z := Pandas.dropna (map Exited seg).
Definition Zsum (l : list Z) : Z := fold_right Z.add 0 l.

(** What the analysis block writes to the page for an assessment. *)
Definition printed (a : RiskAssessment) : list Output :=
  [SegmentSummary (a_segment_level a) (a_segment_size a)
                  (a_segment_churn a) (a_base_churn a);
   Verdict (a_risk_color a) (a_risk_label a)]
  ++ map FactorLine (a_factors a)
  ++ [PercentileTable (a_percentiles a)].

Definition with_screen (w : World) (out : list Output) : World :=
  {| w_data := w_data w; w_csv := w_csv w; w_screen := w_screen w ++ out |}.

(** A session started on an empty CSV file that has the identifier column. *)
Definition empty_world : World :=
  {| w_data := mkFrame true []; w_csv := mkFrame true []; w_screen := [] |}.

(** ** Sample data used by the worked instances *)

Definition sample_row (id : Z) (geo : string) (active products : Z)
                      (balance : Q) (exited : option Z) : Row :=
  {| CustomerId := Some id; CreditScore := 650; Geography := geo;
     Gender := "Female"; Age := 35; Tenure := 5; Balance := balance;
     NumOfProducts := products; HasCrCard := 1; IsActiveMember := active;
     EstimatedSalary := 50000; Exited := exited; Complain := 0;
     SatisfactionScore := 3; CardType := "GOLD"; PointEarned := 400 |}.

Definition sample_client (geo : string) (active products : Z) : Client :=
  client_of_row (sample_row 0 geo active products 1000 None).

(** An older customer of Germany.  The row differs from [sample_row] on
    every column from which the sliders of the sidebar (lines 80-96) and of
    the form (lines 337-343 and 521-578) take their bounds, so that on a
    population that holds both the script builds them all and reaches the
    analysis and the save. *)
Definition older_row_of (id : option Z) (balance : Q) : Row :=
  {| CustomerId := id; CreditScore := 700; Geography := "Germany";
     Gender := "Male"; Age := 61; Tenure := 9; Balance := balance;
     NumOfProducts := 3; HasCrCard := 0; IsActiveMember := 0;
     EstimatedSalary := 70000; Exited := Some 1; Complain := 1;
     SatisfactionScore := 2; CardType := "SILVER"; PointEarned := 250 |}.

(** A customer aged 61 with a tenure of 9 years. *)
Definition older_row : Row := older_row_of (Some 4) 3000.

(** A population of two customers, with identifiers 15634602 and
    15647311. *)
Definition two_customers : list Row :=
  [sample_row 15634602 "France" 1 1 0 (Some 1); older_row_of (Some 15647311) 3000].



(** Thirty-nine retained customers of France, active, with one product,
    seventeen departed ones with two products, and the older customer. *)
Definition gate_world : World :=
  {| w_data := mkFrame true (repeat (sample_row 1 "France" 1 1 0 (Some 0)) 39
                             ++ repeat (sample_row 2 "France" 1 2 0 (Some 1)) 17
                             ++ [older_row]);
     w_csv := mkFrame true [];
     w_screen := [] |}.

(** The doubles nearest to 0.1 and to 0.2, the double
    0.15000000000000002, half of the double 0.30000000000000004 that
    [0.1 + 0.2] gives, and the double 0.09999999999999999 just below the
    first. *)
Definition double_0_1 : Q := 3602879701896397 # 36028797018963968.
Definition double_0_2 : Q := 3602879701896397 # 18014398509481984.
Definition double_0_15 : Q := 1351079888211149 # 9007199254740992.
Definition double_below_0_1 : Q := 7205759403792793 # 72057594037927936.

(** Two customers with balances 0.1 and 0.2, and a profile of France,
    active, with one product, whose balance is 0.15000000000000002: what
    the balance slider of the form holds until it is moved, its initial
    value being [data["Balance"].median()] (line 542). *)
Definition rounding_population : list Row :=
  [sample_row 1 "France" 1 1 double_0_1 (Some 0);
   older_row_of (Some 2) double_0_2].

Definition rounding_client : Client :=
  client_of_row (sample_row 0 "France" 1 1 double_0_15 None).

(** Two customers with balances 0.09999999999999999 and 0.1, the second of
    whom is analysed. *)
Definition adjacent_row : Row := older_row_of (Some 2) double_0_1.

Definition adjacent_population : list Row :=
  [sample_row 1 "France" 1 1 double_below_0_1 (Some 0); adjacent_row].

(** 45 active French customers with two products, 5 with one product, and
    3 inactive Spanish customers. *)
Definition sample_population : list Row :=
  repeat (sample_row 1 "France" 1 2 1000 (Some 0)) 45
  ++ repeat (sample_row 2 "France" 1 1 2000 (Some 1)) 5
  ++ repeat (sample_row 3 "Spain" 0 1 0 (Some 1)) 3.

(** The same with one older customer, so that ages and tenures vary. *)
Definition varied_population : list Row := sample_population ++ [older_row].

(** * The rest of the code *)

(** ** [filter_data] ([filters.py]) *)

Definition all_label : string := "Все".
Definition only_active : string := "Только активные".
Definition only_inactive : string := "Только неактивные".
Definition only_exited : string := "Только ушедшие".
Definition only_stayed : string := "Только оставшиеся".

(** [x in values], also [series.isin(values)] cell by cell. *)
Definition isin (values : list string) (x : string) : bool :=
  existsb (String.eqb x) values.

(** [series.between(lo, hi)]: both ends included. *)
Definition between (lo hi x : Z) : bool := (lo <=? x) && (x <=? hi).

(** The truth value of a list: [if geography:]. *)
Definition truthy {A : Type} (l : list A) : bool :=
  match l with [] => false | _ :: _ => true end.

(** The local [filtered] is rebound by each filter in turn; [df.copy()]
    leaves [df] alone. *)
Definition filter_data (df : list Row) (geography : list string) (gender : string)
    (age_range tenure_range : Z * Z) (is_active_filter exited_filter : string)
  : list Row :=
  let filtered := df in
  let filtered :=
    if truthy geography
    then filter (fun r => isin geography (Geography r)) filtered
    else filtered in
  let filtered :=
    if negb (String.eqb gender all_label)
    then filter (fun r => String.eqb (Gender r) gender) filtered
    else filtered in
  let filtered :=
    filter (fun r => between (fst age_range) (snd age_range) (Age r)) filtered in
  let filtered :=
    filter (fun r => between (fst tenure_range) (snd tenure_range) (Tenure r)) filtered in
  let filtered :=
    if negb (String.eqb is_active_filter all_label)
    then
      let active_value := if String.eqb is_active_filter only_active then 1 else 0 in
      filter (fun r => IsActiveMember r =? active_value) filtered
    else filtered in
  let filtered :=
    if negb (String.eqb exited_filter all_label)
    then
      let exited_value := if String.eqb exited_filter only_exited then 1 else 0 in
      filter (fun r => Pandas.eq_nan (Exited r) (Some exited_value)) filtered
    else filtered in
  filtered.

(** The single test the six steps amount to. *)
Definition passes (geography : list string) (gender : string)
    (age_range tenure_range : Z * Z) (is_active_filter exited_filter : string)
    (r : Row) : bool :=
  (negb (truthy geography) || isin geography (Geography r))
  && (String.eqb gender all_label || String.eqb (Gender r) gender)
  && between (fst age_range) (snd age_range) (Age r)
  && between (fst tenure_range) (snd tenure_range) (Tenure r)
  && (String.eqb is_active_filter all_label
      || (IsActiveMember r =? (if String.eqb is_active_filter only_active then 1 else 0)))
  && (String.eqb exited_filter all_label
      || Pandas.eq_nan (Exited r)
           (Some (if String.eqb exited_filter only_exited then 1 else 0))).

(** What a row must satisfy to be kept, test by test. *)
Definition kept (geography : list string) (gender : string)
    (age_range tenure_range : Z * Z) (is_active_filter exited_filter : string)
    (r : Row) : Prop :=
  (geography = [] \/ In (Geography r) geography)
  /\ (gender = all_label \/ Gender r = gender)
  /\ (fst age_range <= Age r <= snd age_range)
  /\ (fst tenure_range <= Tenure r <= snd tenure_range)
  /\ (is_active_filter = all_label
      \/ IsActiveMember r = (if String.eqb is_active_filter only_active then 1 else 0))
  /\ (exited_filter = all_label
      \/ Exited r = Some (if String.eqb exited_filter only_exited then 1 else 0)).

(** ** The sidebar of [main.py] (lines 68-130) *)

(** [Series.unique()]: the distinct values in order of first appearance. *)
Fixpoint unique (s : list string) : list string :=
  match s with
  | [] => []
  | x :: s' => x :: filter (fun y => negb (String.eqb x y)) (unique s')
  end.

Fixpoint insert_string (x : string) (s : list string) : list string :=
  match s with
  | [] => [x]
  | y :: s' => if String.leb x y then x :: y :: s' else y :: insert_string x s'
  end.

(** [sorted(...)] on strings. *)
Definition sorted (s : list string) : list string := fold_right insert_string [] s.

(** [Series.min()] of an integer column; [NaN] when empty. *)
Fixpoint Zmin_list (s : list Z) : option Z :=
  match s with
  | [] => None
  | x :: s' =>
      match Zmin_list s' with
      | None => Some x
      | Some m => Some (Z.min x m)
      end
  end.

(** [int(series.min())]; [int] of [NaN] raises [ValueError]. *)
Definition int_of (x : option Z) : Result Z :=
  match x with
  | Some v => Ok v
  | None => Raise ValueError
  end.

(** The six [selected_*] variables. *)
Record Sidebar : Type := mkSidebar {
  selected_geography : list string;
  selected_gender : string;
  selected_age_range : Z * Z;
  selected_tenure_range : Z * Z;
  selected_is_active : string;
  selected_exited : string
}.

Definition gender_options : list string := [all_label; "Male"; "Female"].
Definition is_active_options : list string := [all_label; only_active; only_inactive].
Definition exited_options : list string := [all_label; only_exited; only_stayed].

(** Sequencing of steps that may raise. *)
Definition and_then {A B : Type} (r : Result A) (k : A -> Result B) : Result B :=
  match r with
  | Ok a => k a
  | Raise e => Raise e
  end.

(** [st.slider(..., min_value, max_value, ...)]: Streamlit refuses to build
    a slider whose lower bound is not below its upper bound. *)
Definition slider (min_value max_value : Z) : Result unit :=
  if min_value <? max_value then Ok tt else Raise StreamlitAPIException.

(** Lines 68-108: the widgets are built in this order, and hold, before the
    user touches them, every region, the first option of each choice and
    the full range of each slider.  The typed [Geography] column has no
    missing value, so [dropna()] keeps it whole. *)
Definition sidebar_defaults (data : list Row) : Result Sidebar :=
  let geography_options := sorted (unique (map Geography data)) in
  and_then (int_of (Zmin_list (map Age data))) (fun min_age =>
  and_then (int_of (Pandas.Zmax_list (map Age data))) (fun max_age =>
  and_then (slider min_age max_age) (fun _ =>
  and_then (int_of (Zmin_list (map Tenure data))) (fun min_tenure =>
  and_then (int_of (Pandas.Zmax_list (map Tenure data))) (fun max_tenure =>
  and_then (slider min_tenure max_tenure) (fun _ =>
    Ok {| selected_geography := geography_options;
          selected_gender := hd all_label gender_options;
          selected_age_range := (min_age, max_age);
          selected_tenure_range := (min_tenure, max_tenure);
          selected_is_active := hd all_label is_active_options;
          selected_exited := hd all_label exited_options |})))))).

(** The sidebar as the script sees it: the widgets are built, then return
    the user's selection, or their defaults when untouched. *)
Definition sidebar (data : list Row) (touched : option Sidebar) : Result Sidebar :=
  and_then (sidebar_defaults data) (fun defaults =>
    Ok (match touched with
        | Some selection => selection
        | None => defaults
        end)).

(** The script is one sequence: everything after line 111 (filters,
    indicators, tabs, both analysis blocks) runs only once the sidebar has
    been built. *)
Definition after_sidebar {A : Type} (touched : option Sidebar)
    (rest : Sidebar -> Script.t A) : Script.t A :=
  df <- Script.read_data ;;
  sb <- Script.lift (sidebar (rows df) touched) ;;
  rest sb.

(** Lines 118-126. *)
Definition filtered_data (data : list Row) (sb : Sidebar) : list Row :=
  filter_data data (selected_geography sb) (selected_gender sb)
              (selected_age_range sb) (selected_tenure_range sb)
              (selected_is_active sb) (selected_exited sb).

(** ** [calc_kpis] ([main.py], lines 44-61) *)

Record Kpis : Type := mkKpis {
  total_customers : nat;
  churn_rate : option Q;
  avg_credit_score : option Q;
  avg_balance : option Q;
  avg_salary : option Q;
  avg_tenure : option Q
}.

Definition calc_kpis (df : list Row) : Kpis :=
  if (0 <? length df)%nat
  then {| total_customers := length df;
          churn_rate := Pandas.mean_skipna (map Exited df);
          avg_credit_score := Pandas.mean (map CreditScore df);
          avg_balance := Pandas.mean (map Balance df);
          avg_salary := Pandas.mean (map EstimatedSalary df);
          avg_tenure := Pandas.mean (map (fun r => inject_Z (Tenure r)) df) |}
  else {| total_customers := length df;
          churn_rate := Some 0%Q;
          avg_credit_score := Some 0%Q;
          avg_balance := Some 0%Q;
          avg_salary := Some 0%Q;
          avg_tenure := Some 0%Q |}.

(** Lines 128-137: the script stops on an empty selection, else computes
    the indicators; [None] is the stop. *)
Definition kpi_block (data : list Row) (sb : Sidebar) : option Kpis :=
  let filtered := filtered_data data sb in
  if negb (truthy filtered) then None else Some (calc_kpis filtered).

(** ** [get_numeric_columns] ([plots.py], lines 35-44) *)

(** [list.remove(x)]: drops the first occurrence. *)
Fixpoint list_remove (x : string) (l : list string) : list string :=
  match l with
  | [] => []
  | y :: l' => if String.eqb x y then l' else y :: list_remove x l'
  end.

(** A frame's columns with, for each, whether its dtype is a number. *)
Definition get_numeric_columns (dtypes : list (string * bool)) : list string :=
  let numeric_cols := map fst (filter snd dtypes) in
  fold_left
    (fun numeric_cols col =>
       if isin numeric_cols col then list_remove col numeric_cols else numeric_cols)
    ["RowNumber"; "CustomerId"] numeric_cols.

(** Lines 288-290 of [main.py]. *)
Definition numeric_cols_full (dtypes : list (string * bool)) : list string :=
  let cols := get_numeric_columns dtypes in
  if negb (isin cols "Exited") then cols ++ ["Exited"] else cols.

(** ** Tenure bins of [plot_tenure_churn_bar] ([plots.py], lines 70-82) *)

Definition tenure_bins : list Z := [-1; 2; 5; 10].
Definition tenure_labels : list string := ["0–2 года"; "3–5 лет"; "6–10 лет"].

(** [pd.cut(x, bins, labels)] with the default [right=True]: the label of
    the interval [(bins[i], bins[i+1]]] that holds [x], [NaN] outside. *)
Fixpoint cut (bins : list Z) (labels : list string) (x : Z) : option string :=
  match bins, labels with
  | lo :: ((hi :: _) as bins'), label :: labels' =>
      if (lo <? x) && (x <=? hi) then Some label else cut bins' labels' x
  | _, _ => None
  end.

Definition tenure_cat (r : Row) : option string :=
  cut tenure_bins tenure_labels (Tenure r).

(** The rows behind one bar, and the bar: [groupby("TenureCat")["Exited"].mean()]
    at one label. *)
Definition tenure_group (df : list Row) (label : string) : list Row :=
  filter (fun r => match tenure_cat r with
                   | Some l => String.eqb l label
                   | None => false
                   end) df.

Definition tenure_churn (df : list Row) (label : string) : option Q :=
  Pandas.mean_skipna (map Exited (tenure_group df label)).

(** ** [ml.py] *)

(** [series.astype(int)]: a missing value cannot be cast. *)
Fixpoint astype_int (s : list (option Z)) : Result (list Z) :=
  match s with
  | [] => Ok []
  | None :: _ => Raise ValueError
  | Some v :: s' =>
      match astype_int s' with
      | Ok l => Ok (v :: l)
      | Raise e => Raise e
      end
  end.

(** [_prepare_features_target]: [df[FEATURE_COLUMNS]] keeps, of each row,
    the fourteen feature columns, which are the fourteen attributes of
    [Client] (the keys of the dict [client] of [main.py], in the same
    order). *)
Definition _prepare_features_target (df : list Row) : Result (list Client * list Z) :=
  let X := map client_of_row df in
  match astype_int (map Exited df) with
  | Ok y => Ok (X, y)
  | Raise e => Raise e
  end.

(** ** Notions used in the statements about the rest of the code *)

(** Every known outcome label is 0 or 1. *)
Definition binary_labels (seg : list Row) : Prop :=
  forall r, In r seg -> Exited r = None \/ Exited r = Some 0 \/ Exited r = Some 1.

(** The tenure lies within the bins of the tenure chart. *)
Definition tenure_in_bins (r : Row) : bool := (0 <=? Tenure r) && (Tenure r <=? 10).

(** * Properties *)

(** Decides, one after the other, the size tests on named cohorts. *)
Ltac decide_tests :=
  repeat (cbn [fst snd];
          match goal with
          | |- context [Nat.ltb (length ?s) ?n] =>
              is_var s; destruct (Nat.ltb_spec (length s) n)
          | |- context [Nat.eqb (length ?s) ?n] =>
              is_var s; destruct (Nat.eqb_spec (length s) n)
          | |- context [Nat.leb ?n (length ?s)] =>
              is_var s; destruct (Nat.leb_spec n (length s))
          end; try lia).

(** Closes one branch of the chain once every test has been decided. *)
Ltac close_chain_case :=
  repeat split; intros;
  first [ reflexivity
        | lia
        | match goal with H : _ = level_all |- _ => discriminate H end ].

(** ** Cohort selection *)

Section Cohorts.

Variable data : list Row.
Variable c : Client.

Lemma match_products_activity r :
  match_geo_active_products c r = true -> match_geo_active c r = true.
Proof.
  unfold match_geo_active_products, match_geo_active.
  intros H. apply andb_true_iff in H. tauto.
Qed.

Lemma match_activity_geo r :
  match_geo_active c r = true -> match_geo c r = true.
Proof.
  unfold match_geo_active, match_geo.
  intros H. apply andb_true_iff in H. tauto.
Qed.

End Cohorts.

(** Filtering by a stronger test keeps fewer rows, and only rows the weaker
    test keeps. *)
Lemma filter_weaken_incl {A : Type} (p q : A -> bool) (l : list A) :
  (forall x, p x = true -> q x = true) -> incl (filter p l) (filter q l).
Proof.
  intros Hpq x Hx. apply filter_In in Hx as [Hin Hp].
  apply filter_In. split; [assumption | now apply Hpq].
Qed.

Lemma filter_weaken_length {A : Type} (p q : A -> bool) (l : list A) :
  (forall x, p x = true -> q x = true) ->
  (length (filter p l) <= length (filter q l))%nat.
Proof.
  intros Hpq. induction l as [|x l IH]; simpl; [lia|].
  destruct (p x) eqn:Ep.
  - rewrite (Hpq x Ep). simpl. lia.
  - destruct (q x); simpl; lia.
Qed.

Lemma filter_incl_self {A : Type} (p : A -> bool) (l : list A) :
  incl (filter p l) l.
Proof. intros x Hx. now apply filter_In in Hx as [Hin _]. Qed.

Lemma filter_length_self {A : Type} (p : A -> bool) (l : list A) :
  (length (filter p l) <= length l)%nat.
Proof. induction l as [|x l IH]; simpl; [lia|]. destruct (p x); simpl; lia. Qed.

Lemma filter_andb {A : Type} (p q : A -> bool) (l : list A) :
  filter (fun x => q x && p x) l = filter p (filter q l).
Proof.
  induction l as [|x l IH]; cbn; [reflexivity|].
  destruct (q x); cbn; [destruct (p x)|]; now rewrite IH.
Qed.

(** Each cohort is the next one narrowed by the constraint that the step
    to it relaxes. *)
Lemma cohorts_narrowing (data : list Row) (c : Client) :
  cohort_products data c
    = filter (fun r => NumOfProducts r =? num_products_new c) (cohort_activity data c)
  /\ cohort_activity data c
    = filter (fun r => IsActiveMember r =? is_active_new c) (cohort_region data c)
  /\ cohort_region data c
    = filter (fun r => String.eqb (Geography r) (geo_new c)) data.
Proof.
  unfold cohort_products, cohort_activity, cohort_region. repeat split.
  - rewrite <- filter_andb. reflexivity.
  - rewrite <- filter_andb. reflexivity.
Qed.

Lemma cohorts_sizes (data : list Row) (c : Client) :
  (length (cohort_products data c) <= length (cohort_activity data c))%nat
  /\ (length (cohort_activity data c) <= length (cohort_region data c))%nat
  /\ (length (cohort_region data c) <= length data)%nat.
Proof.
  unfold cohort_products, cohort_activity, cohort_region. repeat split.
  - apply filter_weaken_length, match_products_activity.
  - apply filter_weaken_length, match_activity_geo.
  - apply filter_length_self.
Qed.

Lemma cohorts_sublists (data : list Row) (c : Client) :
  incl (cohort_products data c) (cohort_activity data c)
  /\ incl (cohort_activity data c) (cohort_region data c)
  /\ incl (cohort_region data c) data.
Proof.
  unfold cohort_products, cohort_activity, cohort_region. repeat split.
  - apply filter_weaken_incl, match_products_activity.
  - apply filter_weaken_incl, match_activity_geo.
  - apply filter_incl_self.
Qed.

(** The three overwrites compute the chain. *)
Lemma segment_chain (data : list Row) (c : Client) :
  segment data c = fallback_chain data c.
Proof.
  unfold segment, fallback_chain, too_small,
    cohort_products, cohort_activity, cohort_region.
  set (s1 := filter (match_geo_active_products c) data).
  set (s2 := filter (match_geo_active c) data).
  set (s3 := filter (match_geo c) data).
  cbv zeta. decide_tests; reflexivity.
Qed.

Lemma segment_level_all_iff (data : list Row) (c : Client) :
  snd (segment data c) = level_all <-> length (cohort_region data c) = 0%nat.
Proof.
  rewrite segment_chain.
  destruct (cohorts_sizes data c) as (H12 & H23 & _).
  unfold fallback_chain.
  set (s1 := cohort_products data c) in *.
  set (s2 := cohort_activity data c) in *.
  set (s3 := cohort_region data c) in *.
  decide_tests; close_chain_case.
Qed.

(** C1. The cohort and label left by the three successive [if]s are those
    of the ordered fallback chain: the region+activity+products cohort when
    it has at least 40 rows, else the region+activity cohort when that has
    at least 40, else the region cohort whenever it has at least one row
    (sizes 1 to 39 included), and the whole population only when the region
    cohort is empty; the label is the one of the step that gave the cohort. *)
Theorem segment_follows_fallback_chain (data : list Row) (c : Client) :
  segment data c = fallback_chain data c
  /\ (snd (segment data c) = level_all <-> length (cohort_region data c) = 0%nat)
  /\ ((length (cohort_products data c) < 40)%nat ->
      (length (cohort_activity data c) < 40)%nat ->
      (1 <= length (cohort_region data c))%nat ->
      segment data c = (cohort_region data c, level_region)).
Proof.
  split; [apply segment_chain|]. split; [apply segment_level_all_iff|].
  intros L1 L2 G3. rewrite segment_chain. unfold fallback_chain.
  set (s1 := cohort_products data c) in *.
  set (s2 := cohort_activity data c) in *.
  set (s3 := cohort_region data c) in *.
  decide_tests; reflexivity.
Qed.

(** The chain run on the sample population for a French active customer
    with one product: 5 rows at step 1, 50 at step 2. *)
Lemma segment_follows_fallback_chain_witness :
  snd (segment sample_population (sample_client "France" 1 1)) = level_activity
  /\ segment (repeat (sample_row 3 "Spain" 0 1 0 (Some 1)) 3) (sample_client "Spain" 1 1)
     = (repeat (sample_row 3 "Spain" 0 1 0 (Some 1)) 3, level_region).
Proof.
  split.
  - destruct (segment_follows_fallback_chain sample_population
                (sample_client "France" 1 1)) as [H _].
    rewrite H. vm_compute. reflexivity.
  - apply (segment_follows_fallback_chain
             (repeat (sample_row 3 "Spain" 0 1 0 (Some 1)) 3)
             (sample_client "Spain" 1 1)); vm_compute; lia.
Defined.

(** C5. Each cohort of the chain is contained in the next, coarser one
    (it is that cohort narrowed by the constraint the step relaxes), and
    the sizes do not decrease along region+activity+products,
    region+activity, region, whole population. *)
Theorem cohorts_grow_along_chain (data : list Row) (c : Client) :
  incl (cohort_products data c) (cohort_activity data c)
  /\ incl (cohort_activity data c) (cohort_region data c)
  /\ incl (cohort_region data c) data
  /\ (length (cohort_products data c) <= length (cohort_activity data c))%nat
  /\ (length (cohort_activity data c) <= length (cohort_region data c))%nat
  /\ (length (cohort_region data c) <= length data)%nat
  /\ cohort_products data c
      = filter (fun r => NumOfProducts r =? num_products_new c) (cohort_activity data c)
  /\ cohort_activity data c
      = filter (fun r => IsActiveMember r =? is_active_new c) (cohort_region data c).
Proof.
  destruct (cohorts_sublists data c) as (I12 & I23 & I3).
  destruct (cohorts_sizes data c) as (L12 & L23 & L3).
  destruct (cohorts_narrowing data c) as (N12 & N23 & _).
  auto 10.
Qed.

(** ** Comparisons on rationals *)

Lemma Qle_bool_false_lt (x y : Q) : negb (Qle_bool x y) = true <-> (y < x)%Q.
Proof.
  rewrite negb_true_iff. split.
  - intros H. apply Qnot_le_lt. intros Hle.
    apply Qle_bool_iff in Hle. congruence.
  - intros H. destruct (Qle_bool x y) eqn:E; [|reflexivity].
    apply Qle_bool_iff in E. exfalso. exact (Qlt_not_le _ _ H E).
Qed.

Lemma lt_nan_Some (v y : Q) : Pandas.lt_nan (Some v) y = true <-> (v < y)%Q.
Proof. apply Qle_bool_false_lt. Qed.

Lemma lt_nan_Some_false (v y : Q) : Pandas.lt_nan (Some v) y = false <-> (y <= v)%Q.
Proof.
  unfold Pandas.lt_nan. rewrite negb_false_iff. apply Qle_bool_iff.
Qed.

Lemma gt_nan_Some (x v : Q) : Pandas.gt_nan x (Some v) = true <-> (v < x)%Q.
Proof. apply Qle_bool_false_lt. Qed.

(** ** Risk label *)


Lemma evaluate_label (data : list Row) (c : Client) :
  a_risk_label (evaluate data c) = fst (risk_label (a_segment_churn (evaluate data c)))
  /\ a_segment_churn (evaluate data c) = segment_churn (fst (segment data c))
  /\ a_segment_level (evaluate data c) = snd (segment data c)
  /\ a_segment_size (evaluate data c) = length (fst (segment data c)).
Proof.
  unfold evaluate. destruct (segment data c) as [seg level]. cbn [fst snd].
  destruct (risk_label (segment_churn seg)) as [label color] eqn:E.
  cbn. rewrite E. auto.
Qed.



(** ** Churn rate *)

Lemma known_labels_length (seg : list Row) :
  length (known_labels seg) = length (known_rows seg).
Proof.
  unfold known_labels, known_rows, label_known.
  induction seg as [|r seg IH]; simpl; [reflexivity|].
  destruct (Exited r); simpl; congruence.
Qed.

Lemma known_labels_known_rows (seg : list Row) :
  known_labels (known_rows seg) = known_labels seg.
Proof.
  unfold known_labels, known_rows, label_known.
  induction seg as [|r seg IH]; simpl; [reflexivity|].
  destruct (Exited r) eqn:E; simpl; rewrite ?E; simpl; congruence.
Qed.

Lemma known_labels_app (s1 s2 : list Row) :
  known_labels (s1 ++ s2) = known_labels s1 ++ known_labels s2.
Proof.
  unfold known_labels.
  induction s1 as [|r s1 IH]; simpl; [reflexivity|].
  destruct (Exited r); simpl; congruence.
Qed.

Lemma Qsum_inject_Z (l : list Z) :
  (Pandas.Qsum (map inject_Z l) == inject_Z (Zsum l))%Q.
Proof.
  induction l as [|x l IH]; simpl; [reflexivity|].
  rewrite IH, inject_Z_plus. reflexivity.
Qed.

Lemma segment_churn_unfold (seg : list Row) :
  segment_churn seg = Pandas.mean (map inject_Z (known_labels seg)).
Proof. reflexivity. Qed.

(** C6. The churn rate of a cohort is the sum of the known labels divided
    by the number of rows whose label is known; a row with an unknown label
    changes neither, wherever it stands, and a cohort without a known label
    has no churn rate. *)
Theorem churn_rate_is_mean_of_known_labels (seg : list Row) :
  (known_rows seg = [] -> segment_churn seg = None)
  /\ (known_rows seg <> [] ->
      exists q, segment_churn seg = Some q
                /\ (q == inject_Z (Zsum (known_labels seg))
                         / inject_Z (Z.of_nat (length (known_rows seg))))%Q)
  /\ segment_churn seg = segment_churn (known_rows seg)
  /\ (forall s1 s2 r, seg = s1 ++ r :: s2 -> Exited r = None ->
        segment_churn seg = segment_churn (s1 ++ s2)).
Proof.
  repeat split.
  - intros H. rewrite segment_churn_unfold.
    pose proof (known_labels_length seg) as L. rewrite H in L.
    destruct (known_labels seg); [reflexivity | discriminate].
  - intros H. rewrite segment_churn_unfold.
    pose proof (known_labels_length seg) as L.
    destruct (known_labels seg) as [|z l] eqn:E.
    + destruct (known_rows seg); [congruence | discriminate].
    + eexists. split; [reflexivity|].
      rewrite length_map, L, Qsum_inject_Z. reflexivity.
  - rewrite !segment_churn_unfold, known_labels_known_rows. reflexivity.
  - intros s1 s2 r -> Hr.
    rewrite !segment_churn_unfold, !known_labels_app.
    unfold known_labels at 2. simpl. rewrite Hr. reflexivity.
Qed.

(** A cohort of four rows, one of them with an unknown label: the rate is
    2/3, not 2/4 and not 3/4. *)
Lemma churn_rate_is_mean_of_known_labels_witness :
  exists q,
    segment_churn [sample_row 1 "France" 1 1 0 (Some 1);
                   sample_row 2 "France" 1 1 0 None;
                   sample_row 3 "France" 1 1 0 (Some 0);
                   sample_row 4 "France" 1 1 0 (Some 1)] = Some q
    /\ (q == 2 # 3)%Q.
Proof.
  destruct (churn_rate_is_mean_of_known_labels
              [sample_row 1 "France" 1 1 0 (Some 1);
               sample_row 2 "France" 1 1 0 None;
               sample_row 3 "France" 1 1 0 (Some 0);
               sample_row 4 "France" 1 1 0 (Some 1)]) as (_ & H & _).
  destruct H as (q & Hq & Eq); [discriminate|].
  exists q. split; [exact Hq|]. rewrite Eq. reflexivity.
Defined.

(** ** Percentiles *)

Lemma Qsum_le_mask (s : list Q) (val : Q) :
  (Pandas.Qsum (map Pandas.bool_to_Q (Pandas.le_mask s val))
   == inject_Z (Z.of_nat (count_le s val)))%Q.
Proof.
  unfold Pandas.le_mask, count_le.
  induction s as [|x s IH]; simpl; [reflexivity|].
  destruct (Qle_bool x val); simpl.
  - rewrite IH, Zpos_P_of_succ_nat, <- Z.add_1_l, inject_Z_plus. reflexivity.
  - rewrite IH. apply Qplus_0_l.
Qed.

Lemma count_le_all (s : list Q) (val : Q) :
  (forall x, In x s -> (x <= val)%Q) -> count_le s val = length s.
Proof.
  unfold count_le. induction s as [|x s IH]; intros H; simpl; [reflexivity|].
  assert (Hx : Qle_bool x val = true) by (apply Qle_bool_iff, H; now left).
  rewrite Hx. simpl. f_equal. apply IH. intros y Hy. apply H. now right.
Qed.

Lemma count_le_none (s : list Q) (val : Q) :
  (forall x, In x s -> (val < x)%Q) -> count_le s val = 0%nat.
Proof.
  unfold count_le. induction s as [|x s IH]; intros H; simpl; [reflexivity|].
  assert (Hx : Qle_bool x val = false).
  { apply negb_true_iff, Qle_bool_false_lt, H. now left. }
  rewrite Hx. apply IH. intros y Hy. apply H. now right.
Qed.

Lemma count_le_app (s1 s2 : list Q) (val : Q) :
  count_le (s1 ++ s2) val = (count_le s1 val + count_le s2 val)%nat.
Proof. unfold count_le. now rewrite filter_app, length_app. Qed.

Lemma inject_nat_nonzero (n : nat) : n <> 0%nat -> ~ (inject_Z (Z.of_nat n) == 0)%Q.
Proof. intros Hn H. unfold Qeq in H. simpl in H. lia. Qed.

Lemma percentile_value (data : list Row) (col : Column) (val : Q) :
  data <> [] ->
  exists q, percentile data col val = Some q
            /\ (q == inject_Z (Z.of_nat (count_le (column col data) val))
                     / inject_Z (Z.of_nat (length data)))%Q.
Proof.
  intros Hne. unfold percentile, Pandas.mean_bool, Pandas.mean.
  destruct data as [|r data]; [congruence|].
  cbn [column map Pandas.le_mask].
  eexists. split; [reflexivity|].
  change (Pandas.bool_to_Q (Qle_bool (cell col r) val)
            :: map Pandas.bool_to_Q (map (fun x => Qle_bool x val) (map (cell col) data)))
    with (map Pandas.bool_to_Q (Pandas.le_mask (column col (r :: data)) val)).
  rewrite Qsum_le_mask. unfold Pandas.le_mask, column. rewrite !length_map.
  reflexivity.
Qed.

(** C4. Each of the seven rows of the percentile table holds, for its
    column, the number of rows of the whole population whose value is at
    most the customer's, divided by the number of rows; so a value that no
    row exceeds has percentile 1, and the value of a row that is strictly
    below every other row has percentile 1/size. *)
Theorem percentile_is_share_at_or_below (data : list Row) (c : Client) :
  data <> [] ->
  map pct (percentile_rows data c)
    = map (fun col => percentile data col (client_column col c)) seven_columns
  /\ (forall col val,
        exists q, percentile data col val = Some q
                  /\ (q == inject_Z (Z.of_nat (count_le (column col data) val))
                           / inject_Z (Z.of_nat (length data)))%Q)
  /\ (forall col val,
        (forall r, In r data -> (cell col r <= val)%Q) ->
        exists q, percentile data col val = Some q /\ (q == 1)%Q)
  /\ (forall col l1 r l2,
        data = l1 ++ r :: l2 ->
        (forall r', In r' (l1 ++ l2) -> (cell col r < cell col r')%Q) ->
        exists q, percentile data col (cell col r) = Some q
                  /\ (q == 1 / inject_Z (Z.of_nat (length data)))%Q).
Proof.
  intros Hne. split; [reflexivity|]. split; [|split].
  - intros col val. now apply percentile_value.
  - intros col val Hmax.
    destruct (percentile_value data col val Hne) as (q & Hq & Eq).
    exists q. split; [exact Hq|]. rewrite Eq.
    rewrite count_le_all.
    + unfold column. rewrite length_map. unfold Qdiv.
      apply Qmult_inv_r, inject_nat_nonzero.
      destruct data; [congruence | discriminate].
    + intros x Hx. unfold column in Hx. apply in_map_iff in Hx as (r & <- & Hr).
      now apply Hmax.
  - intros col l1 r l2 Hdata Hmin.
    destruct (percentile_value data col (cell col r) Hne) as (q & Hq & Eq).
    exists q. split; [exact Hq|]. rewrite Eq.
    assert (Hcount : count_le (column col data) (cell col r) = 1%nat).
    { rewrite Hdata. unfold column. rewrite map_app. cbn [map].
      rewrite count_le_app.
      change (cell col r :: map (cell col) l2)
        with ([cell col r] ++ map (cell col) l2).
      rewrite count_le_app.
      rewrite (count_le_none (map (cell col) l1)), (count_le_none (map (cell col) l2)).
      - unfold count_le. cbn [filter].
        assert (Hr : Qle_bool (cell col r) (cell col r) = true)
          by apply Qle_bool_iff, Qle_refl.
        rewrite Hr. reflexivity.
      - intros x Hx. apply in_map_iff in Hx as (r' & <- & Hr').
        apply Hmin, in_or_app. now right.
      - intros x Hx. apply in_map_iff in Hx as (r' & <- & Hr').
        apply Hmin, in_or_app. now left. }
    rewrite Hcount. reflexivity.
Qed.

(** Three rows with balances 0, 1000 and 2000: the customer with balance
    2000 is at percentile 1, the row with balance 0 at 1/3. *)
Lemma percentile_is_share_at_or_below_witness :
  (exists q, percentile [sample_row 1 "France" 1 1 0 None;
                         sample_row 2 "France" 1 1 1000 None;
                         sample_row 3 "Spain" 1 1 2000 None] ColBalance 2000 = Some q
             /\ (q == 1)%Q)
  /\ (exists q, percentile [sample_row 1 "France" 1 1 0 None;
                            sample_row 2 "France" 1 1 1000 None;
                            sample_row 3 "Spain" 1 1 2000 None] ColBalance 0 = Some q
                /\ (q == 1 # 3)%Q).
Proof.
  assert (Hne : [sample_row 1 "France" 1 1 0 None;
                 sample_row 2 "France" 1 1 1000 None;
                 sample_row 3 "Spain" 1 1 2000 None] <> []) by discriminate.
  destruct (percentile_is_share_at_or_below _ (sample_client "France" 1 1) Hne)
    as (_ & _ & Hmax & Hmin).
  split.
  - apply Hmax. intros r [<-|[<-|[<-|[]]]]; vm_compute; discriminate.
  - destruct (Hmin ColBalance [] (sample_row 1 "France" 1 1 0 None)
                [sample_row 2 "France" 1 1 1000 None;
                 sample_row 3 "Spain" 1 1 2000 None] eq_refl) as (q & Hq & Eq).
    + intros r' [<-|[<-|[]]]; vm_compute; reflexivity.
    + exists q. split; [exact Hq|]. rewrite Eq. reflexivity.
Defined.

(** ** Qualitative factors *)

(** The sort behind [median] orders the values and keeps them all. *)
Lemma insert_sorted_perm (x : Q) (s : list Q) :
  Permutation (x :: s) (Pandas.insert_sorted x s).
Proof.
  induction s as [|y s IH]; cbn; [reflexivity|].
  destruct (Qle_bool x y); [reflexivity|].
  rewrite perm_swap. now apply perm_skip.
Qed.

Lemma sort_values_perm (s : list Q) : Permutation s (Pandas.sort_values s).
Proof.
  induction s as [|x s IH]; cbn; [reflexivity|].
  rewrite <- insert_sorted_perm. now apply perm_skip.
Qed.

Lemma sort_values_length (s : list Q) : length (Pandas.sort_values s) = length s.
Proof. symmetry. apply Permutation_length, sort_values_perm. Qed.

Lemma insert_sorted_HdRel (y x : Q) (s : list Q) :
  (y <= x)%Q -> HdRel Qle y s -> HdRel Qle y (Pandas.insert_sorted x s).
Proof.
  intros Hyx Hs. destruct s as [|z s]; cbn; [now constructor|].
  destruct (Qle_bool x z); constructor; [assumption|].
  now inversion Hs.
Qed.

Lemma insert_sorted_Sorted (x : Q) (s : list Q) :
  Sorted Qle s -> Sorted Qle (Pandas.insert_sorted x s).
Proof.
  induction s as [|y s IH]; intros Hs; cbn.
  - repeat constructor.
  - inversion Hs as [|? ? Hs' Hhd]; subst.
    destruct (Qle_bool x y) eqn:E.
    + constructor; [assumption|]. constructor. now apply Qle_bool_iff.
    + constructor; [now apply IH|].
      apply insert_sorted_HdRel; [|assumption].
      apply Qlt_le_weak, Qle_bool_false_lt. now rewrite E.
Qed.

Lemma sort_values_Sorted (s : list Q) : Sorted Qle (Pandas.sort_values s).
Proof.
  induction s as [|x s IH]; cbn; [constructor|]. now apply insert_sorted_Sorted.
Qed.

Lemma filter_none {A : Type} (p : A -> bool) (l : list A) :
  (forall x, In x l -> p x = false) -> filter p l = [].
Proof.
  induction l as [|x l IH]; intros H; [reflexivity|].
  cbn. rewrite (H x (or_introl eq_refl)). apply IH. intros y Hy. apply H. now right.
Qed.

Lemma count_le_monotone (s : list Q) (v v' : Q) :
  (v <= v')%Q -> (count_le s v <= count_le s v')%nat.
Proof.
  intros Hv. unfold count_le. apply filter_weaken_length.
  intros x Hx. apply Qle_bool_iff in Hx. apply Qle_bool_iff.
  now apply Qle_trans with v.
Qed.

Lemma count_le_perm (s t : list Q) (v : Q) :
  Permutation s t -> count_le s v = count_le t v.
Proof.
  unfold count_le. induction 1 as [|x s t _ IH|x y s|s t u _ IH1 _ IH2]; cbn.
  - reflexivity.
  - destruct (Qle_bool x v); cbn; congruence.
  - destruct (Qle_bool x v), (Qle_bool y v); reflexivity.
  - congruence.
Qed.

Lemma sorted_nth_le (t : list Q) :
  StronglySorted Qle t ->
  forall i j, (i <= j < length t)%nat -> (nth i t 0%Q <= nth j t 0%Q)%Q.
Proof.
  induction 1 as [|x t Hs IH Hall]; intros i j Hij; [cbn in Hij; lia|].
  destruct j as [|j].
  - assert (i = 0%nat) by lia. subst i. apply Qle_refl.
  - destruct i as [|i]; cbn [nth].
    + rewrite Forall_forall in Hall. apply Hall, nth_In. cbn in Hij. lia.
    + apply IH. cbn in Hij. lia.
Qed.

Lemma sorted_prefix_count (t : list Q) :
  StronglySorted Qle t ->
  forall i, (i < length t)%nat -> (S i <= count_le t (nth i t 0%Q))%nat.
Proof.
  induction 1 as [|x t Hs IH Hall]; intros i Hi; [cbn in Hi; lia|].
  unfold count_le in *. destruct i as [|i]; cbn [nth filter].
  - assert (Hx : Qle_bool x x = true) by apply Qle_bool_iff, Qle_refl.
    rewrite Hx. cbn. lia.
  - assert (Hx : Qle_bool x (nth i t 0%Q) = true).
    { apply Qle_bool_iff. rewrite Forall_forall in Hall.
      apply Hall, nth_In. cbn in Hi. lia. }
    rewrite Hx. cbn [length]. apply le_n_S, IH. cbn in Hi. lia.
Qed.

Lemma sort_values_StronglySorted (s : list Q) : StronglySorted Qle (Pandas.sort_values s).
Proof.
  apply Sorted_StronglySorted; [|apply sort_values_Sorted].
  intros x y z. apply Qle_trans.
Qed.

(** The median of a non-empty column is defined. *)
Lemma median_defined (s : list Q) : s <> [] -> exists m, Pandas.median s = Some m.
Proof.
  intros Hs. unfold Pandas.median. rewrite sort_values_length.
  destruct s as [|x s]; [congruence|]. cbn [length].
  destruct (Nat.odd (S (length s))); eauto.
Qed.

Example median_odd : Pandas.median [3; 1; 2]%Q = Some 2%Q.
Proof. reflexivity. Qed.

Example median_even :
  exists m, Pandas.median [4; 1; 3; 2]%Q = Some m /\ (m == 5 # 2)%Q.
Proof. eexists. split; [reflexivity | vm_compute; reflexivity]. Qed.

Example median_empty : Pandas.median [] = None.
Proof. reflexivity. Qed.

(** The sum of the doubles 0.1 and 0.2 is rounded up, to
    0.30000000000000004, so that their median is 0.15000000000000002. *)
Example median_rounded :
  Pandas.median [double_0_2; double_0_1] = Some double_0_15.
Proof. vm_compute. reflexivity. Qed.

(** *** The median by ranks *)

Lemma count_lt_perm (s t : list Q) (v : Q) :
  Permutation s t -> count_lt s v = count_lt t v.
Proof.
  unfold count_lt. induction 1 as [|x s t _ IH|x y s|s t u _ IH1 _ IH2]; cbn.
  - reflexivity.
  - destruct (Qle_bool v x); cbn; congruence.
  - destruct (Qle_bool v x), (Qle_bool v y); reflexivity.
  - congruence.
Qed.

Lemma sorted_count_lt (t : list Q) :
  StronglySorted Qle t ->
  forall i, (i < length t)%nat -> (count_lt t (nth i t 0%Q) <= i)%nat.
Proof.
  induction 1 as [|x t Hs IH Hall]; intros i Hi; [cbn in Hi; lia|].
  unfold count_lt in *. destruct i as [|i]; cbn [nth filter].
  - assert (Hx : Qle_bool x x = true) by apply Qle_bool_iff, Qle_refl.
    rewrite Hx. cbn [negb]. rewrite filter_none; [cbn; lia|].
    intros y Hy. rewrite Forall_forall in Hall.
    apply negb_false_iff, Qle_bool_iff, Hall, Hy.
  - assert (Hi' : (i < length t)%nat) by (cbn in Hi; lia).
    specialize (IH i Hi').
    destruct (negb (Qle_bool (nth i t 0%Q) x)); cbn [length]; lia.
Qed.

(** The value at position [k] of the sorted series has rank [k]. *)
Lemma rank_nth (s : list Q) (k : nat) :
  (k < length s)%nat -> rank_is s k (nth k (Pandas.sort_values s) 0%Q).
Proof.
  intros Hk.
  pose proof (sort_values_StronglySorted s) as Hs.
  pose proof (sort_values_length s) as Hlen.
  pose proof (sort_values_perm s) as Hperm.
  set (t := Pandas.sort_values s) in *.
  assert (Hk' : (k < length t)%nat) by lia.
  split.
  - apply (Permutation_in _ (Permutation_sym Hperm)). now apply nth_In.
  - rewrite (count_lt_perm s t _ Hperm), (count_le_perm s t _ Hperm).
    pose proof (sorted_count_lt t Hs k Hk').
    pose proof (sorted_prefix_count t Hs k Hk'). lia.
Qed.

Lemma count_le_below (s : list Q) (v v' : Q) :
  (v < v')%Q -> (count_le s v <= count_lt s v')%nat.
Proof.
  intros Hv. unfold count_le, count_lt. apply filter_weaken_length.
  intros x Hx. apply Qle_bool_iff in Hx.
  apply Qle_bool_false_lt. eapply Qle_lt_trans; eassumption.
Qed.

(** Two values of the same rank are equal. *)
Lemma rank_unique (s : list Q) (k : nat) (v v' : Q) :
  rank_is s k v -> rank_is s k v' -> (v == v')%Q.
Proof.
  intros (_ & Hv) (_ & Hv').
  destruct (Q_dec v v') as [[Hlt|Hgt]|Heq]; [exfalso | exfalso | exact Heq].
  - pose proof (count_le_below s _ _ Hlt). lia.
  - pose proof (count_le_below s _ _ Hgt). lia.
Qed.

(** *** The mean of the two middle values *)

Lemma round_double_proper (x y : Q) :
  (x == y)%Q -> Pandas.round_double x = Pandas.round_double y.
Proof.
  intros H. unfold Pandas.round_double. now rewrite (Qred_complete x y H).
Qed.

Lemma mean_of_two_proper (a a' b b' : Q) :
  (a == a')%Q -> (b == b')%Q ->
  (Pandas.mean_of_two a b == Pandas.mean_of_two a' b')%Q.
Proof.
  intros Ha Hb. unfold Pandas.mean_of_two.
  rewrite (round_double_proper (a + b) (a' + b')) by (now rewrite Ha, Hb).
  set (m := Pandas.round_double (Pandas.round_double (a' + b') / 2)).
  assert (E1 : Qle_bool m a = Qle_bool m a') by (now rewrite Ha).
  assert (E2 : Qle_bool b m = Qle_bool b' m) by (now rewrite Hb).
  rewrite E1, E2.
  destruct (Qle_bool m a'); [exact Ha|].
  destruct (Qle_bool b' m); [exact Hb | reflexivity].
Qed.

(** The mean of the two middle values lies between them. *)
Lemma mean_of_two_between (a b : Q) :
  (a <= b)%Q -> (a <= Pandas.mean_of_two a b <= b)%Q.
Proof.
  intros Hab. unfold Pandas.mean_of_two.
  set (m := Pandas.round_double (Pandas.round_double (a + b) / 2)).
  destruct (Qle_bool m a) eqn:E1.
  - split; [apply Qle_refl | exact Hab].
  - assert (Ham : (a < m)%Q) by (apply Qle_bool_false_lt; now rewrite E1).
    destruct (Qle_bool b m) eqn:E2.
    + split; [exact Hab | apply Qle_refl].
    + assert (Hmb : (m < b)%Q) by (apply Qle_bool_false_lt; now rewrite E2).
      split; apply Qlt_le_weak; assumption.
Qed.

(** *** Doubles

    Rounding keeps the order and twice a double is a double, so that the
    mean of two doubles lies between them. *)

Section Doubles.

Local Open Scope Q_scope.

Lemma two_nonzero : ~ 2 == 0.
Proof. intros H. discriminate H. Qed.

Lemma pow2_pos (e : Z) : 0 < 2 ^ e.
Proof. apply Qpower_0_lt. reflexivity. Qed.

Lemma pow2_le (a b : Z) : (a <= b)%Z -> 2 ^ a <= 2 ^ b.
Proof. intros H. apply Qpower_le_compat_l; [exact H | discriminate]. Qed.

Lemma pow2_succ (e : Z) : 2 ^ (e + 1) == 2 * 2 ^ e.
Proof. rewrite Qpower_plus by exact two_nonzero. rewrite Qpower_1_r. ring. Qed.

Lemma pow2_Z (k : Z) : (0 <= k)%Z -> 2 ^ k == inject_Z (2 ^ k).
Proof. intros H. rewrite Zpower_Qpower by exact H. reflexivity. Qed.

(** [binade] is the binary exponent. *)
Lemma binade_spec (n d : positive) :
  2 ^ Pandas.binade n d <= Zpos n # d /\ Zpos n # d < 2 ^ (Pandas.binade n d + 1).
Proof.
  unfold Pandas.binade.
  set (a := Z.log2 (Zpos n)). set (b := Z.log2 (Zpos d)).
  assert (Ha : (2 ^ a <= Zpos n < 2 ^ (a + 1))%Z).
  { pose proof (Z.log2_spec (Zpos n) eq_refl) as H. fold a in H.
    rewrite <- Z.add_1_r in H. exact H. }
  assert (Hb : (2 ^ b <= Zpos d < 2 ^ (b + 1))%Z).
  { pose proof (Z.log2_spec (Zpos d) eq_refl) as H. fold b in H.
    rewrite <- Z.add_1_r in H. exact H. }
  assert (Ha0 : (0 <= a)%Z) by apply Z.log2_nonneg.
  assert (Hb0 : (0 <= b)%Z) by apply Z.log2_nonneg.
  assert (Hd : 0 < inject_Z (Zpos d)) by reflexivity.
  assert (Hx : Zpos n # d == inject_Z (Zpos n) / inject_Z (Zpos d)) by apply Qmake_Qdiv.
  (* the quotient lies strictly between 2^(a-b-1) and 2^(a-b+1) *)
  assert (Hup : Zpos n # d < 2 ^ (a - b + 1)).
  { rewrite Hx. apply Qlt_shift_div_r; [exact Hd|].
    apply Qlt_le_trans with (inject_Z (2 ^ (a + 1))).
    - rewrite <- Zlt_Qlt. lia.
    - rewrite <- pow2_Z by lia.
      replace (a + 1)%Z with ((a - b + 1) + b)%Z by lia.
      rewrite Qpower_plus by exact two_nonzero.
      apply Qmult_le_l; [apply pow2_pos|].
      rewrite pow2_Z by lia. rewrite <- Zle_Qle. lia. }
  assert (Hlow : 2 ^ (a - b - 1) <= Zpos n # d).
  { rewrite Hx. apply Qle_shift_div_l; [exact Hd|].
    apply Qle_trans with (inject_Z (2 ^ a)).
    - rewrite <- pow2_Z by lia.
      replace a with ((a - b - 1) + (b + 1))%Z at 2 by lia.
      rewrite Qpower_plus by exact two_nonzero.
      apply Qmult_le_l; [apply pow2_pos|].
      rewrite pow2_Z by lia. rewrite <- Zle_Qle. lia.
    - rewrite <- Zle_Qle. lia. }
  destruct (Qle_bool (2 ^ (a - b)) (Zpos n # d)) eqn:E.
  - apply Qle_bool_iff in E. split; assumption.
  - split; [exact Hlow|].
    replace (a - b - 1 + 1)%Z with (a - b)%Z by lia.
    apply Qle_bool_false_lt. now rewrite E.
Qed.

Lemma binade_unique (x : Q) (e e' : Z) :
  2 ^ e <= x < 2 ^ (e + 1) -> 2 ^ e' <= x < 2 ^ (e' + 1) -> e = e'.
Proof.
  intros [H1 H2] [H1' H2'].
  destruct (Z.lt_trichotomy e e') as [H|[H|H]]; [exfalso | exact H | exfalso].
  - assert (2 ^ (e + 1) <= 2 ^ e') by (apply pow2_le; lia). lra.
  - assert (2 ^ (e' + 1) <= 2 ^ e) by (apply pow2_le; lia). lra.
Qed.

Lemma binade_le (n d n' d' : positive) :
  Zpos n # d <= Zpos n' # d' -> (Pandas.binade n d <= Pandas.binade n' d')%Z.
Proof.
  intros Hxy.
  destruct (binade_spec n d) as [H1 _], (binade_spec n' d') as [_ H2].
  destruct (Z.le_gt_cases (Pandas.binade n d) (Pandas.binade n' d')) as [H|H]; [exact H|].
  exfalso.
  assert (2 ^ (Pandas.binade n' d' + 1) <= 2 ^ Pandas.binade n d) by (apply pow2_le; lia).
  lra.
Qed.

(** Rounding to the nearest integer. *)
Lemma round_half_even_comp (x y : Q) :
  x == y -> Pandas.round_half_even x = Pandas.round_half_even y.
Proof.
  intros H. unfold Pandas.round_half_even.
  rewrite (Qfloor_comp x y H).
  assert (E : (x - inject_Z (Qfloor y) ?= 1 # 2) = (y - inject_Z (Qfloor y) ?= 1 # 2))
    by (now rewrite H).
  now rewrite E.
Qed.

Lemma round_half_even_Z (k : Z) : Pandas.round_half_even (inject_Z k) = k.
Proof.
  unfold Pandas.round_half_even. rewrite Qfloor_Z.
  assert (E : (inject_Z k - inject_Z k ?= 1 # 2) = Lt).
  { apply Qlt_alt. setoid_replace (inject_Z k - inject_Z k) with 0 by ring. reflexivity. }
  now rewrite E.
Qed.

Lemma round_half_even_le (x y : Q) :
  x <= y -> (Pandas.round_half_even x <= Pandas.round_half_even y)%Z.
Proof.
  intros Hxy. unfold Pandas.round_half_even.
  pose proof (Qfloor_resp_le x y Hxy) as Hf.
  pose proof (Qfloor_le x) as Hx1. pose proof (Qlt_floor x) as Hx2.
  pose proof (Qfloor_le y) as Hy1. pose proof (Qlt_floor y) as Hy2.
  rewrite inject_Z_plus in Hx2, Hy2.
  destruct (Z.eq_dec (Qfloor x) (Qfloor y)) as [E|E].
  - rewrite E in *.
    destruct (Qcompare_spec (x - inject_Z (Qfloor y)) (1 # 2)) as [Cx|Cx|Cx];
      destruct (Qcompare_spec (y - inject_Z (Qfloor y)) (1 # 2)) as [Cy|Cy|Cy];
      try destruct (Z.even (Qfloor y)); try lia; exfalso; lra.
  - assert (Hlt : (Qfloor x + 1 <= Qfloor y)%Z) by lia.
    destruct (Qcompare_spec (x - inject_Z (Qfloor x)) (1 # 2)) as [Cx|Cx|Cx];
      destruct (Qcompare_spec (y - inject_Z (Qfloor y)) (1 # 2)) as [Cy|Cy|Cy];
      try destruct (Z.even (Qfloor x)); try destruct (Z.even (Qfloor y)); lia.
Qed.


Lemma Qdiv_le_r (x y u : Q) : 0 < u -> x <= y -> x / u <= y / u.
Proof.
  intros Hu Hxy. apply Qle_shift_div_l; [exact Hu|].
  unfold Qdiv. rewrite <- Qmult_assoc, (Qmult_comm (/ u)), Qmult_inv_r, Qmult_1_r;
    [exact Hxy | lra].
Qed.

Lemma round_positive_value (n d : positive) :
  Pandas.round_positive n d
  == inject_Z (Pandas.round_half_even ((Zpos n # d) / Pandas.ulp n d)) * Pandas.ulp n d.
Proof. unfold Pandas.round_positive. apply Qred_correct. Qed.

Lemma ulp_pos (n d : positive) : 0 < Pandas.ulp n d.
Proof. apply pow2_pos. Qed.

Lemma pow2_split (e k : Z) : (0 <= k)%Z -> 2 ^ e == inject_Z (2 ^ k) * 2 ^ (e - k).
Proof.
  intros Hk. rewrite <- pow2_Z by exact Hk.
  rewrite <- Qpower_plus by exact two_nonzero.
  now replace (k + (e - k))%Z with e by lia.
Qed.

Lemma round_positive_nonneg (n d : positive) : 0 <= Pandas.round_positive n d.
Proof.
  rewrite round_positive_value.
  apply Qmult_le_0_compat; [|apply Qlt_le_weak, ulp_pos].
  change 0 with (inject_Z 0). rewrite <- Zle_Qle.
  rewrite <- (round_half_even_Z 0). apply round_half_even_le.
  apply Qle_shift_div_l; [apply ulp_pos|]. rewrite Qmult_0_l. discriminate.
Qed.

(** Rounding keeps the order. *)
Lemma round_positive_le (n d n' d' : positive) :
  Zpos n # d <= Zpos n' # d' -> Pandas.round_positive n d <= Pandas.round_positive n' d'.
Proof.
  intros Hxy. rewrite !round_positive_value.
  pose proof (binade_le n d n' d' Hxy) as Hb.
  destruct (binade_spec n d) as [Hb1 Hb2], (binade_spec n' d') as [Hb1' Hb2'].
  unfold Pandas.ulp.
  set (b := Pandas.binade n d) in *. set (b' := Pandas.binade n' d') in *.
  set (e := Z.max b (-1022)). set (e' := Z.max b' (-1022)).
  assert (He : (e <= e')%Z) by lia.
  destruct (Z.eq_dec e e') as [Heq|Hne].
  - rewrite <- Heq.
    apply Qmult_le_compat_r; [|apply Qlt_le_weak, pow2_pos].
    rewrite <- Zle_Qle. apply round_half_even_le.
    apply Qdiv_le_r; [apply pow2_pos | exact Hxy].
  - assert (Hb' : b' = e') by lia.
    assert (Hp53 : 2 ^ (e + 1) == inject_Z (2 ^ 53) * 2 ^ (e - 52)).
    { rewrite (pow2_split (e + 1) 53) by lia.
      now replace (e + 1 - 53)%Z with (e - 52)%Z by lia. }
    assert (Hp52 : 2 ^ e' == inject_Z (2 ^ 52) * 2 ^ (e' - 52))
      by (apply pow2_split; lia).
    apply Qle_trans with (2 ^ (e + 1)).
    + rewrite Hp53.
      apply Qmult_le_compat_r; [|apply Qlt_le_weak, pow2_pos].
      rewrite <- Zle_Qle.
      rewrite <- (round_half_even_Z (2 ^ 53)). apply round_half_even_le.
      apply Qle_shift_div_r; [apply pow2_pos|].
      rewrite <- Hp53.
      assert (2 ^ (b + 1) <= 2 ^ (e + 1)) by (apply pow2_le; lia). lra.
    + apply Qle_trans with (2 ^ e'); [apply pow2_le; lia|].
      rewrite Hp52 at 1.
      apply Qmult_le_compat_r; [|apply Qlt_le_weak, pow2_pos].
      rewrite <- Zle_Qle.
      rewrite <- (round_half_even_Z (2 ^ 52)). apply round_half_even_le.
      apply Qle_shift_div_l; [apply pow2_pos|].
      rewrite <- Hp52. rewrite <- Hb'. exact Hb1'.
Qed.


(** The three cases of [round_double]. *)
Lemma round_double_cases (x : Q) :
  (x == 0 /\ Pandas.round_double x = 0)
  \/ (exists n d, x == Zpos n # d /\ Pandas.round_double x = Pandas.round_positive n d)
  \/ (exists n d, x == - (Zpos n # d)
                  /\ Pandas.round_double x = - Pandas.round_positive n d).
Proof.
  unfold Pandas.round_double. pose proof (Qred_correct x) as Hx.
  destruct (Qred x) as [[|n|n] d]; cbn [Qnum Qden].
  - left. split; [|reflexivity]. rewrite <- Hx. reflexivity.
  - right. left. exists n, d. split; [|reflexivity]. now rewrite <- Hx.
  - right. right. exists n, d. split; [|reflexivity]. rewrite <- Hx. reflexivity.
Qed.

Lemma positive_fraction (n d : positive) : 0 < Zpos n # d.
Proof. reflexivity. Qed.

Lemma round_double_le (x y : Q) :
  x <= y -> Pandas.round_double x <= Pandas.round_double y.
Proof.
  intros Hxy.
  destruct (round_double_cases x) as [[Hx ->]|[(n & d & Hx & ->)|(n & d & Hx & ->)]];
    destruct (round_double_cases y) as [[Hy ->]|[(n' & d' & Hy & ->)|(n' & d' & Hy & ->)]];
    pose proof (positive_fraction n d) as Hp || idtac;
    pose proof (positive_fraction n' d') as Hp' || idtac;
    pose proof (round_positive_nonneg n d) as Hr || idtac;
    pose proof (round_positive_nonneg n' d') as Hr' || idtac;
    try lra.
  - apply round_positive_le. now rewrite <- Hx, <- Hy.
  - assert (Hle : Zpos n' # d' <= Zpos n # d) by lra.
    pose proof (round_positive_le _ _ _ _ Hle). lra.
Qed.

Lemma round_double_opp (x : Q) : Pandas.round_double (- x) == - Pandas.round_double x.
Proof.
  unfold Pandas.round_double. rewrite Qred_opp.
  destruct (Qred x) as [[|n|n] d]; cbn [Qnum Qden Qopp Z.opp]; try reflexivity.
  now rewrite Qopp_involutive.
Qed.

Lemma is_double_opp (x : Q) : Pandas.is_double x -> Pandas.is_double (- x).
Proof. unfold Pandas.is_double. intros H. now rewrite round_double_opp, H. Qed.

(** Twice a double is a double. *)
Lemma round_positive_twice (n d n2 d2 : positive) :
  Zpos n2 # d2 == 2 * (Zpos n # d) ->
  Pandas.round_positive n d == Zpos n # d ->
  Pandas.round_positive n2 d2 == Zpos n2 # d2.
Proof.
  intros H2 Hd. rewrite round_positive_value in *.
  destruct (binade_spec n d) as [Hb1 Hb2], (binade_spec n2 d2) as [Hc1 Hc2].
  assert (Hb : Pandas.binade n2 d2 = (Pandas.binade n d + 1)%Z).
  { apply (binade_unique (Zpos n2 # d2)); [split; assumption|].
    rewrite H2. replace (Pandas.binade n d + 1 + 1)%Z with ((Pandas.binade n d + 1) + 1)%Z by lia.
    rewrite (pow2_succ (Pandas.binade n d + 1)), (pow2_succ (Pandas.binade n d)) in *.
    lra. }
  unfold Pandas.ulp in *. rewrite Hb.
  set (b := Pandas.binade n d) in *.
  set (x := Zpos n # d) in *. set (x2 := Zpos n2 # d2) in *.
  destruct (Z.le_gt_cases (-1022) b) as [Hn|Hs].
  - (* normal: the spacing doubles *)
    replace (Z.max (b + 1) (-1022) - 52)%Z with ((Z.max b (-1022) - 52) + 1)%Z by lia.
    set (u := 2 ^ (Z.max b (-1022) - 52)) in *.
    set (u2 := 2 ^ (Z.max b (-1022) - 52 + 1)).
    assert (Hu : 0 < u) by apply pow2_pos.
    assert (Hu2 : u2 == 2 * u) by apply pow2_succ.
    assert (E : x2 / u2 == x / u).
    { rewrite Hu2, H2. field. lra. }
    rewrite (round_half_even_comp _ _ E).
    set (k := Pandas.round_half_even (x / u)) in *.
    rewrite Hu2, H2, <- Hd. ring.
  - (* subnormal: the spacing stays, the multiple doubles *)
    replace (Z.max (b + 1) (-1022))%Z with (Z.max b (-1022)) by lia.
    set (u := 2 ^ (Z.max b (-1022) - 52)) in *.
    assert (Hu : 0 < u) by apply pow2_pos.
    set (k := Pandas.round_half_even (x / u)) in *.
    assert (E : x2 / u == inject_Z (2 * k)).
    { rewrite H2, <- Hd, inject_Z_mult. field. lra. }
    rewrite (round_half_even_comp _ _ E), round_half_even_Z.
    rewrite H2, <- Hd, inject_Z_mult. ring.
Qed.

Lemma is_double_twice (a : Q) : Pandas.is_double a -> Pandas.is_double (2 * a).
Proof.
  assert (Hpos : forall x, 0 < x -> Pandas.is_double x -> Pandas.is_double (2 * x)).
  { unfold Pandas.is_double. intros x Hx Hd.
    destruct (round_double_cases x) as [[H0 _]|[(n & d & Hn & E)|(n & d & Hn & _)]].
    - lra.
    - destruct (round_double_cases (2 * x))
        as [[H0 _]|[(n2 & d2 & Hn2 & E2)|(n2 & d2 & Hn2 & _)]].
      + lra.
      + rewrite E2, Hn2. apply (round_positive_twice n d).
        * now rewrite <- Hn2, <- Hn.
        * now rewrite <- Hn, <- E.
      + pose proof (positive_fraction n2 d2). lra.
    - pose proof (positive_fraction n d). lra. }
  intros Hd. destruct (Q_dec a 0) as [[Hlt|Hgt]|Heq].
  - assert (H : Pandas.is_double (2 * - a)).
    { apply Hpos; [lra | now apply is_double_opp]. }
    apply is_double_opp in H. unfold Pandas.is_double in *.
    assert (E : - (2 * - a) == 2 * a) by ring.
    now rewrite (round_double_proper _ _ E), E in H.
  - now apply Hpos.
  - unfold Pandas.is_double in *.
    assert (E : 2 * a == a) by lra.
    now rewrite (round_double_proper _ _ E), Hd.
Qed.

(** On doubles the tests of [mean_of_two] are idle: the mean NumPy takes
    lies between the two values. *)
Lemma mean_of_two_doubles (a b : Q) :
  Pandas.is_double a -> Pandas.is_double b -> a <= b ->
  Pandas.mean_of_two a b == Pandas.round_double (Pandas.round_double (a + b) / 2)
  /\ a <= Pandas.round_double (Pandas.round_double (a + b) / 2) <= b.
Proof.
  intros Ha Hb Hab.
  assert (Hbetween : a <= Pandas.round_double (Pandas.round_double (a + b) / 2) <= b).
  { pose proof (is_double_twice a Ha) as Ha2. pose proof (is_double_twice b Hb) as Hb2.
    unfold Pandas.is_double in *.
    assert (H1 : Pandas.round_double (2 * a) <= Pandas.round_double (a + b))
      by (apply round_double_le; lra).
    assert (H2 : Pandas.round_double (a + b) <= Pandas.round_double (2 * b))
      by (apply round_double_le; lra).
    assert (H3 : Pandas.round_double a
                 <= Pandas.round_double (Pandas.round_double (a + b) / 2)).
    { apply round_double_le. apply Qle_shift_div_l; [reflexivity | lra]. }
    assert (H4 : Pandas.round_double (Pandas.round_double (a + b) / 2)
                 <= Pandas.round_double b).
    { apply round_double_le. apply Qle_shift_div_r; [reflexivity | lra]. }
    lra. }
  split; [|exact Hbetween].
  unfold Pandas.mean_of_two.
  set (m := Pandas.round_double (Pandas.round_double (a + b) / 2)) in *.
  destruct (Qle_bool m a) eqn:E1.
  - apply Qle_bool_iff in E1. lra.
  - destruct (Qle_bool b m) eqn:E2; [|reflexivity].
    apply Qle_bool_iff in E2. lra.
Qed.

Example doubles_0_1_and_0_2 :
  Pandas.is_double double_0_1 /\ Pandas.is_double double_0_2
  /\ ~ Pandas.is_double (1 # 10).
Proof. repeat split; vm_compute; congruence. Qed.

End Doubles.

(** The two middle positions of a series of even length. *)
Lemma middle_even (n : nat) :
  Nat.odd n = false -> n <> 0%nat -> ((n - 1) / 2 = n / 2 - 1)%nat.
Proof.
  intros Hodd Hn.
  assert (Heven : Nat.even n = true) by (rewrite <- Nat.negb_odd, Hodd; reflexivity).
  apply Nat.even_spec in Heven as [h Hh].
  assert (Hdiv : (n / 2 = h)%nat).
  { rewrite Hh, Nat.mul_comm. apply Nat.div_mul. lia. }
  rewrite Hdiv.
  replace (n - 1)%nat with (1 + (h - 1) * 2)%nat by lia.
  rewrite Nat.div_add by lia. reflexivity.
Qed.

Lemma middle_odd (n : nat) : Nat.odd n = true -> ((n - 1) / 2 = n / 2)%nat.
Proof.
  intros Hodd. apply Nat.odd_spec in Hodd as [h Hh]. subst n.
  replace (2 * h + 1 - 1)%nat with (h * 2)%nat by lia.
  rewrite Nat.div_mul by lia.
  replace (2 * h + 1)%nat with (1 + h * 2)%nat by lia.
  rewrite Nat.div_add by lia. reflexivity.
Qed.

(** [Series.median] returns the median in double precision, which is
    unique. *)
Lemma median_double_median (s : list Q) :
  s <> [] -> exists m, Pandas.median s = Some m /\ double_median s m.
Proof.
  intros Hne. unfold Pandas.median, double_median. rewrite sort_values_length.
  assert (Hpos : (0 < length s)%nat) by (destruct s; [congruence | cbn; lia]).
  destruct (length s) as [|n'] eqn:En; [lia|]. rewrite <- En in *.
  assert (Hhi : (length s / 2 < length s)%nat) by (apply Nat.div_lt; lia).
  destruct (Nat.odd (length s)) eqn:Eodd.
  - eexists. split; [reflexivity|].
    exists (nth (length s / 2) (Pandas.sort_values s) 0%Q),
           (nth (length s / 2) (Pandas.sort_values s) 0%Q).
    rewrite (middle_odd _ Eodd).
    repeat split; try (apply rank_nth; exact Hhi); reflexivity.
  - eexists. split; [reflexivity|].
    exists (nth (length s / 2 - 1) (Pandas.sort_values s) 0%Q),
           (nth (length s / 2) (Pandas.sort_values s) 0%Q).
    rewrite (middle_even _ Eodd) by lia.
    split; [apply rank_nth; lia|]. split; [apply rank_nth; exact Hhi|].
    reflexivity.
Qed.

Lemma double_median_unique (s : list Q) (m m' : Q) :
  double_median s m -> double_median s m' -> (m == m')%Q.
Proof.
  intros (lo & hi & Hlo & Hhi & Hm) (lo' & hi' & Hlo' & Hhi' & Hm').
  pose proof (rank_unique _ _ _ _ Hlo Hlo') as Elo.
  pose proof (rank_unique _ _ _ _ Hhi Hhi') as Ehi.
  rewrite Hm, Hm'. destruct (Nat.odd (length s)); [exact Ehi|].
  now apply mean_of_two_proper.
Qed.

Lemma no_median_of_nothing (m : Q) : ~ double_median [] m.
Proof. intros (lo & hi & (Hin & _) & _). destruct Hin. Qed.

Lemma appliesb_spec (data : list Row) (c : Client) (k : Check) :
  appliesb data c k = true <-> applies data c k.
Proof.
  destruct k; cbn [appliesb applies applies_given].
  - apply String.eqb_eq.
  - apply Z.eqb_eq.
  - rewrite Z.leb_le. lia.
  - apply Qle_bool_false_lt.
  - rewrite Z.leb_le. lia.
  - apply Qle_bool_false_lt.
  - apply Qle_bool_false_lt.
  - destruct data as [|r0 data'].
    + cbn. split; [discriminate|].
      intros (m & Hm & _). now apply no_median_of_nothing in Hm.
    + set (data := r0 :: data').
      destruct (median_double_median (map Balance data)) as (m0 & E & Hm0);
        [discriminate|].
      rewrite E, gt_nan_Some. split.
      * intros H. exists m0. auto.
      * intros (m & Hm & H).
        now rewrite (double_median_unique _ _ _ Hm0 Hm).
Qed.

Lemma check_text_injective (k1 k2 : Check) :
  check_text k1 = check_text k2 -> k1 = k2.
Proof. destruct k1, k2; intros H; try reflexivity; discriminate H. Qed.

Lemma check_text_not_placeholder (k : Check) : check_text k <> factor_none.
Proof. destruct k; discriminate. Qed.

(** C7, as the specification words it, fails where the rounding of the
    median shows.  With balances 0.1 and 0.2 the median of the reals is
    0.15, below the 0.15000000000000002 of the profile, so the eighth check
    applies; [Series.median] returns 0.15000000000000002 itself, the
    comparison is false and the list is the placeholder.  Likewise, with
    balances 0.09999999999999999 and 0.1 the customer with 0.1 is above the
    median of the reals, but [Series.median] returns 0.1 and the factor is
    not listed. *)
Lemma median_rounding_hides_high_balance :
  (applies_exactly rounding_population rounding_client HighBalance
   /\ Pandas.median (map Balance rounding_population)
      = Some (balance_new rounding_client)
   /\ factors rounding_population rounding_client = [factor_none])
  /\ (row_by_id adjacent_population (Some 2) = Ok adjacent_row
      /\ applies_exactly adjacent_population (client_of_row adjacent_row) HighBalance
      /\ Pandas.median (map Balance adjacent_population) = Some (Balance adjacent_row)
      /\ ~ In factor_balance (factors adjacent_population (client_of_row adjacent_row))).
Proof.
  split; [split; [|split; vm_compute; reflexivity]
         | split; [reflexivity | split; [|split; [vm_compute; reflexivity|]]]].
  - exists ((double_0_1 + double_0_2) / 2)%Q. split.
    + exists double_0_1, double_0_2.
      split; [|split; [|reflexivity]].
      * split; [now left | vm_compute; lia].
      * split; [right; now left | vm_compute; lia].
    + vm_compute. reflexivity.
  - exists ((double_below_0_1 + double_0_1) / 2)%Q. split.
    + exists double_below_0_1, double_0_1.
      split; [|split; [|reflexivity]].
      * split; [now left | vm_compute; lia].
      * split; [right; now left | vm_compute; lia].
    + vm_compute. reflexivity.
  - vm_compute. intuition discriminate.
Qed.

(** C7, amended.  The factor list built by the eight guarded appends is the
    list of the applicable checks in the listed order (Germany, inactive,
    three or more products, credit score under 600, age 40 or more,
    satisfaction under 3, complaints, balance above the population median
    taken in double precision), each check applying exactly under its
    stated condition; when none applies the list is the single placeholder
    entry.  The median is the value of middle rank, or for an even number
    of rows the sum of the two values of middle rank, rounded to a double
    and halved. *)
Theorem factors_are_applicable_checks (data : list Row) (c : Client) :
  factors data c = factor_list_spec data c
  /\ (forall k, appliesb data c k = true <-> applies data c k)
  /\ (forall k, In (check_text k) (factors data c) <-> applies data c k)
  /\ (In factor_none (factors data c) <-> forall k, ~ applies data c k).
Proof.
  assert (Heq : factors data c = factor_list_spec data c).
  { unfold factors, factor_list_spec, all_checks, append_if.
    cbn [filter appliesb].
    destruct (String.eqb (geo_new c) "Germany");
      destruct (is_active_new c =? 0);
      destruct (3 <=? num_products_new c);
      destruct (negb (Qle_bool 600 (credit_new c)));
      destruct (40 <=? age_new c);
      destruct (negb (Qle_bool 3 (satisfaction_new c)));
      destruct (negb (Qle_bool (complain_new c) 0));
      destruct (Pandas.gt_nan (balance_new c) (Pandas.median (map Balance data)));
      reflexivity. }
  assert (Hall : forall k, In k all_checks) by (intros []; cbn; tauto).
  split; [exact Heq|]. split; [apply appliesb_spec|].
  rewrite Heq. unfold factor_list_spec.
  destruct (filter (appliesb data c) all_checks) as [|k0 ks] eqn:E.
  - split.
    + intros k. rewrite <- appliesb_spec. split.
      * intros [H|[]]. symmetry in H. now apply check_text_not_placeholder in H.
      * intros H. assert (Hin : In k (filter (appliesb data c) all_checks))
          by (apply filter_In; auto).
        rewrite E in Hin. destruct Hin.
    + split; [|intros _; now left].
      intros _ k Hk. apply appliesb_spec in Hk.
      assert (Hin : In k (filter (appliesb data c) all_checks))
        by (apply filter_In; auto).
      rewrite E in Hin. destruct Hin.
  - rewrite <- E. split.
    + intros k. rewrite <- appliesb_spec. split.
      * intros H. apply in_map_iff in H as (k' & Ht & Hin).
        apply check_text_injective in Ht. subst k'.
        now apply filter_In in Hin.
      * intros H. apply in_map. apply filter_In. auto.
    + split.
      * intros H. apply in_map_iff in H as (k' & Ht & _).
        now apply check_text_not_placeholder in Ht.
      * intros H. exfalso. apply (H k0). apply appliesb_spec.
        assert (Hin : In k0 (filter (appliesb data c) all_checks))
          by (rewrite E; now left).
        now apply filter_In in Hin.
Qed.

(** An inactive German customer aged 35 with one product, against a
    population whose median balance is below the customer's 1000. *)
Example factors_sample :
  factors [sample_row 1 "France" 1 1 0 None; sample_row 2 "France" 1 1 500 None]
          (sample_client "Germany" 0 1)
  = [factor_germany; factor_inactive; factor_balance].
Proof. reflexivity. Qed.

Example factors_placeholder :
  factors sample_population (sample_client "France" 1 1) = [factor_none].
Proof. vm_compute. reflexivity. Qed.

(** ** Running the script blocks *)

Lemma with_screen_nil (w : World) : with_screen w [] = w.
Proof. destruct w. unfold with_screen. cbn. now rewrite app_nil_r. Qed.

Lemma with_screen_app (w : World) (o1 o2 : list Output) :
  with_screen (with_screen w o1) o2 = with_screen w (o1 ++ o2).
Proof. unfold with_screen. cbn. now rewrite app_assoc. Qed.

Lemma emit_run (o : Output) (w : World) :
  Script.emit o w = (Ok tt, with_screen w [o]).
Proof. reflexivity. Qed.

Lemma for_each_emit_run {A : Type} (f : A -> Output) (l : list A) (w : World) :
  Script.for_each (fun x => Script.emit (f x)) l w = (Ok tt, with_screen w (map f l)).
Proof.
  revert w. induction l as [|x l IH]; intros w.
  - cbn. now rewrite with_screen_nil.
  - cbn [Script.for_each map]. unfold Script.bind. rewrite emit_run, IH.
    now rewrite with_screen_app.
Qed.

(** The analysis block always runs to its end, and only adds to the page. *)
Lemma show_analysis_run (c : Client) (w : World) :
  show_analysis c w = (Ok tt, with_screen w (printed (evaluate (rows (w_data w)) c))).
Proof.
  unfold show_analysis, Script.bind, Script.read_data.
  rewrite emit_run. rewrite emit_run.
  change (w_data (with_screen (with_screen w _) _)) with (w_data w).
  rewrite for_each_emit_run, emit_run.
  rewrite !with_screen_app. reflexivity.
Qed.

Lemma save_client_run (c : Client) (w : World) :
  save_client c w =
  match new_id (w_data w) with
  | Ok id =>
      (Ok tt, {| w_data := w_data w;
                 w_csv := concat_row (w_data w) (client_row c id);
                 w_screen := w_screen w ++ [SavedNotice id] |})
  | Raise e => (Raise e, w)
  end.
Proof.
  unfold save_client, Script.bind, Script.read_data, Script.lift.
  destruct (new_id (w_data w)); reflexivity.
Qed.

(** ** The analysis changes no object *)

Lemma bind_ok {A B : Type} (p : Heap.t A) (k : A -> Heap.t B) (m m1 : Mem) (a : A) :
  p m = (Ok a, m1) -> Heap.bind p k m = k a m1.
Proof. intros H. unfold Heap.bind. now rewrite H. Qed.

Lemma bind_raise {A B : Type} (p : Heap.t A) (k : A -> Heap.t B) (m m1 : Mem) (e : Exn) :
  p m = (Raise e, m1) -> Heap.bind p k m = (Raise e, m1).
Proof. intros H. unfold Heap.bind. now rewrite H. Qed.

Lemma lookup_old (m : Mem) (fresh : list Obj) (r : Ref) (o : Obj) :
  nth_error (m_objects m) r = Some o ->
  nth_error (m_objects (add_objects m fresh)) r = Some o.
Proof.
  intros H. cbn. rewrite nth_error_app1; [exact H|].
  apply nth_error_Some. congruence.
Qed.

Lemma lookup_new (m : Mem) (o : Obj) :
  nth_error (m_objects (add_objects m [o])) (length (m_objects m)) = Some o.
Proof. cbn. rewrite nth_error_app2 by lia. now rewrite Nat.sub_diag. Qed.

Lemma replace_nth_last (l : list Obj) (o o' : Obj) :
  replace_nth (l ++ [o]) (length l) o' = l ++ [o'].
Proof. induction l as [|x l IH]; cbn; [reflexivity | now rewrite IH]. Qed.

Lemma store_last (m : Mem) (o o' : Obj) :
  Heap.store (length (m_objects m)) o' (add_objects m [o]) = (Ok tt, add_objects m [o']).
Proof.
  unfold Heap.store. rewrite lookup_new.
  unfold add_objects. cbn. now rewrite replace_nth_last.
Qed.

Lemma frame_run (r : Ref) (df : DataFrame) (m : Mem) :
  nth_error (m_objects m) r = Some (Frame df) -> frame r m = (Ok df, m).
Proof. intros H. unfold frame, Heap.bind, Heap.load. now rewrite H. Qed.

Lemma getitem_mask_run (r : Ref) (mask : Row -> bool) (df : DataFrame) (m : Mem) :
  nth_error (m_objects m) r = Some (Frame df) ->
  getitem_mask r mask m
  = (Ok (length (m_objects m)),
     add_objects m [Frame {| has_CustomerId := has_CustomerId df;
                             rows := filter mask (rows df) |}]).
Proof. intros H. unfold getitem_mask. now rewrite (bind_ok _ _ _ _ _ (frame_run _ _ _ H)). Qed.

Lemma len_run (r : Ref) (df : DataFrame) (m : Mem) :
  nth_error (m_objects m) r = Some (Frame df) -> len r m = (Ok (length (rows df)), m).
Proof. intros H. unfold len. now rewrite (bind_ok _ _ _ _ _ (frame_run _ _ _ H)). Qed.

Lemma mean_Exited_run (r : Ref) (df : DataFrame) (m : Mem) :
  nth_error (m_objects m) r = Some (Frame df) ->
  mean_Exited r m = (Ok (segment_churn (rows df)), m).
Proof. intros H. unfold mean_Exited. now rewrite (bind_ok _ _ _ _ _ (frame_run _ _ _ H)). Qed.

Lemma median_Balance_run (r : Ref) (df : DataFrame) (m : Mem) :
  nth_error (m_objects m) r = Some (Frame df) ->
  median_Balance r m = (Ok (Pandas.median (map Balance (rows df))), m).
Proof. intros H. unfold median_Balance. now rewrite (bind_ok _ _ _ _ _ (frame_run _ _ _ H)). Qed.

Lemma mean_le_run (r : Ref) (col : Column) (val : Q) (df : DataFrame) (m : Mem) :
  nth_error (m_objects m) r = Some (Frame df) ->
  mean_le r col val m = (Ok (percentile (rows df) col val), m).
Proof. intros H. unfold mean_le. now rewrite (bind_ok _ _ _ _ _ (frame_run _ _ _ H)). Qed.

Lemma strings_run (r : Ref) (l : list string) (m : Mem) :
  nth_error (m_objects m) r = Some (Strings l) -> strings r m = (Ok l, m).
Proof. intros H. unfold strings, Heap.bind, Heap.load. now rewrite H. Qed.

Lemma dicts_run (r : Ref) (l : list PercentileRow) (m : Mem) :
  nth_error (m_objects m) r = Some (Dicts l) -> dicts r m = (Ok l, m).
Proof. intros H. unfold dicts, Heap.bind, Heap.load. now rewrite H. Qed.

Lemma table_run (r : Ref) (l : list PercentileRow) (m : Mem) :
  nth_error (m_objects m) r = Some (Table l) -> table r m = (Ok l, m).
Proof. intros H. unfold table, Heap.bind, Heap.load. now rewrite H. Qed.

(** An append to the list allocated last. *)
Lemma append_string_last (m : Mem) (l : list string) (x : string) :
  append_string (length (m_objects m)) x (add_objects m [Strings l])
  = (Ok tt, add_objects m [Strings (l ++ [x])]).
Proof.
  unfold append_string.
  rewrite (bind_ok _ _ _ _ _ (strings_run _ _ _ (lookup_new m (Strings l)))).
  apply store_last.
Qed.

Lemma when_append_last (m : Mem) (l : list string) (cond : bool) (x : string) :
  Heap.when cond (append_string (length (m_objects m)) x) (add_objects m [Strings l])
  = (Ok tt, add_objects m [Strings (append_if cond x l)]).
Proof. destruct cond; [apply append_string_last | reflexivity]. Qed.

Lemma append_dict_last (m : Mem) (l : list PercentileRow) (d : PercentileRow) :
  append_dict (length (m_objects m)) d (add_objects m [Dicts l])
  = (Ok tt, add_objects m [Dicts (l ++ [d])]).
Proof.
  unfold append_dict.
  rewrite (bind_ok _ _ _ _ _ (dicts_run _ _ _ (lookup_new m (Dicts l)))).
  apply store_last.
Qed.

Lemma for_each_emit (f : string -> Output) (l : list string) (m : Mem) :
  Heap.for_each (fun x => Heap.emit (f x)) l m = (Ok tt, add_screen m (map f l)).
Proof.
  revert m. induction l as [|x l IH]; intros m; cbn [Heap.for_each map].
  - unfold Heap.ret, add_screen. destruct m. cbn. now rewrite app_nil_r.
  - rewrite (bind_ok _ _ m (add_screen m [f x]) tt eq_refl), IH.
    unfold add_screen. cbn. now rewrite <- app_assoc.
Qed.

(** The guarded appends build the list [factors] in a new object. *)
Lemma build_factors_run (data : Ref) (df : DataFrame) (c : Client) (m : Mem) :
  nth_error (m_objects m) data = Some (Frame df) ->
  build_factors data c m
  = (Ok (length (m_objects m)), add_objects m [Strings (factors (rows df) c)]).
Proof.
  intros Hd. unfold build_factors.
  rewrite (bind_ok _ _ m (add_objects m [Strings []]) (length (m_objects m)) eq_refl).
  do 7 (erewrite bind_ok by apply when_append_last).
  erewrite bind_ok by (apply median_Balance_run, lookup_old, Hd).
  erewrite bind_ok by apply when_append_last.
  erewrite bind_ok by (apply strings_run, lookup_new).
  erewrite bind_ok by apply when_append_last.
  reflexivity.
Qed.

(** The loop builds the list [rows] in a new object. *)
Lemma build_rows_loop (data : Ref) (df : DataFrame) (m : Mem)
    (inputs : list (Column * Q * string)) (acc : list PercentileRow) :
  nth_error (m_objects m) data = Some (Frame df) ->
  Heap.for_each
    (fun '(col, val, label) =>
       pct <~ mean_le data col val ;;
       append_dict (length (m_objects m))
                   {| indicator := label; client_value := val; pct := pct |})
    inputs (add_objects m [Dicts acc])
  = (Ok tt,
     add_objects m
       [Dicts (acc ++ map (fun '(col, val, label) =>
                             {| indicator := label; client_value := val;
                                pct := percentile (rows df) col val |}) inputs)]).
Proof.
  intros Hd. revert acc. induction inputs as [|[[col val] label] inputs IH]; intros acc.
  - cbn. now rewrite app_nil_r.
  - cbn [Heap.for_each map].
    erewrite bind_ok.
    2:{ erewrite bind_ok by (apply mean_le_run, lookup_old, Hd).
        apply append_dict_last. }
    rewrite IH. now rewrite <- app_assoc.
Qed.

Lemma build_rows_run (data : Ref) (df : DataFrame) (c : Client) (m : Mem) :
  nth_error (m_objects m) data = Some (Frame df) ->
  build_rows data c m
  = (Ok (length (m_objects m)), add_objects m [Dicts (percentile_rows (rows df) c)]).
Proof.
  intros Hd. unfold build_rows.
  rewrite (bind_ok _ _ m (add_objects m [Dicts []]) (length (m_objects m)) eq_refl).
  erewrite bind_ok by (apply build_rows_loop, Hd).
  reflexivity.
Qed.

Lemma add_objects_app (m : Mem) (f1 f2 : list Obj) :
  add_objects (add_objects m f1) f2 = add_objects m (f1 ++ f2).
Proof. unfold add_objects. cbn. now rewrite <- app_assoc. Qed.

(** The cohort selection allocates one to three frames and returns a
    reference to the selected cohort, which is [data] itself at the last
    level. *)
Lemma select_segment_run (data : Ref) (df : DataFrame) (c : Client) (m : Mem) :
  nth_error (m_objects m) data = Some (Frame df) ->
  exists m1 seg sdf,
    select_segment data c m = (Ok (seg, snd (segment (rows df) c)), m1)
    /\ (exists fresh, m1 = add_objects m fresh)
    /\ nth_error (m_objects m1) seg = Some (Frame sdf)
    /\ rows sdf = fst (segment (rows df) c).
Proof.
  intros Hd. unfold select_segment, segment, too_small. cbv zeta. cbn [fst snd].
  set (s1 := filter (match_geo_active_products c) (rows df)).
  set (s2 := filter (match_geo_active c) (rows df)).
  set (s3 := filter (match_geo c) (rows df)).
  erewrite bind_ok by (apply getitem_mask_run, Hd). fold s1.
  set (f1 := {| has_CustomerId := has_CustomerId df; rows := s1 |}).
  erewrite bind_ok by (apply len_run, lookup_new). change (rows f1) with s1.
  destruct (length s1 <? 40)%nat.
  - erewrite bind_ok.
    2:{ erewrite bind_ok by (apply getitem_mask_run, lookup_old, Hd). reflexivity. }
    fold s2. set (f2 := {| has_CustomerId := has_CustomerId df; rows := s2 |}).
    cbn [fst snd].
    erewrite bind_ok by (apply len_run, lookup_new). change (rows f2) with s2.
    destruct (length s2 <? 40)%nat.
    + erewrite bind_ok.
      2:{ erewrite bind_ok by (apply getitem_mask_run, lookup_old, lookup_old, Hd).
          reflexivity. }
      fold s3. set (f3 := {| has_CustomerId := has_CustomerId df; rows := s3 |}).
      cbn [fst snd].
      erewrite bind_ok by (apply len_run, lookup_new). change (rows f3) with s3.
      eexists. destruct (length s3 =? 0)%nat; cbn [fst snd].
      * exists data, df. split; [reflexivity|]. split.
        { exists [Frame f1; Frame f2; Frame f3]. now rewrite !add_objects_app. }
        split; [|reflexivity]. apply lookup_old, lookup_old, lookup_old, Hd.
      * eexists. exists f3. split; [reflexivity|]. split.
        { exists [Frame f1; Frame f2; Frame f3]. now rewrite !add_objects_app. }
        split; [|reflexivity]. apply lookup_new.
    + erewrite bind_ok by reflexivity. cbn [fst snd].
      erewrite bind_ok by (apply len_run, lookup_new). change (rows f2) with s2.
      eexists. destruct (length s2 =? 0)%nat; cbn [fst snd].
      * exists data, df. split; [reflexivity|]. split.
        { exists [Frame f1; Frame f2]. now rewrite !add_objects_app. }
        split; [|reflexivity]. apply lookup_old, lookup_old, Hd.
      * eexists. exists f2. split; [reflexivity|]. split.
        { exists [Frame f1; Frame f2]. now rewrite !add_objects_app. }
        split; [|reflexivity]. apply lookup_new.
  - erewrite bind_ok by reflexivity. cbn [fst snd].
    erewrite bind_ok by (apply len_run, lookup_new). change (rows f1) with s1.
    destruct (length s1 <? 40)%nat.
    + erewrite bind_ok.
      2:{ erewrite bind_ok by (apply getitem_mask_run, lookup_old, Hd). reflexivity. }
      fold s3. set (f3 := {| has_CustomerId := has_CustomerId df; rows := s3 |}).
      cbn [fst snd].
      erewrite bind_ok by (apply len_run, lookup_new). change (rows f3) with s3.
      eexists. destruct (length s3 =? 0)%nat; cbn [fst snd].
      * exists data, df. split; [reflexivity|]. split.
        { exists [Frame f1; Frame f3]. now rewrite !add_objects_app. }
        split; [|reflexivity]. apply lookup_old, lookup_old, Hd.
      * eexists. exists f3. split; [reflexivity|]. split.
        { exists [Frame f1; Frame f3]. now rewrite !add_objects_app. }
        split; [|reflexivity]. apply lookup_new.
    + erewrite bind_ok by reflexivity. cbn [fst snd].
      erewrite bind_ok by (apply len_run, lookup_new). change (rows f1) with s1.
      eexists. destruct (length s1 =? 0)%nat; cbn [fst snd].
      * exists data, df. split; [reflexivity|]. split.
        { now exists [Frame f1]. }
        split; [|reflexivity]. apply lookup_old, Hd.
      * eexists. exists f1. split; [reflexivity|]. split.
        { now exists [Frame f1]. }
        split; [|reflexivity]. apply lookup_new.
Qed.

(** The analysis prints the assessment and adds objects to the store. *)
Lemma analysis_run (data : Ref) (df : DataFrame) (c : Client) (m : Mem) :
  nth_error (m_objects m) data = Some (Frame df) ->
  exists fresh,
    analysis data (base_churn (rows df)) c m
    = (Ok tt, add_screen (add_objects m fresh) (printed (evaluate (rows df) c))).
Proof.
  intros Hd.
  destruct (select_segment_run data df c m Hd)
    as (m1 & seg & sdf & Hrun & (fresh & ->) & Hseg & Hrows).
  unfold analysis. rewrite (bind_ok _ _ _ _ _ Hrun). cbn [fst snd].
  assert (Hd1 : nth_error (m_objects (add_objects m fresh)) data = Some (Frame df))
    by apply lookup_old, Hd.
  set (m1 := add_objects m fresh) in *.
  erewrite bind_ok by (apply mean_Exited_run, Hseg).
  erewrite bind_ok by (apply len_run, Hseg).
  erewrite bind_ok by reflexivity.
  erewrite bind_ok by reflexivity.
  set (m2 := add_screen (add_screen m1 _) _).
  erewrite bind_ok by (apply (build_factors_run data df c m2), Hd1).
  erewrite bind_ok by (apply strings_run, lookup_new).
  erewrite bind_ok by apply for_each_emit.
  set (m3 := add_screen (add_objects m2 _) _).
  assert (Hd3 : nth_error (m_objects m3) data = Some (Frame df)).
  { apply (lookup_old m2). exact Hd1. }
  erewrite bind_ok by (apply (build_rows_run data df c m3), Hd3).
  erewrite bind_ok by (apply dicts_run, lookup_new).
  erewrite bind_ok by reflexivity.
  erewrite bind_ok by (apply table_run, lookup_new).
  exists (fresh ++ [Strings (factors (rows df) c);
                    Dicts (percentile_rows (rows df) c);
                    Table (percentile_rows (rows df) c)]).
  unfold Heap.emit, evaluate, printed, m3, m2, m1.
  rewrite Hrows.
  destruct (segment (rows df) c) as [s level]. cbn [fst snd].
  destruct (risk_label (segment_churn s)) as [label color]. cbn [fst snd].
  unfold add_screen, add_objects. cbn.
  f_equal. f_equal; rewrite <- !app_assoc; reflexivity.
Qed.

Lemma analyse_run (data : Ref) (df : DataFrame) (c : Client) (m : Mem) :
  nth_error (m_objects m) data = Some (Frame df) ->
  exists fresh,
    analyse data c m
    = (Ok tt, add_screen (add_objects m fresh) (printed (evaluate (rows df) c))).
Proof.
  intros Hd. unfold analyse.
  rewrite (bind_ok _ _ _ _ _ (mean_Exited_run _ _ _ Hd)).
  now apply analysis_run.
Qed.

(** Without a frame under the name [data] the first statement raises. *)
Lemma analyse_raises (data : Ref) (c : Client) (m : Mem) :
  (forall df, nth_error (m_objects m) data <> Some (Frame df)) ->
  exists e, analyse data c m = (Raise e, m).
Proof.
  intros Hd. unfold analyse, mean_Exited, frame, Heap.load.
  unfold Heap.bind at 1 2 3.
  destruct (nth_error (m_objects m) data) as [[df| | | | |]|] eqn:E;
    try (eexists; reflexivity).
  now elim (Hd df).
Qed.

(** C9. The analysis changes no object that exists when it starts, the
    population first of all: every reference still leads to the same
    object, with every row and every field as before, whether the analysis
    ends or raises.  Its frames, the list of factors and the list of
    percentile rows are new objects; the file is not written.  On a
    population frame it does not raise and prints the assessment. *)
Theorem evaluation_leaves_population_unchanged (data : Ref) (c : Client) (m : Mem) :
  (forall r o, nth_error (m_objects m) r = Some o ->
               nth_error (m_objects (snd (analyse data c m))) r = Some o)
  /\ m_csv (snd (analyse data c m)) = m_csv m
  /\ (forall df, nth_error (m_objects m) data = Some (Frame df) ->
        fst (analyse data c m) = Ok tt
        /\ nth_error (m_objects (snd (analyse data c m))) data = Some (Frame df)
        /\ m_screen (snd (analyse data c m))
           = m_screen m ++ printed (evaluate (rows df) c)).
Proof.
  destruct (nth_error (m_objects m) data) as [o|] eqn:E.
  2:{ destruct (analyse_raises data c m) as (e & ->); [congruence|].
      cbn [fst snd]. repeat split; auto; intros; discriminate. }
  destruct o as [df| | | | |].
  2-6: destruct (analyse_raises data c m) as (e & ->); [congruence|];
       cbn [fst snd]; repeat split; auto; intros; discriminate.
  destruct (analyse_run data df c m E) as (fresh & ->). cbn [fst snd].
  split; [|split; [reflexivity|]].
  - intros r o Hr. now apply (lookup_old m fresh).
  - intros df' Hdf'. inversion Hdf'; subst df'.
    split; [reflexivity|]. split; [|reflexivity].
    apply (lookup_old m fresh), E.
Qed.

(** The status column of the histogram goes to a copy. *)
Lemma status_plot_run (filtered_data : Ref) (df : DataFrame) (m : Mem) :
  nth_error (m_objects m) filtered_data = Some (Frame df) ->
  status_plot filtered_data m
  = (Ok (length (m_objects m)),
     add_objects m [StatusFrame df (map status_of (map Exited (rows df)))]).
Proof.
  intros Hd. unfold status_plot, copy.
  erewrite bind_ok.
  2:{ erewrite bind_ok by (apply frame_run, Hd). reflexivity. }
  erewrite bind_ok by (apply frame_run, lookup_new).
  erewrite bind_ok.
  2:{ unfold setitem_Status.
      rewrite (bind_ok _ _ _ (add_objects m [Frame df]) (Frame df)).
      - apply store_last.
      - unfold Heap.load. now rewrite lookup_new. }
  reflexivity.
Qed.

(** The same assignment through the name of the population would change
    the population: the store does tell the two apart. *)
Example setitem_Status_is_in_place :
  forall (df : DataFrame) (values : list (option string)),
    snd (setitem_Status 0%nat values
           {| m_objects := [Frame df]; m_csv := df; m_screen := [] |})
    = {| m_objects := [StatusFrame df values]; m_csv := df; m_screen := [] |}.
Proof. reflexivity. Qed.

Example append_is_in_place :
  snd (append_string 0%nat "b" {| m_objects := [Strings ["a"]];
                                  m_csv := mkFrame true []; m_screen := [] |})
  = {| m_objects := [Strings ["a"; "b"]]; m_csv := mkFrame true []; m_screen := [] |}.
Proof. reflexivity. Qed.

(** *** The save *)

Lemma dict_run (r : Ref) (c : Client) (id : option Z) (exited : bool) (m : Mem) :
  nth_error (m_objects m) r = Some (Dict c id exited) ->
  dict r m = (Ok (c, id, exited), m).
Proof. intros H. unfold dict, Heap.bind, Heap.load. now rewrite H. Qed.

(** The save builds the row in a copy of the dict, the new table in a new
    frame, and writes the file. *)
Lemma save_run (data client : Ref) (df : DataFrame) (c : Client) (m : Mem) :
  nth_error (m_objects m) data = Some (Frame df) ->
  nth_error (m_objects m) client = Some (Dict c None false) ->
  save data client m
  = match new_id df with
    | Ok id =>
        (Ok tt,
         {| m_objects := m_objects m
                         ++ [Dict c (Some id) true;
                             Frame (concat_row df (client_row c id))];
            m_csv := concat_row df (client_row c id);
            m_screen := m_screen m ++ [SavedNotice id] |})
    | Raise e => (Raise e, m)
    end.
Proof.
  intros Hd Hc. unfold save.
  erewrite bind_ok by (apply frame_run, Hd).
  destruct (new_id df) as [id|e]; [|reflexivity].
  erewrite bind_ok by reflexivity.
  erewrite bind_ok.
  2:{ unfold dict_copy. erewrite bind_ok by (apply dict_run, Hc). reflexivity. }
  erewrite bind_ok.
  2:{ unfold setitem_CustomerId.
      erewrite bind_ok by (apply dict_run, lookup_new). apply store_last. }
  erewrite bind_ok.
  2:{ unfold setitem_Exited_None.
      erewrite bind_ok by (apply dict_run, lookup_new). apply store_last. }
  erewrite bind_ok.
  2:{ unfold concat_dict.
      erewrite bind_ok by (apply frame_run, lookup_old, Hd).
      erewrite bind_ok by (apply dict_run, lookup_new). reflexivity. }
  erewrite bind_ok.
  2:{ unfold to_csv. erewrite bind_ok by (apply frame_run, lookup_new). reflexivity. }
  unfold Heap.emit, add_screen, add_objects, row_of_dict. cbn.
  now rewrite <- app_assoc.
Qed.

(** The block of the form over the store does what the block over [World]
    does to the page and to the file, and changes no object that exists
    when it starts: the population and, with the save, the dict of the
    form, of which the save takes a copy. *)
Lemma new_client_refines (data : Ref) (df : DataFrame) (c : Client)
    (clicked save_clicked : bool) (m : Mem) :
  nth_error (m_objects m) data = Some (Frame df) ->
  exists fresh,
    m_objects (snd (new_client data c clicked save_clicked m)) = m_objects m ++ fresh
    /\ (clicked || save_clicked = true -> nth_error fresh 0 = Some (Dict c None false))
    /\ fst (new_client data c clicked save_clicked m)
       = fst (new_client_block c clicked save_clicked
                {| w_data := df; w_csv := m_csv m; w_screen := m_screen m |})
    /\ m_csv (snd (new_client data c clicked save_clicked m))
       = w_csv (snd (new_client_block c clicked save_clicked
                       {| w_data := df; w_csv := m_csv m; w_screen := m_screen m |}))
    /\ m_screen (snd (new_client data c clicked save_clicked m))
       = w_screen (snd (new_client_block c clicked save_clicked
                          {| w_data := df; w_csv := m_csv m; w_screen := m_screen m |})).
Proof.
  intros Hd. unfold new_client, new_client_block.
  destruct (clicked || save_clicked).
  2:{ exists []. cbn. rewrite app_nil_r. repeat split; auto. discriminate. }
  erewrite bind_ok by reflexivity.
  set (m0 := add_objects m [Dict c None false]).
  assert (Hd0 : nth_error (m_objects m0) data = Some (Frame df)) by apply lookup_old, Hd.
  destruct (analyse_run data df c m0 Hd0) as (fresh & Hrun).
  rewrite (bind_ok _ _ _ _ _ Hrun).
  set (m1 := add_screen (add_objects m0 fresh) _).
  assert (Hc1 : nth_error (m_objects m1) (length (m_objects m)) = Some (Dict c None false)).
  { apply (lookup_old m0), lookup_new. }
  erewrite bind_ok by (apply dict_run, Hc1).
  erewrite bind_ok by reflexivity. cbn [fst].
  unfold Script.bind. rewrite show_analysis_run, emit_run. cbn [w_data].
  destruct save_clicked.
  - rewrite save_client_run. cbn [w_data with_screen].
    erewrite save_run; [| apply (lookup_old m0), Hd0 | exact Hc1].
    destruct (new_id df) as [id|e]; cbn [fst snd m_objects m_csv m_screen w_csv w_screen].
    + eexists. unfold m1, m0, add_screen, add_objects. cbn.
      rewrite <- !app_assoc. cbn. repeat split; auto.
    + exists ([Dict c None false] ++ fresh). unfold m1, m0, add_screen, add_objects. cbn.
      rewrite <- !app_assoc. cbn. repeat split; auto.
  - exists ([Dict c None false] ++ fresh). unfold Heap.ret, m1, m0, add_screen, add_objects.
    cbn. rewrite <- !app_assoc. cbn. repeat split; auto.
Qed.

(** For a profile of a region that no row of the population has, the
    selected cohort is the population itself, under a second name: the
    three frames of the candidate cohorts are the new objects 1 to 3, and
    [segment] is reference 0, that of [data]. *)
Example segment_is_the_population_itself :
  fst (select_segment 0%nat (sample_client "Italy" 1 1)
         {| m_objects := [Frame (mkFrame true varied_population)];
            m_csv := mkFrame true varied_population; m_screen := [] |})
  = Ok (0%nat, level_all).
Proof. vm_compute. reflexivity. Qed.

Example analyse_varied_population :
  exists m',
    analyse 0%nat (sample_client "France" 1 1)
      {| m_objects := [Frame (mkFrame true varied_population)];
         m_csv := mkFrame true varied_population; m_screen := [] |} = (Ok tt, m')
    /\ length (m_objects m') = 6%nat
    /\ nth_error (m_objects m') 0 = Some (Frame (mkFrame true varied_population))
    /\ nth_error (m_objects m') 3 = Some (Strings [factor_none]).
Proof. eexists. split; [vm_compute; reflexivity|]. vm_compute. repeat split. Qed.

(** ** Saving a new customer *)

Lemma Zmax_list_bound (s : list Z) (m : Z) :
  Pandas.Zmax_list s = Some m -> forall i, In i s -> i <= m.
Proof.
  revert m. induction s as [|x s IH]; intros m Hm i Hi; [destruct Hi|].
  cbn in Hm. destruct (Pandas.Zmax_list s) as [m'|] eqn:E.
  - inversion Hm; subst. destruct Hi as [->|Hi]; [lia|].
    specialize (IH m' eq_refl i Hi). lia.
  - inversion Hm; subst. destruct Hi as [->|Hi]; [lia|].
    destruct s; [destruct Hi | cbn in E; destruct (Pandas.Zmax_list s); discriminate].
Qed.

Lemma Zmax_list_defined (s : list Z) :
  s <> [] -> exists m, Pandas.Zmax_list s = Some m.
Proof.
  destruct s as [|x s]; [congruence|]. intros _. cbn.
  destruct (Pandas.Zmax_list s); eauto.
Qed.

Lemma dropna_app {A : Type} (s1 s2 : list (option A)) :
  Pandas.dropna (s1 ++ s2) = Pandas.dropna s1 ++ Pandas.dropna s2.
Proof.
  induction s1 as [|[x|] s1 IH]; cbn; [reflexivity | now rewrite IH | exact IH].
Qed.

Lemma dropna_all_missing {A B : Type} (l : list B) :
  Pandas.dropna (map (fun _ => @None A) l) = [].
Proof. induction l; cbn; auto. Qed.

Lemma identifiers_without_column (df : DataFrame) :
  has_CustomerId df = false -> identifiers df = [].
Proof.
  intros H. unfold identifiers, id_cells. rewrite H. apply dropna_all_missing.
Qed.

Lemma Zmax_list_In (s : list Z) (m : Z) : Pandas.Zmax_list s = Some m -> In m s.
Proof.
  revert m. induction s as [|x s IH]; intros m H; [discriminate|].
  cbn in H. destruct (Pandas.Zmax_list s) as [m'|].
  - inversion H; subst. destruct (Z.max_spec x m') as [[_ ->]|[_ ->]]; [|now left].
    right. now apply IH.
  - inversion H; subst. now left.
Qed.

Lemma dropna_In {A : Type} (s : list (option A)) (v : A) :
  In v (Pandas.dropna s) <-> In (Some v) s.
Proof.
  induction s as [|[x|] s IH]; cbn; [tauto| |].
  - rewrite IH. split; intros [H|H]; auto; left; congruence.
  - rewrite IH. split; [auto|]. intros [H|H]; [discriminate | assumption].
Qed.

Lemma identifiers_In (df : DataFrame) (r : Row) (i : Z) :
  has_CustomerId df = true -> In r (rows df) -> CustomerId r = Some i ->
  In i (identifiers df).
Proof.
  intros Hcol Hr Hi. unfold identifiers, id_cells. rewrite Hcol.
  apply dropna_In. rewrite <- Hi. now apply in_map.
Qed.

Lemma Z_to_double_exact (z : Z) :
  - 2 ^ 53 <= z <= 2 ^ 53 -> Z_to_double z = z.
Proof.
  change (2 ^ 53) with 9007199254740992. intros H. unfold Z_to_double.
  change (2 ^ 53) with 9007199254740992.
  destruct (Z.ltb_spec (Z.abs z) 9007199254740992) as [_|Hbig]; [reflexivity|].
  assert (Hz : z = 9007199254740992 \/ z = - 9007199254740992) by lia.
  destruct Hz as [-> | ->]; vm_compute; reflexivity.
Qed.

(** The cast of an integer is the rounding of [Series.median], on integers:
    at ties both ways, on a negative number, and at the largest [int64]. *)
Example Z_to_double_is_round_double :
  Forall (fun z => inject_Z (Z_to_double z) = Pandas.round_double (inject_Z z))
         [9007199254740993; 9007199254740995; - 9007199254740995;
          18014398509481986; 18014398509481990; int64_max; 15634602].
Proof. repeat constructor. Qed.

Lemma set_id_same (r : Row) : set_id (CustomerId r) r = r.
Proof. destruct r. reflexivity. Qed.

Lemma astype_id_set_id (d : Dtype) (r : Row) : exists x, astype_id d r = set_id x r.
Proof.
  destruct d; cbn [astype_id]; eauto; exists (CustomerId r); now rewrite set_id_same.
Qed.

Lemma astype_id_exact (d : Dtype) (r : Row) :
  (forall i, CustomerId r = Some i -> - 2 ^ 53 <= i <= 2 ^ 53) ->
  astype_id d r = r.
Proof.
  intros H. destruct d; cbn [astype_id]; try reflexivity.
  destruct (CustomerId r) as [i|] eqn:E; cbn [option_map].
  - rewrite (Z_to_double_exact i (H i eq_refl)), <- E. apply set_id_same.
  - rewrite <- E. apply set_id_same.
Qed.

(** The rows [pd.concat] is given: the population, with an empty identifier
    cell where it had no such column, and the new row. *)
Lemma concat_row_exact (df : DataFrame) (r : Row) :
  small_identifiers df ->
  (forall i, CustomerId r = Some i -> - 2 ^ 53 <= i <= 2 ^ 53) ->
  rows (concat_row df r)
  = (if has_CustomerId df then rows df else map clear_id (rows df)) ++ [r].
Proof.
  intros Hsmall Hr. unfold concat_row. cbn [rows].
  set (d := common_dtype _ _). clearbody d.
  rewrite <- (map_id (_ ++ [r])) at 2. apply map_ext_in.
  intros x Hx. apply astype_id_exact. intros i Hi.
  apply in_app_or in Hx. destruct Hx as [Hx|[<-|[]]]; [|now apply Hr].
  destruct (has_CustomerId df) eqn:Hcol.
  - pose proof (Hsmall i (identifiers_In df x i Hcol Hx Hi)). lia.
  - apply in_map_iff in Hx. destruct Hx as (y & <- & _). discriminate.
Qed.

Lemma identifiers_of_parts (df : DataFrame) (r : Row) :
  Pandas.dropna
    (map CustomerId ((if has_CustomerId df then rows df else map clear_id (rows df)) ++ [r]))
  = identifiers df ++ Pandas.dropna [CustomerId r].
Proof.
  unfold identifiers, id_cells. rewrite map_app, dropna_app.
  destruct (has_CustomerId df); [reflexivity|].
  rewrite map_map. reflexivity.
Qed.

Lemma identifiers_concat_row (df : DataFrame) (c : Client) (id : Z) :
  small_identifiers df -> - 2 ^ 53 <= id <= 2 ^ 53 ->
  identifiers (concat_row df (client_row c id)) = identifiers df ++ [id].
Proof.
  intros Hsmall Hid. unfold identifiers at 1, id_cells.
  change (has_CustomerId (concat_row df (client_row c id))) with true. cbn iota.
  rewrite concat_row_exact; [apply identifiers_of_parts | exact Hsmall |].
  cbn [client_row CustomerId]. intros i Hi. inversion Hi; subst. exact Hid.
Qed.

Lemma new_id_above (df : DataFrame) (id : Z) :
  new_id df = Ok id -> forall i, In i (identifiers df) -> i < id.
Proof.
  unfold new_id. intros H i Hi.
  destruct (has_CustomerId df) eqn:Hcol.
  - unfold identifiers, id_cells in Hi. rewrite Hcol in Hi.
    unfold Pandas.max_skipna in H.
    destruct (Pandas.Zmax_list _) as [m|] eqn:E; [|discriminate].
    inversion H; subst.
    pose proof (Zmax_list_bound _ _ E i Hi). lia.
  - rewrite (identifiers_without_column df Hcol) in Hi. destruct Hi.
Qed.

Lemma new_id_small (df : DataFrame) (id : Z) :
  small_identifiers df -> new_id df = Ok id -> - 2 ^ 53 <= id <= 2 ^ 53.
Proof.
  change (2 ^ 53) with 9007199254740992.
  unfold small_identifiers. change (2 ^ 53) with 9007199254740992.
  unfold new_id. intros Hsmall H.
  destruct (has_CustomerId df) eqn:Hcol.
  - unfold Pandas.max_skipna in H.
    destruct (Pandas.Zmax_list _) as [m|] eqn:E; [|discriminate].
    inversion H; subst.
    assert (Hm : In m (identifiers df)).
    { unfold identifiers, id_cells. rewrite Hcol. now apply Zmax_list_In. }
    specialize (Hsmall m Hm). lia.
  - inversion H; subst. lia.
Qed.

Lemma client_of_client_row (c : Client) (id : Z) :
  client_of_row (client_row c id) = c.
Proof. destruct c. reflexivity. Qed.




(** ** A customer of the dataset *)

Lemma row_by_id_in (data : list Row) (selected : option Z) (row : Row) :
  row_by_id data selected = Ok row ->
  In row data /\ Pandas.eq_nan (CustomerId row) selected = true.
Proof.
  unfold row_by_id. intros H.
  destruct (filter _ data) as [|r l] eqn:E; [discriminate|].
  inversion H; subst r.
  assert (Hin : In row (filter (fun r => Pandas.eq_nan (CustomerId r) selected) data))
    by (rewrite E; now left).
  now apply filter_In in Hin.
Qed.

Lemma row_by_id_found (data : list Row) (id : Z) :
  In (Some id) (map CustomerId data) -> exists row, row_by_id data (Some id) = Ok row.
Proof.
  intros H. apply in_map_iff in H as (r & Hr & Hin).
  unfold row_by_id.
  destruct (filter _ data) as [|r' l] eqn:E; [|eauto].
  assert (Hf : In r (filter (fun r => Pandas.eq_nan (CustomerId r) (Some id)) data)).
  { apply filter_In. split; [exact Hin|]. rewrite Hr. cbn. apply Z.eqb_refl. }
  rewrite E in Hf. destruct Hf.
Qed.

Lemma row_matches_itself (row : Row) :
  match_geo_active_products (client_of_row row) row = true.
Proof.
  unfold match_geo_active_products, client_of_row. cbn.
  now rewrite String.eqb_refl, !Z.eqb_refl.
Qed.

(** C10. A customer read from the dataset by identifier lies in the
    region+activity+products cohort built from its own attributes, hence in
    every cohort of the chain; none of them is empty and the analysis never
    reaches the whole-population fallback.  An identifier that occurs in the
    dataset always selects a row. *)
Theorem existing_customer_in_own_cohort (data : list Row) (selected : option Z) :
  (forall id, selected = Some id -> In selected (map CustomerId data) ->
     exists row, row_by_id data selected = Ok row)
  /\ (forall row, row_by_id data selected = Ok row ->
      In row (cohort_products data (client_of_row row))
      /\ In row (cohort_activity data (client_of_row row))
      /\ In row (cohort_region data (client_of_row row))
      /\ In row data
      /\ In row (fst (segment data (client_of_row row)))
      /\ snd (segment data (client_of_row row)) <> level_all).
Proof.
  split.
  - intros id -> Hin. now apply row_by_id_found.
  - intros row Hrow. apply row_by_id_in in Hrow as [Hin _].
    set (c := client_of_row row).
    assert (H1 : In row (cohort_products data c)).
    { apply filter_In. split; [exact Hin | apply row_matches_itself]. }
    destruct (cohorts_sublists data c) as (I12 & I23 & _).
    assert (H2 : In row (cohort_activity data c)) by now apply I12.
    assert (H3 : In row (cohort_region data c)) by now apply I23.
    assert (Hlevel : snd (segment data c) <> level_all).
    { intros Hall. apply segment_level_all_iff in Hall.
      destruct (cohort_region data c); [destruct H3 | discriminate]. }
    repeat split; try assumption.
    rewrite segment_chain in *. unfold fallback_chain in *.
    destruct (40 <=? length (cohort_products data c))%nat; [exact H1|].
    destruct (40 <=? length (cohort_activity data c))%nat; [exact H2|].
    destruct (1 <=? length (cohort_region data c))%nat; [exact H3|].
    now contradiction Hlevel.
Qed.

(** The second of three rows, selected by its identifier. *)
Lemma existing_customer_in_own_cohort_witness :
  exists row,
    row_by_id [sample_row 7 "France" 1 1 0 (Some 0);
               sample_row 8 "Spain" 0 2 0 (Some 1);
               sample_row 9 "Spain" 0 1 0 None] (Some 8) = Ok row
    /\ snd (segment [sample_row 7 "France" 1 1 0 (Some 0);
                     sample_row 8 "Spain" 0 2 0 (Some 1);
                     sample_row 9 "Spain" 0 1 0 None] (client_of_row row)) = level_region.
Proof.
  destruct (existing_customer_in_own_cohort
              [sample_row 7 "France" 1 1 0 (Some 0);
               sample_row 8 "Spain" 0 2 0 (Some 1);
               sample_row 9 "Spain" 0 1 0 None] (Some 8)) as [Hfound _].
  destruct (Hfound 8 eq_refl) as (row & Hrow).
  - right. left. reflexivity.
  - exists row. split; [exact Hrow|].
    vm_compute in Hrow. inversion Hrow; subst row. reflexivity.
Defined.

(** * Properties of the rest of the code *)

(** ** [filter_data] *)

Lemma filter_twice {A : Type} (p : A -> bool) (l : list A) :
  filter p (filter p l) = filter p l.
Proof.
  rewrite <- filter_andb. apply filter_ext. intros x. now destruct (p x).
Qed.

Lemma isin_In (values : list string) (x : string) :
  isin values x = true <-> In x values.
Proof.
  unfold isin. rewrite existsb_exists. split.
  - intros (y & Hy & E). apply String.eqb_eq in E. now subst.
  - intros H. exists x. split; [assumption | apply String.eqb_refl].
Qed.

Section FilterData.

Variables (geography : list string) (gender : string).
Variables (age_range tenure_range : Z * Z).
Variables (is_active_filter exited_filter : string).

Lemma filter_data_passes (df : list Row) :
  filter_data df geography gender age_range tenure_range is_active_filter exited_filter
  = filter (passes geography gender age_range tenure_range
                   is_active_filter exited_filter) df.
Proof.
  unfold filter_data, passes. cbv zeta.
  destruct (truthy geography), (String.eqb gender all_label),
    (String.eqb is_active_filter all_label), (String.eqb exited_filter all_label);
    cbn [negb orb]; rewrite <- ?filter_andb; apply filter_ext; intros r;
    destruct (isin geography (Geography r)), (String.eqb (Gender r) gender),
      (between (fst age_range) (snd age_range) (Age r)),
      (between (fst tenure_range) (snd tenure_range) (Tenure r)),
      (IsActiveMember r =? (if String.eqb is_active_filter only_active then 1 else 0)),
      (Pandas.eq_nan (Exited r)
         (Some (if String.eqb exited_filter only_exited then 1 else 0)));
    reflexivity.
Qed.

Lemma eq_nan_Some (x : option Z) (v : Z) :
  Pandas.eq_nan x (Some v) = true <-> x = Some v.
Proof.
  destruct x as [a|]; cbn.
  - rewrite Z.eqb_eq. split; congruence.
  - split; discriminate.
Qed.

Lemma between_spec (lo hi x : Z) : between lo hi x = true <-> lo <= x <= hi.
Proof. unfold between. rewrite andb_true_iff, !Z.leb_le. tauto. Qed.

Lemma passes_kept (r : Row) :
  passes geography gender age_range tenure_range is_active_filter exited_filter r = true
  <-> kept geography gender age_range tenure_range is_active_filter exited_filter r.
Proof.
  unfold passes, kept.
  rewrite !andb_true_iff, !orb_true_iff, !between_spec, isin_In, eq_nan_Some,
    Z.eqb_eq, !String.eqb_eq.
  assert (Hg : negb (truthy geography) = true <-> geography = []).
  { destruct geography; cbn; split; congruence. }
  rewrite Hg. tauto.
Qed.

(** X1. [filter_data] keeps exactly the rows of the frame that pass every
    switched-on test (region in the list unless the list is empty, gender
    unless "Все", age and tenure within the inclusive ranges, activity and
    status unless "Все"), in the order of the frame. *)
Theorem filter_data_keeps_exactly (df : list Row) :
  (forall r,
     In r (filter_data df geography gender age_range tenure_range
                       is_active_filter exited_filter)
     <-> In r df
         /\ kept geography gender age_range tenure_range
                 is_active_filter exited_filter r)
  /\ filter_data df geography gender age_range tenure_range
                 is_active_filter exited_filter
     = filter (passes geography gender age_range tenure_range
                      is_active_filter exited_filter) df.
Proof.
  split; [|apply filter_data_passes].
  intros r. rewrite filter_data_passes, filter_In, passes_kept. tauto.
Qed.

(** X2. Filtering twice with the same selection changes nothing more. *)
Theorem filter_data_idempotent (df : list Row) :
  filter_data
    (filter_data df geography gender age_range tenure_range
                 is_active_filter exited_filter)
    geography gender age_range tenure_range is_active_filter exited_filter
  = filter_data df geography gender age_range tenure_range
                is_active_filter exited_filter.
Proof. rewrite !filter_data_passes. apply filter_twice. Qed.

(** X3. An empty region list switches the region test off: the result is
    the one obtained with any list that holds every region of the frame. *)
Theorem filter_data_empty_geography (df : list Row) (every : list string) :
  (forall r, In r df -> In (Geography r) every) ->
  filter_data df [] gender age_range tenure_range is_active_filter exited_filter
  = filter_data df every gender age_range tenure_range is_active_filter exited_filter.
Proof.
  intros Hall. unfold filter_data. cbv zeta. cbn [truthy].
  destruct (truthy every); [|reflexivity].
  replace (filter (fun r => isin every (Geography r)) df) with df; [reflexivity|].
  symmetry. apply forallb_filter_id, forallb_forall.
  intros r Hr. now apply isin_In, Hall.
Qed.

(** X4. With a status filter on, a row whose outcome label is unknown is
    never shown: every row shown has the label 1 under "Только ушедшие" and
    0 under any other choice. *)
Theorem filter_data_hides_unknown_labels (df : list Row) (r : Row) :
  exited_filter <> all_label ->
  In r (filter_data df geography gender age_range tenure_range
                    is_active_filter exited_filter) ->
  Exited r = Some (if String.eqb exited_filter only_exited then 1 else 0)
  /\ Exited r <> None.
Proof.
  intros Hon Hin. rewrite filter_data_passes in Hin.
  apply filter_In in Hin as [_ Hp]. apply passes_kept in Hp.
  destruct Hp as (_ & _ & _ & _ & _ & [E|E]); [contradiction|].
  split; [exact E | congruence].
Qed.

End FilterData.

Lemma filter_data_hides_unknown_labels_witness :
  ~ In (sample_row 9 "Spain" 0 1 0 None)
       (filter_data [sample_row 7 "France" 1 1 0 (Some 0);
                     sample_row 9 "Spain" 0 1 0 None]
                    [] all_label (0, 100) (0, 10) all_label only_stayed).
Proof.
  intros Hin.
  destruct (filter_data_hides_unknown_labels [] all_label (0, 100) (0, 10)
              all_label only_stayed _ _ ltac:(discriminate) Hin) as [_ H].
  now apply H.
Defined.

Lemma filter_data_empty_geography_witness :
  filter_data [sample_row 7 "France" 1 1 0 (Some 0); sample_row 9 "Spain" 0 1 0 None]
              [] all_label (0, 100) (0, 10) all_label all_label
  = filter_data [sample_row 7 "France" 1 1 0 (Some 0); sample_row 9 "Spain" 0 1 0 None]
                ["France"; "Spain"] all_label (0, 100) (0, 10) all_label all_label.
Proof.
  apply filter_data_empty_geography.
  intros r [<-|[<-|[]]]; cbn; auto.
Defined.

Lemma filter_split_length {A : Type} (p q s : A -> bool) (l : list A) :
  (forall x, In x l -> s x = xorb (p x) (q x) /\ (p x = true -> q x = false)) ->
  (length (filter p l) + length (filter q l) = length (filter s l))%nat.
Proof.
  induction l as [|x l IH]; intros H; [reflexivity|].
  cbn [filter]. destruct (H x (or_introl eq_refl)) as [Hs Hpq].
  rewrite Hs. specialize (IH (fun y Hy => H y (or_intror Hy))).
  destruct (p x); [rewrite (Hpq eq_refl)|destruct (q x)]; cbn; lia.
Qed.

(** X5. The two activity choices split the unfiltered-by-activity result:
    on every frame no row is shown under both, and when every activity flag
    of the frame is 0 or 1 the two results together have as many rows as
    under "Все". *)
Theorem activity_filters_partition (df : list Row) (geography : list string)
    (gender : string) (age_range tenure_range : Z * Z) (exited_filter : string) :
  (forall r,
     In r (filter_data df geography gender age_range tenure_range
                       only_active exited_filter) ->
     ~ In r (filter_data df geography gender age_range tenure_range
                         only_inactive exited_filter))
  /\ ((forall r, In r df -> IsActiveMember r = 0 \/ IsActiveMember r = 1) ->
      (length (filter_data df geography gender age_range tenure_range
                           only_active exited_filter)
       + length (filter_data df geography gender age_range tenure_range
                             only_inactive exited_filter)
       = length (filter_data df geography gender age_range tenure_range
                             all_label exited_filter))%nat).
Proof.
  rewrite !filter_data_passes. split; [|intros Hflag].
  2: { apply filter_split_length. intros r Hr. unfold passes.
    change (String.eqb only_active all_label) with false.
    change (String.eqb only_inactive all_label) with false.
    change (String.eqb all_label all_label) with true.
    change (String.eqb only_active only_active) with true.
    change (String.eqb only_inactive only_active) with false.
    cbn [orb].
    destruct (Hflag r Hr) as [-> | ->]; cbn [Z.eqb];
      destruct (negb (truthy geography) || isin geography (Geography r)),
        (String.eqb gender all_label || String.eqb (Gender r) gender),
        (between (fst age_range) (snd age_range) (Age r)),
        (between (fst tenure_range) (snd tenure_range) (Tenure r)),
        (String.eqb exited_filter all_label
         || Pandas.eq_nan (Exited r)
              (Some (if String.eqb exited_filter only_exited then 1 else 0)));
      cbn; auto. }
  intros r Ha Hi.
  { apply filter_In in Ha as [_ Ha]. apply filter_In in Hi as [_ Hi].
    apply passes_kept in Ha. apply passes_kept in Hi.
    destruct Ha as (_ & _ & _ & _ & [Ha|Ha] & _); [discriminate|].
    destruct Hi as (_ & _ & _ & _ & [Hi|Hi] & _); [discriminate|].
    change (String.eqb only_active only_active) with true in Ha.
    change (String.eqb only_inactive only_active) with false in Hi.
    congruence. }
Qed.

Lemma activity_filters_partition_witness :
  Nat.add
    (length (filter_data sample_population [] all_label (0, 100) (0, 10)
                         only_active all_label))
    (length (filter_data sample_population [] all_label (0, 100) (0, 10)
                         only_inactive all_label))
  = length (filter_data sample_population [] all_label (0, 100) (0, 10)
                        all_label all_label).
Proof.
  apply (activity_filters_partition sample_population [] all_label (0, 100) (0, 10)
           all_label).
  intros r Hr. unfold sample_population in Hr.
  apply in_app_or in Hr as [Hr|Hr]; [|apply in_app_or in Hr as [Hr|Hr]];
    apply repeat_spec in Hr; subst r; cbn; auto.
Defined.

(** X6. Widening the two sliders never hides a row that was shown, and a
    slider range whose lower end is above its upper end shows nothing. *)
Theorem filter_data_ranges (df : list Row) (geography : list string) (gender : string)
    (age_range tenure_range age_range' tenure_range' : Z * Z)
    (is_active_filter exited_filter : string) :
  (fst age_range' <= fst age_range -> snd age_range <= snd age_range' ->
   fst tenure_range' <= fst tenure_range -> snd tenure_range <= snd tenure_range' ->
   incl (filter_data df geography gender age_range tenure_range
                     is_active_filter exited_filter)
        (filter_data df geography gender age_range' tenure_range'
                     is_active_filter exited_filter))
  /\ (snd age_range < fst age_range \/ snd tenure_range < fst tenure_range ->
      filter_data df geography gender age_range tenure_range
                  is_active_filter exited_filter = []).
Proof.
  split.
  - intros Ha1 Ha2 Ht1 Ht2 r. rewrite !filter_data_passes, !filter_In, !passes_kept.
    unfold kept. intuition lia.
  - intros Hinv.
    destruct (filter_data df geography gender age_range tenure_range
                is_active_filter exited_filter) as [|r l] eqn:E; [reflexivity|].
    assert (Hin : In r (filter_data df geography gender age_range tenure_range
                          is_active_filter exited_filter)) by (rewrite E; now left).
    rewrite filter_data_passes, filter_In, passes_kept in Hin.
    unfold kept in Hin. exfalso. intuition lia.
Qed.

Lemma filter_data_ranges_witness :
  filter_data sample_population [] all_label (50, 20) (0, 10) all_label all_label = [].
Proof.
  apply (filter_data_ranges sample_population [] all_label (50, 20) (0, 10)
           (0, 100) (0, 10) all_label all_label).
  left. cbn. lia.
Defined.

(** ** The sidebar *)

Lemma unique_In (s : list string) (x : string) : In x (unique s) <-> In x s.
Proof.
  induction s as [|y s IH]; cbn; [tauto|].
  rewrite filter_In, IH, negb_true_iff.
  destruct (String.eqb_spec y x) as [->|Hne]; [tauto|].
  split; [tauto|]. intros [H|H]; [contradiction | auto].
Qed.

Lemma insert_string_In (x y : string) (s : list string) :
  In y (insert_string x s) <-> y = x \/ In y s.
Proof.
  induction s as [|z s IH]; cbn; [intuition congruence|].
  destruct (String.leb x z); cbn; [intuition congruence|].
  rewrite IH. intuition congruence.
Qed.

Lemma sorted_In (s : list string) (x : string) : In x (sorted s) <-> In x s.
Proof.
  induction s as [|y s IH]; cbn; [tauto|].
  rewrite insert_string_In, IH. intuition congruence.
Qed.

Lemma Zmin_list_bound (s : list Z) (m : Z) :
  Zmin_list s = Some m -> forall i, In i s -> m <= i.
Proof.
  revert m. induction s as [|x s IH]; intros m Hm i Hi; [destruct Hi|].
  cbn in Hm. destruct (Zmin_list s) as [m'|] eqn:E.
  - inversion Hm; subst. destruct Hi as [->|Hi]; [lia|].
    specialize (IH m' eq_refl i Hi). lia.
  - inversion Hm; subst. destruct Hi as [->|Hi]; [lia|].
    destruct s; [destruct Hi | cbn in E; destruct (Zmin_list s); discriminate].
Qed.

Lemma Zmin_list_defined (s : list Z) : s <> [] -> exists m, Zmin_list s = Some m.
Proof.
  destruct s as [|x s]; [congruence|]. intros _. cbn.
  destruct (Zmin_list s); eauto.
Qed.

Lemma Zmin_list_In (s : list Z) (m : Z) : Zmin_list s = Some m -> In m s.
Proof.
  revert m. induction s as [|x s IH]; intros m H; [discriminate|].
  cbn in H. destruct (Zmin_list s) as [m'|].
  - inversion H; subst. destruct (Z.min_spec x m') as [[_ ->]|[_ ->]]; [now left|].
    right. now apply IH.
  - inversion H; subst. now left.
Qed.

(** The smallest and the largest value of a non-empty integer column. *)
Lemma column_extrema (s : list Z) :
  s <> [] ->
  exists lo hi, Zmin_list s = Some lo /\ Pandas.Zmax_list s = Some hi
                /\ In lo s /\ In hi s /\ forall i, In i s -> lo <= i <= hi.
Proof.
  intros Hne.
  destruct (Zmin_list_defined s Hne) as (lo & Elo).
  destruct (Zmax_list_defined s Hne) as (hi & Ehi).
  exists lo, hi. repeat split; auto using Zmin_list_In, Zmax_list_In.
  - now apply (Zmin_list_bound s lo Elo).
  - now apply (Zmax_list_bound s hi Ehi).
Qed.

Lemma slider_ok (lo hi : Z) : lo < hi -> slider lo hi = Ok tt.
Proof. intros H. unfold slider. apply Z.ltb_lt in H. now rewrite H. Qed.

Lemma slider_refused (lo : Z) : slider lo lo = Raise StreamlitAPIException.
Proof. unfold slider. now rewrite Z.ltb_irrefl. Qed.

(** X7. Building the sidebar has three outcomes.  On an empty dataset
    [int] of the missing minimum age raises [ValueError].  On a dataset
    whose ages are all equal, or whose tenures are all equal, the slider
    over that column gets equal bounds and Streamlit raises
    [StreamlitAPIException].  Otherwise the sidebar is built, and left
    untouched it hides nothing: the filtered frame is the whole dataset and
    the indicators are computed on it. *)
Theorem sidebar_defaults_show_everything (data : list Row) :
  (data = [] -> sidebar_defaults data = Raise ValueError)
  /\ (data <> [] ->
      (forall r1 r2, In r1 data -> In r2 data -> Age r1 = Age r2)
      \/ (forall r1 r2, In r1 data -> In r2 data -> Tenure r1 = Tenure r2) ->
      sidebar_defaults data = Raise StreamlitAPIException)
  /\ ((exists r1 r2, In r1 data /\ In r2 data /\ Age r1 < Age r2) ->
      (exists r1 r2, In r1 data /\ In r2 data /\ Tenure r1 < Tenure r2) ->
      exists sb, sidebar_defaults data = Ok sb
                 /\ filtered_data data sb = data
                 /\ kpi_block data sb = Some (calc_kpis data)).
Proof.
  split; [intros ->; reflexivity|].
  assert (Hext : data <> [] ->
            exists amin amax tmin tmax,
              Zmin_list (map Age data) = Some amin
              /\ Pandas.Zmax_list (map Age data) = Some amax
              /\ Zmin_list (map Tenure data) = Some tmin
              /\ Pandas.Zmax_list (map Tenure data) = Some tmax
              /\ (exists ra, In ra data /\ Age ra = amin)
              /\ (exists rb, In rb data /\ Age rb = amax)
              /\ (exists rc, In rc data /\ Tenure rc = tmin)
              /\ (exists rd, In rd data /\ Tenure rd = tmax)
              /\ (forall r, In r data -> amin <= Age r <= amax)
              /\ (forall r, In r data -> tmin <= Tenure r <= tmax)).
  { intros Hne.
    assert (HA : map Age data <> []) by (destruct data; [congruence | discriminate]).
    assert (HT : map Tenure data <> []) by (destruct data; [congruence | discriminate]).
    destruct (column_extrema _ HA) as (amin & amax & E1 & E2 & I1 & I2 & B1).
    destruct (column_extrema _ HT) as (tmin & tmax & E3 & E4 & I3 & I4 & B2).
    exists amin, amax, tmin, tmax.
    apply in_map_iff in I1 as (ra & Ea & Ia). apply in_map_iff in I2 as (rb & Eb & Ib).
    apply in_map_iff in I3 as (rc & Ec & Ic). apply in_map_iff in I4 as (rd & Ed & Id).
    repeat split; eauto; try (apply B1, in_map; assumption);
      apply B2, in_map; assumption. }
  split.
  - intros Hne Hconst.
    destruct (Hext Hne) as (amin & amax & tmin & tmax & E1 & E2 & E3 & E4
                            & (ra & Ia & Ea) & (rb & Ib & Eb)
                            & (rc & Ic & Ec) & (rd & Id & Ed) & _ & _).
    unfold sidebar_defaults. rewrite E1, E2, E3, E4. cbn [int_of and_then].
    destruct Hconst as [Hage | Hten].
    + assert (Heq : amax = amin) by (rewrite <- Ea, <- Eb; now apply Hage).
      rewrite Heq. now rewrite slider_refused.
    + assert (Heq : tmax = tmin) by (rewrite <- Ec, <- Ed; now apply Hten).
      rewrite Heq.
      destruct (Z.ltb_spec amin amax) as [Hlt|Hge].
      * rewrite (slider_ok amin amax Hlt). cbn [and_then]. now rewrite slider_refused.
      * assert (E : slider amin amax = Raise StreamlitAPIException).
        { unfold slider. apply Z.ltb_ge in Hge. now rewrite Hge. }
        now rewrite E.
  - intros (r1 & r2 & H1 & H2 & Hlt) (r3 & r4 & H3 & H4 & Hlt').
    assert (Hne : data <> []) by (destruct data; [destruct H1 | discriminate]).
    destruct (Hext Hne) as (amin & amax & tmin & tmax & E1 & E2 & E3 & E4
                            & _ & _ & _ & _ & BA & BT).
    unfold sidebar_defaults. rewrite E1, E2, E3, E4. cbn [int_of and_then].
    rewrite slider_ok by (pose proof (BA r1 H1); pose proof (BA r2 H2); lia).
    cbn [and_then].
    rewrite slider_ok by (pose proof (BT r3 H3); pose proof (BT r4 H4); lia).
    cbn [and_then].
    eexists. split; [reflexivity|].
    assert (Hid : filtered_data data
                    {| selected_geography := sorted (unique (map Geography data));
                       selected_gender := hd all_label gender_options;
                       selected_age_range := (amin, amax);
                       selected_tenure_range := (tmin, tmax);
                       selected_is_active := hd all_label is_active_options;
                       selected_exited := hd all_label exited_options |} = data).
    { unfold filtered_data. cbn [selected_geography selected_gender selected_age_range
        selected_tenure_range selected_is_active selected_exited hd gender_options
        is_active_options exited_options].
      rewrite filter_data_passes.
      apply forallb_filter_id, forallb_forall. intros r Hr.
      apply passes_kept. unfold kept. cbn [fst snd].
      repeat split; auto; try (apply BA; assumption); try (apply BT; assumption).
      right. apply sorted_In, unique_In, in_map, Hr. }
    split; [exact Hid|].
    unfold kpi_block. rewrite Hid.
    destruct data; [congruence | reflexivity].
Qed.

Lemma sidebar_defaults_show_everything_witness :
  exists sb, sidebar_defaults varied_population = Ok sb
             /\ filtered_data varied_population sb = varied_population.
Proof.
  destruct (sidebar_defaults_show_everything varied_population) as (_ & _ & H).
  destruct H as (sb & Hsb & Hid & _).
  - exists (sample_row 1 "France" 1 2 1000 (Some 0)), older_row.
    split; [now left|]. split; [|cbn; lia].
    unfold varied_population. apply in_or_app. right. now left.
  - exists (sample_row 1 "France" 1 2 1000 (Some 0)), older_row.
    split; [now left|]. split; [|cbn; lia].
    unfold varied_population. apply in_or_app. right. now left.
  - exists sb. split; assumption.
Defined.

(** ** The empty population *)

Lemma sidebar_empty (touched : option Sidebar) : sidebar [] touched = Raise ValueError.
Proof. reflexivity. Qed.

Lemma after_sidebar_raises {A : Type} (touched : option Sidebar)
    (rest : Sidebar -> Script.t A) (w : World) (e : Exn) :
  sidebar (rows (w_data w)) touched = Raise e ->
  after_sidebar touched rest w = (Raise e, w).
Proof.
  intros H. unfold after_sidebar, Script.bind, Script.read_data, Script.lift.
  now rewrite H.
Qed.

(** C3. On an empty population the script fails fast and returns no risk
    assessment.  Everything the script does, either analysis block
    included, comes after the sidebar, and on a dataset without rows the
    sidebar cannot be built: [int] of the missing minimum age raises
    [ValueError], Python's error for an invalid value.  The script ends
    there, whatever the user selected: nothing has been printed, no cohort,
    churn rate or tier has been computed, and the file is untouched. *)
Theorem empty_population_fails_fast (w : World) (touched : option Sidebar) :
  rows (w_data w) = [] ->
  sidebar (rows (w_data w)) touched = Raise ValueError
  /\ (forall (A : Type) (rest : Sidebar -> Script.t A),
        after_sidebar touched rest w = (Raise ValueError, w))
  /\ (forall selected clicked,
        after_sidebar touched (fun _ => existing_client_block selected clicked) w
        = (Raise ValueError, w))
  /\ (forall c analyze save,
        after_sidebar touched (fun _ => new_client_block c analyze save) w
        = (Raise ValueError, w)).
Proof.
  intros Hrows.
  assert (Hside : sidebar (rows (w_data w)) touched = Raise ValueError)
    by (rewrite Hrows; apply sidebar_empty).
  split; [exact Hside|].
  split; [|split]; intros; now apply after_sidebar_raises.
Qed.

Lemma empty_population_fails_fast_witness :
  after_sidebar None (fun _ => show_analysis (sample_client "France" 1 1)) empty_world
  = (Raise ValueError, empty_world).
Proof.
  apply (empty_population_fails_fast empty_world None). reflexivity.
Defined.

(** ** Indicators *)

Lemma mean_None (s : list Q) : Pandas.mean s = None <-> s = [].
Proof. destruct s; cbn; split; congruence. Qed.

Lemma mean_map_defined {A : Type} (f : A -> Q) (l : list A) :
  l <> [] -> Pandas.mean (map f l) <> None.
Proof. destruct l; [congruence | discriminate]. Qed.

Lemma churn_None (seg : list Row) :
  Pandas.mean_skipna (map Exited seg) = None <-> known_rows seg = [].
Proof.
  unfold Pandas.mean_skipna. rewrite mean_None.
  pose proof (known_labels_length seg) as L. unfold known_labels in L.
  split; intros H.
  - apply map_eq_nil in H. rewrite H in L.
    destruct (known_rows seg); [reflexivity | discriminate].
  - rewrite H in L. destruct (Pandas.dropna (map Exited seg)); [reflexivity | discriminate].
Qed.

(** X8. [calc_kpis] counts the rows and its four averages are always
    numbers; the churn rate is the only indicator that can be undefined, and
    it is exactly when the frame has rows but none with a known outcome
    label (the length guard does not cover that case).  On the empty frame
    every indicator is 0, and the script never shows indicators of an empty
    selection. *)
Theorem calc_kpis_defined (df : list Row) :
  total_customers (calc_kpis df) = length df
  /\ avg_credit_score (calc_kpis df) <> None
  /\ avg_balance (calc_kpis df) <> None
  /\ avg_salary (calc_kpis df) <> None
  /\ avg_tenure (calc_kpis df) <> None
  /\ (churn_rate (calc_kpis df) = None <-> df <> [] /\ known_rows df = [])
  /\ (df = [] -> churn_rate (calc_kpis df) = Some 0%Q
                 /\ avg_credit_score (calc_kpis df) = Some 0%Q
                 /\ avg_balance (calc_kpis df) = Some 0%Q
                 /\ avg_salary (calc_kpis df) = Some 0%Q
                 /\ avg_tenure (calc_kpis df) = Some 0%Q)
  /\ (forall data sb k, kpi_block data sb = Some k -> (1 <= total_customers k)%nat).
Proof.
  unfold calc_kpis.
  destruct df as [|r df].
  - cbn. repeat split; try discriminate.
    + intros [H _]. congruence.
    + intros data sb k. unfold kpi_block.
      destruct (filtered_data data sb) as [|r' l]; cbn; [discriminate|].
      intros H. inversion H. cbn. lia.
  - change (0 <? length (r :: df))%nat with true. cbv iota.
    cbn [total_customers avg_credit_score avg_balance avg_salary avg_tenure churn_rate].
    repeat split; try (apply mean_map_defined; discriminate); try discriminate.
    + now apply churn_None.
    + intros [_ H]. now apply churn_None.
    + intros data sb k. unfold kpi_block.
      destruct (filtered_data data sb) as [|r' l]; cbn; [discriminate|].
      intros H. inversion H. cbn. lia.
Qed.

Lemma Zsum_binary_bounds (l : list Z) :
  (forall v, In v l -> v = 0 \/ v = 1) -> 0 <= Zsum l <= Z.of_nat (length l).
Proof.
  induction l as [|x l IH]; intros H; cbn [Zsum fold_right length]; [lia|].
  fold (Zsum l).
  specialize (IH (fun v Hv => H v (or_intror Hv))).
  destruct (H x (or_introl eq_refl)); subst; lia.
Qed.

Lemma mean_inject_Z (l : list Z) (q : Q) :
  Pandas.mean (map inject_Z l) = Some q ->
  l <> []
  /\ (q == inject_Z (Zsum l) / inject_Z (Z.of_nat (length l)))%Q.
Proof.
  destruct l as [|z l]; [discriminate|].
  intros H. split; [discriminate|].
  rewrite <- (Qsum_inject_Z (z :: l)), <- (length_map inject_Z (z :: l)).
  cbn [Pandas.mean map] in *. inversion H. reflexivity.
Qed.

Lemma mean_skipna_binary (seg : list Row) (q : Q) :
  binary_labels seg ->
  Pandas.mean_skipna (map Exited seg) = Some q -> (0 <= q <= 1)%Q.
Proof.
  intros Hbin Hq. unfold Pandas.mean_skipna in Hq.
  assert (Hl : forall v, In v (Pandas.dropna (map Exited seg)) -> v = 0 \/ v = 1).
  { intros v Hv. apply dropna_In, in_map_iff in Hv as (r & Hr & Hin).
    destruct (Hbin r Hin) as [H|[H|H]]; rewrite H in Hr; inversion Hr; auto. }
  pose proof (Zsum_binary_bounds _ Hl) as [Hlo Hhi].
  apply mean_inject_Z in Hq as [Hne Eq].
  set (l := Pandas.dropna (map Exited seg)) in *.
  assert (Hpos : (inject_Z 0 < inject_Z (Z.of_nat (length l)))%Q).
  { rewrite <- Zlt_Qlt. destruct l; [congruence | cbn [length]; lia]. }
  rewrite Eq. split.
  - apply Qle_shift_div_l; [exact Hpos|]. rewrite Qmult_0_l.
    change (inject_Z 0 <= inject_Z (Zsum l))%Q. rewrite <- Zle_Qle. exact Hlo.
  - apply Qle_shift_div_r; [exact Hpos|]. rewrite Qmult_1_l.
    rewrite <- Zle_Qle. exact Hhi.
Qed.

Lemma segment_incl (data : list Row) (c : Client) : incl (fst (segment data c)) data.
Proof.
  rewrite segment_chain. unfold fallback_chain.
  destruct (cohorts_sublists data c) as (I12 & I23 & I3).
  destruct (40 <=? length (cohort_products data c))%nat; cbn [fst].
  { intros r Hr. auto. }
  destruct (40 <=? length (cohort_activity data c))%nat; cbn [fst].
  { intros r Hr. auto. }
  destruct (1 <=? length (cohort_region data c))%nat; cbn [fst]; [exact I3|].
  apply incl_refl.
Qed.

(** X9. When every known outcome label of the dataset is 0 or 1, each churn
    rate the dashboard shows lies between 0 and 1: the rate of the selected
    cohort, the base rate, and the indicator of [calc_kpis] on any part of
    the dataset. *)
Theorem churn_rates_between_0_and_1 (data : list Row) :
  binary_labels data ->
  (forall c q, a_segment_churn (evaluate data c) = Some q -> (0 <= q <= 1)%Q)
  /\ (forall c q, a_base_churn (evaluate data c) = Some q -> (0 <= q <= 1)%Q)
  /\ (forall df q, incl df data -> churn_rate (calc_kpis df) = Some q -> (0 <= q <= 1)%Q).
Proof.
  intros Hbin. split; [|split].
  - intros c q Hq.
    destruct (evaluate_label data c) as (_ & Hc & _). rewrite Hc in Hq.
    apply (mean_skipna_binary (fst (segment data c))); [|exact Hq].
    intros r Hr. apply Hbin. now apply (segment_incl data c).
  - intros c q Hq. apply (mean_skipna_binary data q Hbin).
    unfold evaluate in Hq. destruct (segment data c) as [seg lvl].
    destruct (risk_label (segment_churn seg)). exact Hq.
  - intros df q Hdf Hq. unfold calc_kpis in Hq.
    destruct (0 <? length df)%nat; cbn [churn_rate] in Hq.
    + apply (mean_skipna_binary df); [|exact Hq].
      intros r Hr. apply Hbin, Hdf, Hr.
    + inversion Hq. split; discriminate.
Qed.

Lemma churn_rates_between_0_and_1_witness :
  a_segment_churn (evaluate sample_population (sample_client "France" 1 1))
  = Some (5 # 50)%Q
  /\ (0 <= 5 # 50 <= 1)%Q.
Proof.
  assert (Hbin : binary_labels sample_population).
  { intros r Hr. unfold sample_population in Hr.
    apply in_app_or in Hr as [Hr|Hr]; [|apply in_app_or in Hr as [Hr|Hr]];
      apply repeat_spec in Hr; subst r; cbn; auto. }
  destruct (churn_rates_between_0_and_1 sample_population Hbin) as [H _].
  split; [vm_compute; reflexivity|].
  apply (H (sample_client "France" 1 1)). vm_compute. reflexivity.
Defined.

(** ** Numeric columns *)

Lemma list_remove_absent (x : string) (l : list string) :
  ~ In x l -> filter (fun y => negb (String.eqb x y)) l = l.
Proof.
  intros H. apply forallb_filter_id, forallb_forall. intros y Hy.
  apply negb_true_iff, String.eqb_neq. intros ->. contradiction.
Qed.

Lemma list_remove_NoDup (x : string) (l : list string) :
  NoDup l -> list_remove x l = filter (fun y => negb (String.eqb x y)) l.
Proof.
  induction 1 as [|y l Hy Hnd IH]; cbn; [reflexivity|].
  destruct (String.eqb_spec x y) as [->|Hne]; cbn.
  - symmetry. now apply list_remove_absent.
  - now rewrite IH.
Qed.

Lemma remove_if_present (x : string) (l : list string) :
  NoDup l ->
  (if isin l x then list_remove x l else l) = filter (fun y => negb (String.eqb x y)) l.
Proof.
  intros Hnd. destruct (isin l x) eqn:E.
  - now apply list_remove_NoDup.
  - symmetry. apply list_remove_absent. intros H. apply isin_In in H. congruence.
Qed.

Lemma NoDup_numeric (dtypes : list (string * bool)) :
  NoDup (map fst dtypes) -> NoDup (map fst (filter snd dtypes)).
Proof.
  induction dtypes as [|[n b] l IH]; cbn; [auto|].
  intros H. inversion H as [|? ? Hn Hl]; subst.
  destruct b; cbn; [|auto].
  constructor; [|auto].
  intros Hin. apply Hn. apply in_map_iff in Hin as ([n' b'] & E & Hin).
  apply filter_In in Hin as [Hin _]. cbn in E. subst n'.
  apply in_map_iff. now exists (n, b').
Qed.

Lemma get_numeric_columns_filter (dtypes : list (string * bool)) :
  NoDup (map fst dtypes) ->
  get_numeric_columns dtypes
  = filter (fun n => negb (String.eqb "CustomerId" n))
      (filter (fun n => negb (String.eqb "RowNumber" n)) (map fst (filter snd dtypes))).
Proof.
  intros Hnd. unfold get_numeric_columns. cbn [fold_left].
  rewrite (remove_if_present "RowNumber") by now apply NoDup_numeric.
  rewrite (remove_if_present "CustomerId") by now apply NoDup_filter, NoDup_numeric.
  reflexivity.
Qed.

(** X10. For a frame whose column names are distinct, [get_numeric_columns]
    returns exactly the number-typed columns other than [RowNumber] and
    [CustomerId], each once and in the frame's order; the list the
    correlation heat map then uses holds [Exited] exactly once. *)
Theorem numeric_columns_exact (dtypes : list (string * bool)) :
  NoDup (map fst dtypes) ->
  (forall n, In n (get_numeric_columns dtypes)
             <-> In (n, true) dtypes /\ n <> "RowNumber" /\ n <> "CustomerId")
  /\ NoDup (get_numeric_columns dtypes)
  /\ get_numeric_columns dtypes
     = filter (fun n => negb (isin ["RowNumber"; "CustomerId"] n))
              (map fst (filter snd dtypes))
  /\ In "Exited" (numeric_cols_full dtypes)
  /\ NoDup (numeric_cols_full dtypes).
Proof.
  intros Hnd. pose proof (get_numeric_columns_filter dtypes Hnd) as E.
  assert (Hnd' : NoDup (get_numeric_columns dtypes)).
  { rewrite E. now apply NoDup_filter, NoDup_filter, NoDup_numeric. }
  split; [|split; [exact Hnd'|split; [|split]]].
  - intros n. rewrite E, !filter_In, !negb_true_iff, !String.eqb_neq, in_map_iff.
    split.
    + intros [[([n' b] & En & Hin) H1] H2]. cbn in En. subst n'.
      apply filter_In in Hin as [Hin Hb]. cbn in Hb. subst b.
      repeat split; [assumption | congruence | congruence].
    + intros (Hin & H1 & H2). repeat split; try congruence.
      exists (n, true). split; [reflexivity|]. now apply filter_In.
  - rewrite E, <- filter_andb. apply filter_ext. intros n. cbn [isin existsb].
    rewrite orb_false_r, negb_orb, (String.eqb_sym n "RowNumber"),
      (String.eqb_sym n "CustomerId"). reflexivity.
  - unfold numeric_cols_full. cbv zeta.
    destruct (isin (get_numeric_columns dtypes) "Exited") eqn:Ei; cbn [negb].
    + now apply isin_In.
    + apply in_or_app. right. now left.
  - unfold numeric_cols_full. cbv zeta.
    destruct (isin (get_numeric_columns dtypes) "Exited") eqn:Ei; cbn [negb];
      [exact Hnd'|].
    apply NoDup_app; [exact Hnd' | repeat constructor; intros [] |].
    intros x Hx [<-|[]]. apply isin_In in Hx. congruence.
Qed.

Lemma numeric_columns_exact_witness :
  get_numeric_columns [("RowNumber", true); ("CustomerId", true); ("Surname", false);
                       ("CreditScore", true); ("Geography", false); ("Age", true);
                       ("Exited", true)]
  = filter (fun n => negb (isin ["RowNumber"; "CustomerId"] n))
           ["RowNumber"; "CustomerId"; "CreditScore"; "Age"; "Exited"].
Proof.
  apply (numeric_columns_exact
           [("RowNumber", true); ("CustomerId", true); ("Surname", false);
            ("CreditScore", true); ("Geography", false); ("Age", true);
            ("Exited", true)]).
  cbn. repeat constructor; cbn; intuition discriminate.
Defined.

(** ** Tenure bins *)

(** X11. The tenure chart puts a row behind the bar "0–2 года" exactly when
    its tenure is 0 to 2, behind "3–5 лет" when 3 to 5, behind "6–10 лет"
    when 6 to 10, and behind no bar when the tenure is negative or above 10;
    so the three groups together hold each row with tenure 0 to 10 once and
    no other row. *)
Theorem tenure_bins_cover_0_to_10 (df : list Row) :
  (forall r, tenure_cat r = Some "0–2 года" <-> 0 <= Tenure r <= 2)
  /\ (forall r, tenure_cat r = Some "3–5 лет" <-> 3 <= Tenure r <= 5)
  /\ (forall r, tenure_cat r = Some "6–10 лет" <-> 6 <= Tenure r <= 10)
  /\ (forall r, tenure_cat r = None <-> Tenure r < 0 \/ 10 < Tenure r)
  /\ (length (tenure_group df "0–2 года") + length (tenure_group df "3–5 лет")
      + length (tenure_group df "6–10 лет")
      = length (filter tenure_in_bins df))%nat.
Proof.
  assert (Hcat : forall r,
             tenure_cat r =
             if (-1 <? Tenure r) && (Tenure r <=? 2) then Some "0–2 года"
             else if (2 <? Tenure r) && (Tenure r <=? 5) then Some "3–5 лет"
             else if (5 <? Tenure r) && (Tenure r <=? 10) then Some "6–10 лет"
             else None) by reflexivity.
  split; [|split; [|split; [|split]]].
  1-4: intros r; rewrite Hcat;
    destruct (Z.ltb_spec (-1) (Tenure r)), (Z.leb_spec (Tenure r) 2),
      (Z.ltb_spec 2 (Tenure r)), (Z.leb_spec (Tenure r) 5),
      (Z.ltb_spec 5 (Tenure r)), (Z.leb_spec (Tenure r) 10);
    cbn [andb]; split; intros Hgoal; try lia; try reflexivity; try discriminate Hgoal.
  induction df as [|r df IH]; [reflexivity|].
  assert (Hcons : forall label,
             tenure_group (r :: df) label =
             if match tenure_cat r with
                | Some l => String.eqb l label
                | None => false
                end
             then r :: tenure_group df label else tenure_group df label)
    by reflexivity.
  rewrite !Hcons, Hcat. cbn [filter]. unfold tenure_in_bins at 1.
  destruct (Z.ltb_spec (-1) (Tenure r)), (Z.leb_spec (Tenure r) 2),
    (Z.ltb_spec 2 (Tenure r)), (Z.leb_spec (Tenure r) 5),
    (Z.ltb_spec 5 (Tenure r)), (Z.leb_spec (Tenure r) 10),
    (Z.leb_spec 0 (Tenure r)); try lia;
    cbv [andb String.eqb Ascii.eqb Bool.eqb]; cbn [length]; lia.
Qed.

(** ** Training data ([ml.py]) *)

Lemma astype_int_ok (s : list (option Z)) :
  (forall x, In x s -> x <> None) ->
  exists y, astype_int s = Ok y /\ map Some y = s.
Proof.
  induction s as [|[v|] s IH]; intros H.
  - exists []. auto.
  - destruct IH as (y & Ey & Hy); [intros x Hx; apply H; now right|].
    exists (v :: y). cbn. rewrite Ey, Hy. auto.
  - exfalso. now apply (H None); [left|].
Qed.

Lemma astype_int_missing (s : list (option Z)) :
  In None s -> astype_int s = Raise ValueError.
Proof.
  induction s as [|[v|] s IH]; intros H; [destruct H | | reflexivity].
  cbn. destruct H as [H|H]; [discriminate|]. now rewrite IH.
Qed.

(** X12. [_prepare_features_target] returns one feature row and one integer
    label per row of the frame, the labels being the frame's, when every
    outcome label is known; a single unknown label makes it raise. *)
Theorem prepare_features_target_needs_labels (df : list Row) :
  ((forall r, In r df -> Exited r <> None) ->
   exists X y, _prepare_features_target df = Ok (X, y)
               /\ length X = length df /\ length y = length df
               /\ map Some y = map Exited df
               /\ X = map client_of_row df)
  /\ ((exists r, In r df /\ Exited r = None) ->
      _prepare_features_target df = Raise ValueError).
Proof.
  unfold _prepare_features_target. split.
  - intros Hknown.
    destruct (astype_int_ok (map Exited df)) as (y & Ey & Hy).
    { intros x Hx. apply in_map_iff in Hx as (r & <- & Hr). now apply Hknown. }
    rewrite Ey. exists (map client_of_row df), y.
    repeat split; auto.
    + apply length_map.
    + rewrite <- (length_map Some y), Hy. apply length_map.
  - intros (r & Hr & Hnone).
    rewrite astype_int_missing; [reflexivity|].
    rewrite <- Hnone. now apply in_map.
Qed.

Lemma prepare_features_target_needs_labels_witness :
  _prepare_features_target [sample_row 1 "France" 1 1 0 (Some 1);
                            sample_row 2 "Spain" 0 1 0 None] = Raise ValueError.
Proof.
  apply (prepare_features_target_needs_labels
           [sample_row 1 "France" 1 1 0 (Some 1); sample_row 2 "Spain" 0 1 0 None]).
  exists (sample_row 2 "Spain" 0 1 0 None). split; [right; now left | reflexivity].
Defined.

Lemma Exited_astype_id (d : Dtype) (r : Row) : Exited (astype_id d r) = Exited r.
Proof. destruct d; reflexivity. Qed.

(** The cast of the identifier column leaves the outcome labels alone. *)
Lemma Exited_concat_row (df : DataFrame) (r : Row) :
  map Exited (rows (concat_row df r)) = map Exited (rows df) ++ [Exited r].
Proof.
  unfold concat_row. cbn [rows]. rewrite map_map.
  rewrite (map_ext _ Exited) by apply Exited_astype_id.
  rewrite map_app. cbn [map]. f_equal.
  destruct (has_CustomerId df); [reflexivity|].
  rewrite map_map. reflexivity.
Qed.

(** X13. Once a customer has been saved from the form, the file can no
    longer be used to prepare training data: the saved row has no outcome
    label and [_prepare_features_target] raises on the written frame. *)
Theorem saved_file_breaks_training (c : Client) (w w' : World) :
  save_client c w = (Ok tt, w') ->
  _prepare_features_target (rows (w_csv w')) = Raise ValueError.
Proof.
  intros Hrun. rewrite save_client_run in Hrun.
  destruct (new_id (w_data w)) as [id|e]; [|discriminate].
  inversion Hrun; subst w'. cbn [w_csv].
  unfold _prepare_features_target.
  rewrite astype_int_missing; [reflexivity|].
  rewrite Exited_concat_row. apply in_or_app. right. now left.
Qed.

Lemma saved_file_breaks_training_witness :
  exists w',
    save_client (sample_client "Spain" 1 2)
      {| w_data := mkFrame true [sample_row 15634602 "France" 1 1 0 (Some 1)];
         w_csv := mkFrame true [];
         w_screen := [] |} = (Ok tt, w')
    /\ _prepare_features_target (rows (w_csv w')) = Raise ValueError.
Proof.
  exists (snd (save_client (sample_client "Spain" 1 2)
                 {| w_data := mkFrame true [sample_row 15634602 "France" 1 1 0 (Some 1)];
                    w_csv := mkFrame true [];
                    w_screen := [] |})).
  split.
  - vm_compute. reflexivity.
  - apply (saved_file_breaks_training (sample_client "Spain" 1 2)
             {| w_data := mkFrame true [sample_row 15634602 "France" 1 1 0 (Some 1)];
                w_csv := mkFrame true [];
                w_screen := [] |}).
    vm_compute. reflexivity.
Defined.

(** ** More on the selected cohort *)

Lemma match_geo_spec (c : Client) (r : Row) :
  match_geo c r = true <-> Geography r = geo_new c.
Proof. apply String.eqb_eq. Qed.

Lemma match_geo_active_spec (c : Client) (r : Row) :
  match_geo_active c r = true
  <-> Geography r = geo_new c /\ IsActiveMember r = is_active_new c.
Proof.
  unfold match_geo_active. now rewrite andb_true_iff, String.eqb_eq, Z.eqb_eq.
Qed.

Lemma match_geo_active_products_spec (c : Client) (r : Row) :
  match_geo_active_products c r = true
  <-> Geography r = geo_new c /\ IsActiveMember r = is_active_new c
      /\ NumOfProducts r = num_products_new c.
Proof.
  unfold match_geo_active_products.
  rewrite !andb_true_iff, String.eqb_eq, !Z.eqb_eq. tauto.
Qed.

Lemma filter_nil_none {A : Type} (p : A -> bool) (l : list A) :
  length (filter p l) = 0%nat -> forall x, In x l -> p x = false.
Proof.
  intros H x Hx. destruct (p x) eqn:E; [|reflexivity].
  assert (Hin : In x (filter p l)) by now apply filter_In.
  destruct (filter p l); [destruct Hin | discriminate].
Qed.

(** X14. On a non-empty population the selected cohort is never empty and
    never larger than the population. *)
Theorem selected_cohort_nonempty (data : list Row) (c : Client) :
  data <> [] ->
  (1 <= a_segment_size (evaluate data c) <= length data)%nat.
Proof.
  intros Hne.
  destruct (evaluate_label data c) as (_ & _ & _ & Hsize). rewrite Hsize.
  destruct (cohorts_sizes data c) as (H12 & H23 & H3).
  assert (Hlen : (1 <= length data)%nat) by (destruct data; [congruence | cbn; lia]).
  rewrite segment_chain. unfold fallback_chain.
  set (s1 := cohort_products data c) in *.
  set (s2 := cohort_activity data c) in *.
  set (s3 := cohort_region data c) in *.
  decide_tests; cbn [fst]; lia.
Qed.

Lemma selected_cohort_nonempty_witness :
  (1 <= a_segment_size (evaluate sample_population (sample_client "Italy" 1 1))
   <= length sample_population)%nat.
Proof. apply selected_cohort_nonempty. discriminate. Defined.

(** Dismisses a case whose level is not the one the chain returned. *)
Ltac wrong_level := let H := fresh "Hlevel" in intros H; discriminate H.

(** X15. The printed level tells what the cohort is.  At the level with
    products it has at least 40 rows, all with the customer's region,
    activity flag and product count; at the level with activity at least 40
    rows, all with the customer's region and activity flag; at the region
    level at least one row, all of the customer's region; and at the level
    "вся база" it is the whole population, in which no row has the
    customer's region.  No other level is ever printed. *)
Theorem level_describes_cohort (data : list Row) (c : Client) :
  (snd (segment data c) = level_products ->
   (40 <= length (fst (segment data c)))%nat
   /\ forall r, In r (fst (segment data c)) ->
        Geography r = geo_new c /\ IsActiveMember r = is_active_new c
        /\ NumOfProducts r = num_products_new c)
  /\ (snd (segment data c) = level_activity ->
      (40 <= length (fst (segment data c)))%nat
      /\ forall r, In r (fst (segment data c)) ->
           Geography r = geo_new c /\ IsActiveMember r = is_active_new c)
  /\ (snd (segment data c) = level_region ->
      (1 <= length (fst (segment data c)))%nat
      /\ forall r, In r (fst (segment data c)) -> Geography r = geo_new c)
  /\ (snd (segment data c) = level_all ->
      fst (segment data c) = data
      /\ forall r, In r data -> Geography r <> geo_new c)
  /\ In (snd (segment data c)) [level_products; level_activity; level_region; level_all].
Proof.
  rewrite segment_chain. unfold fallback_chain.
  destruct (40 <=? length (cohort_products data c))%nat eqn:E1; cbn [fst snd].
  { apply Nat.leb_le in E1.
    split; [|split; [|split; [|split]]];
      [ | wrong_level | wrong_level | wrong_level | cbn; tauto ].
    intros _. split; [exact E1|]. intros r Hr.
    apply filter_In in Hr as [_ Hm].
    now apply match_geo_active_products_spec in Hm. }
  destruct (40 <=? length (cohort_activity data c))%nat eqn:E2; cbn [fst snd].
  { apply Nat.leb_le in E2.
    split; [|split; [|split; [|split]]];
      [ wrong_level | | wrong_level | wrong_level | cbn; tauto ].
    intros _. split; [exact E2|]. intros r Hr.
    apply filter_In in Hr as [_ Hm].
    now apply match_geo_active_spec in Hm. }
  destruct (1 <=? length (cohort_region data c))%nat eqn:E3; cbn [fst snd].
  { apply Nat.leb_le in E3.
    split; [|split; [|split; [|split]]];
      [ wrong_level | wrong_level | | wrong_level | cbn; tauto ].
    intros _. split; [exact E3|]. intros r Hr.
    apply filter_In in Hr as [_ Hm].
    now apply match_geo_spec in Hm. }
  apply Nat.leb_gt in E3.
  split; [|split; [|split; [|split]]];
    [ wrong_level | wrong_level | wrong_level | | cbn; tauto ].
  intros _. split; [reflexivity|].
  intros r Hr Hgeo.
  assert (Hz : length (filter (match_geo c) data) = 0%nat)
    by (unfold cohort_region in E3; lia).
  pose proof (filter_nil_none _ _ Hz r Hr) as Hf.
  apply match_geo_spec in Hgeo. congruence.
Qed.

Lemma level_describes_cohort_witness :
  fst (segment sample_population (sample_client "Italy" 1 1)) = sample_population
  /\ forall r, In r sample_population -> Geography r <> "Italy".
Proof.
  apply (level_describes_cohort sample_population (sample_client "Italy" 1 1)).
  vm_compute. reflexivity.
Defined.

(** ** More on risk labels, percentiles and factors *)

(** X16. The tier never goes down when the churn rate goes up: a rate at
    most a low-risk rate is low risk, and a rate at least a high-risk rate
    is high risk. *)
Theorem risk_label_monotone (r r' : Q) :
  (r <= r')%Q ->
  (fst (risk_label (Some r')) = low_risk -> fst (risk_label (Some r)) = low_risk)
  /\ (fst (risk_label (Some r)) = high_risk -> fst (risk_label (Some r')) = high_risk).
Proof.
  intros Hle. unfold risk_label. split.
  - intros H.
    destruct (Pandas.lt_nan (Some r') (15 # 100)) eqn:A'.
    + apply lt_nan_Some in A'.
      assert (A : Pandas.lt_nan (Some r) (15 # 100) = true)
        by (apply lt_nan_Some; eapply Qle_lt_trans; eassumption).
      rewrite A. reflexivity.
    + destruct (Pandas.lt_nan (Some r') (30 # 100)); discriminate H.
  - intros H.
    destruct (Pandas.lt_nan (Some r) (15 # 100)) eqn:A; [discriminate H|].
    destruct (Pandas.lt_nan (Some r) (30 # 100)) eqn:B; [discriminate H|].
    apply lt_nan_Some_false in B.
    assert (B' : Pandas.lt_nan (Some r') (30 # 100) = false)
      by (apply lt_nan_Some_false; eapply Qle_trans; eassumption).
    assert (A' : Pandas.lt_nan (Some r') (15 # 100) = false).
    { apply lt_nan_Some_false. apply Qle_trans with (30 # 100); [discriminate|].
      eapply Qle_trans; eassumption. }
    rewrite A', B'. reflexivity.
Qed.

Lemma risk_label_monotone_witness :
  fst (risk_label (Some (50 # 100))) = high_risk.
Proof.
  destruct (risk_label_monotone (35 # 100) (50 # 100)) as [_ H]; [discriminate|].
  apply H. reflexivity.
Defined.

Lemma count_le_length (s : list Q) (v : Q) : (count_le s v <= length s)%nat.
Proof. apply filter_length_self. Qed.

Lemma Qdiv_le_same_denominator (a b : Z) (n : nat) :
  a <= b -> n <> 0%nat ->
  (inject_Z a / inject_Z (Z.of_nat n) <= inject_Z b / inject_Z (Z.of_nat n))%Q.
Proof.
  intros Hab Hn. unfold Qdiv. apply Qmult_le_compat_r.
  - rewrite <- Zle_Qle. exact Hab.
  - apply Qinv_le_0_compat. change 0%Q with (inject_Z 0).
    rewrite <- Zle_Qle. lia.
Qed.

(** X17. On a non-empty population every percentile lies between 0 and 1
    and does not decrease when the customer's value increases. *)
Theorem percentile_bounded_monotone (data : list Row) (col : Column) :
  data <> [] ->
  (forall v q, percentile data col v = Some q -> (0 <= q <= 1)%Q)
  /\ (forall v v' q q',
        (v <= v')%Q ->
        percentile data col v = Some q -> percentile data col v' = Some q' ->
        (q <= q')%Q).
Proof.
  intros Hne.
  assert (Hn : length data <> 0%nat) by (destruct data; [congruence | discriminate]).
  split.
  - intros v q Hq.
    destruct (percentile_value data col v Hne) as (q0 & Hq0 & Eq).
    rewrite Hq in Hq0. inversion Hq0; subst q0. rewrite Eq.
    pose proof (count_le_length (column col data) v) as Hc.
    unfold column in Hc at 2. rewrite length_map in Hc.
    assert (Hpos : (0 < inject_Z (Z.of_nat (length data)))%Q).
    { change 0%Q with (inject_Z 0). rewrite <- Zlt_Qlt. lia. }
    split.
    + apply Qle_shift_div_l; [exact Hpos|]. rewrite Qmult_0_l.
      change 0%Q with (inject_Z 0). rewrite <- Zle_Qle. lia.
    + apply Qle_shift_div_r; [exact Hpos|]. rewrite Qmult_1_l.
      rewrite <- Zle_Qle. lia.
  - intros v v' q q' Hv Hq Hq'.
    destruct (percentile_value data col v Hne) as (q0 & Hq0 & Eq).
    destruct (percentile_value data col v' Hne) as (q1 & Hq1 & Eq').
    rewrite Hq in Hq0. rewrite Hq' in Hq1.
    inversion Hq0; subst q0. inversion Hq1; subst q1.
    rewrite Eq, Eq'.
    apply Qdiv_le_same_denominator; [|exact Hn].
    apply Nat2Z.inj_le. now apply count_le_monotone.
Qed.

Lemma percentile_bounded_monotone_witness :
  percentile sample_population ColBalance 1000 = Some (48 # 53)%Q
  /\ (0 <= 48 # 53 <= 1)%Q.
Proof.
  destruct (percentile_bounded_monotone sample_population ColBalance) as [H _];
    [discriminate|].
  split; [vm_compute; reflexivity|].
  apply (H 1000%Q). vm_compute. reflexivity.
Defined.

Lemma factors_as_listed (data : list Row) (c : Client) :
  factors data c = factor_list_spec data c.
Proof.
  unfold factors, factor_list_spec, all_checks, append_if.
  cbn [filter appliesb].
  destruct (String.eqb (geo_new c) "Germany");
    destruct (is_active_new c =? 0);
    destruct (3 <=? num_products_new c);
    destruct (negb (Qle_bool 600 (credit_new c)));
    destruct (40 <=? age_new c);
    destruct (negb (Qle_bool 3 (satisfaction_new c)));
    destruct (negb (Qle_bool (complain_new c) 0));
    destruct (Pandas.gt_nan (balance_new c) (Pandas.median (map Balance data)));
    reflexivity.
Qed.

Lemma NoDup_map_injective {A B : Type} (f : A -> B) (l : list A) :
  (forall x y, f x = f y -> x = y) -> NoDup l -> NoDup (map f l).
Proof.
  intros Hinj. induction 1 as [|x l Hx Hnd IH]; cbn; constructor; [|exact IH].
  intros Hin. apply in_map_iff in Hin as (y & E & Hy).
  apply Hinj in E. now subst.
Qed.

Lemma all_checks_NoDup : NoDup all_checks.
Proof.
  unfold all_checks.
  repeat (constructor; [cbn; intuition discriminate|]). constructor.
Qed.

(** X18. The factor list is never empty, never longer than eight entries,
    and repeats no entry. *)
Theorem factor_list_shape (data : list Row) (c : Client) :
  (1 <= length (factors data c) <= 8)%nat /\ NoDup (factors data c).
Proof.
  rewrite factors_as_listed. unfold factor_list_spec.
  pose proof (filter_length_self (appliesb data c) all_checks) as Hlen.
  pose proof (NoDup_filter (appliesb data c) all_checks_NoDup) as Hnd.
  destruct (filter (appliesb data c) all_checks) as [|k ks] eqn:E.
  - split; [cbn; lia|]. repeat constructor. intros [].
  - split.
    + rewrite length_map. change (length all_checks) with 8%nat in Hlen.
      cbn [length] in *. lia.
    + apply NoDup_map_injective; [|exact Hnd].
      intros k1 k2. apply check_text_injective.
Qed.

(** ** More on saving *)

Lemma Zmax_list_app_greater (l : list Z) (x : Z) :
  (forall i, In i l -> i < x) -> Pandas.Zmax_list (l ++ [x]) = Some x.
Proof.
  induction l as [|y l IH]; intros H; [reflexivity|].
  cbn [app Pandas.Zmax_list]. rewrite IH by (intros i Hi; apply H; now right).
  f_equal. assert (y < x) by (apply H; now left). lia.
Qed.

Lemma new_id_with_column (df : DataFrame) :
  has_CustomerId df = true ->
  new_id df = match Pandas.Zmax_list (identifiers df) with
              | Some m => Ok (m + 1)
              | None => Raise ValueError
              end.
Proof.
  intros H. unfold new_id, identifiers, id_cells, Pandas.max_skipna.
  now rewrite H.
Qed.

Lemma save_client_ok (c : Client) (w w' : World) :
  save_client c w = (Ok tt, w') ->
  exists id, new_id (w_data w) = Ok id
             /\ w' = {| w_data := w_data w;
                        w_csv := concat_row (w_data w) (client_row c id);
                        w_screen := w_screen w ++ [SavedNotice id] |}.
Proof.
  intros Hrun. rewrite save_client_run in Hrun.
  destruct (new_id (w_data w)) as [id|e]; [|discriminate].
  exists id. split; [reflexivity|]. now inversion Hrun.
Qed.

(** X19. While the identifiers are below 2^53 in absolute value, saves
    number the customers consecutively: the frame written by a save that
    gave identifier [id], read back as the dataset of the next run, gives
    [id + 1] to the next save, which therefore cannot fail. *)
Theorem saves_number_consecutively (c : Client) (w w' : World) :
  small_identifiers (w_data w) ->
  save_client c w = (Ok tt, w') ->
  exists id, new_id (w_data w) = Ok id /\ new_id (w_csv w') = Ok (id + 1).
Proof.
  intros Hsmall Hrun. destruct (save_client_ok c w w' Hrun) as (id & Hid & ->).
  exists id. split; [exact Hid|]. cbn [w_csv].
  rewrite new_id_with_column by reflexivity.
  rewrite identifiers_concat_row by eauto using new_id_small.
  rewrite Zmax_list_app_greater; [reflexivity|].
  now apply new_id_above.
Qed.

Lemma saves_number_consecutively_witness :
  exists id,
    new_id (mkFrame true two_customers) = Ok id
    /\ new_id (concat_row (mkFrame true two_customers)
                          (client_row (sample_client "France" 1 2) 15647312))
       = Ok (id + 1).
Proof.
  destruct (saves_number_consecutively (sample_client "France" 1 2)
              {| w_data := mkFrame true two_customers;
                 w_csv := mkFrame true [];
                 w_screen := [] |}
              {| w_data := mkFrame true two_customers;
                 w_csv := concat_row (mkFrame true two_customers)
                            (client_row (sample_client "France" 1 2) 15647312);
                 w_screen := [SavedNotice 15647312] |})
    as (id & H1 & H2).
  - intros i Hi. vm_compute in Hi.
    destruct Hi as [<-|[<-|[]]]; vm_compute; split; reflexivity.
  - vm_compute. reflexivity.
  - exists id. split; [exact H1 | exact H2].
Defined.

(** X20. While the identifiers are below 2^53 in absolute value, a saved
    customer can be read back: in the written frame, the new identifier
    selects exactly the saved row, and the attributes read off that row are
    the ones that were entered. *)
Theorem saved_customer_is_found (c : Client) (w w' : World) :
  small_identifiers (w_data w) ->
  save_client c w = (Ok tt, w') ->
  exists id,
    new_id (w_data w) = Ok id
    /\ row_by_id (rows (w_csv w')) (Some id) = Ok (client_row c id)
    /\ client_of_row (client_row c id) = c.
Proof.
  intros Hsmall Hrun. destruct (save_client_ok c w w' Hrun) as (id & Hid & ->).
  exists id. split; [exact Hid|]. split; [|apply client_of_client_row].
  cbn [w_csv]. unfold row_by_id.
  rewrite concat_row_exact; [|exact Hsmall|].
  2:{ cbn [client_row CustomerId]. intros i Hi. inversion Hi; subst.
      exact (new_id_small _ _ Hsmall Hid). }
  rewrite filter_app. rewrite filter_none.
  - cbn. now rewrite Z.eqb_refl.
  - intros r Hr. destruct (has_CustomerId (w_data w)) eqn:Hcol.
    + destruct (CustomerId r) as [i|] eqn:Ei; [|reflexivity].
      cbn. apply Z.eqb_neq.
      pose proof (new_id_above _ _ Hid i (identifiers_In _ _ _ Hcol Hr Ei)). lia.
    + apply in_map_iff in Hr as (r0 & <- & _). reflexivity.
Qed.

Lemma saved_customer_is_found_witness :
  row_by_id
    (rows (concat_row (mkFrame true two_customers)
                      (client_row (sample_client "France" 1 2) 15647312)))
    (Some 15647312)
  = Ok (client_row (sample_client "France" 1 2) 15647312).
Proof.
  destruct (saved_customer_is_found (sample_client "France" 1 2)
              {| w_data := mkFrame true two_customers;
                 w_csv := mkFrame true [];
                 w_screen := [] |}
              {| w_data := mkFrame true two_customers;
                 w_csv := concat_row (mkFrame true two_customers)
                            (client_row (sample_client "France" 1 2) 15647312);
                 w_screen := [SavedNotice 15647312] |})
    as (id & H1 & H2 & _).
  - intros i Hi. vm_compute in Hi.
    destruct Hi as [<-|[<-|[]]]; vm_compute; split; reflexivity.
  - vm_compute. reflexivity.
  - vm_compute in H1. inversion H1; subst id. exact H2.
Defined.

(** A test that does not read the identifier keeps the same known labels
    when the identifier cells are rewritten. *)
Lemma known_labels_set_id (p : Row -> bool) (f : Row -> Row) (l : list Row) :
  (forall x r, p (set_id x r) = p r) ->
  (forall r, exists x, f r = set_id x r) ->
  known_labels (filter p (map f l)) = known_labels (filter p l).
Proof.
  intros Hp Hf. unfold known_labels.
  induction l as [|r l IH]; [reflexivity|].
  cbn [map filter]. destruct (Hf r) as (x & Hx). rewrite Hx, Hp.
  destruct (p r); [|exact IH].
  cbn [map]. change (Exited (set_id x r)) with (Exited r).
  destruct (Exited r); cbn [Pandas.dropna]; now rewrite IH.
Qed.

Lemma known_labels_after_save (p : Row -> bool) (df : DataFrame) (c : Client) (id : Z) :
  (forall x r, p (set_id x r) = p r) ->
  known_labels (filter p (rows (concat_row df (client_row c id))))
  = known_labels (filter p (rows df)).
Proof.
  intros Hp. unfold concat_row. cbn [rows].
  rewrite (known_labels_set_id p _ _ Hp) by apply astype_id_set_id.
  rewrite filter_app, known_labels_app.
  assert (Hnew : known_labels (filter p [client_row c id]) = []).
  { cbn [filter]. destruct (p (client_row c id)); reflexivity. }
  rewrite Hnew, app_nil_r.
  destruct (has_CustomerId df); [reflexivity|].
  apply (known_labels_set_id p clear_id); [exact Hp|].
  intros r. exists None. reflexivity.
Qed.

Lemma churn_after_save (p : Row -> bool) (df : DataFrame) (c : Client) (id : Z) :
  (forall x r, p (set_id x r) = p r) ->
  segment_churn (filter p (rows (concat_row df (client_row c id))))
  = segment_churn (filter p (rows df)).
Proof.
  intros Hp. rewrite !segment_churn_unfold. now rewrite known_labels_after_save.
Qed.

Lemma base_churn_after_save (df : DataFrame) (c : Client) (id : Z) :
  segment_churn (rows (concat_row df (client_row c id))) = segment_churn (rows df).
Proof.
  rewrite <- (filter_true (rows (concat_row _ _))), <- (filter_true (rows df)).
  now apply churn_after_save.
Qed.

(** The saved row counts towards the gate of 40 rows, so a save can move a
    customer to a narrower cohort, with another rate: with 39 retained
    customers of France, active, with one product, 17 departed ones with
    two, and one customer of Germany, the cohort of a French active
    customer with one product is the 56 rows of region and activity, 17 of
    them departed; once such a customer is saved the narrowest cohort has
    40 rows and none departed. *)
Lemma saving_can_move_the_cohort :
  exists w',
    save_client (sample_client "France" 1 1) gate_world = (Ok tt, w')
    /\ snd (segment (rows (w_data gate_world)) (sample_client "France" 1 1)) = level_activity
    /\ fst (risk_label (segment_churn
              (fst (segment (rows (w_data gate_world)) (sample_client "France" 1 1)))))
       = high_risk
    /\ snd (segment (rows (w_csv w')) (sample_client "France" 1 1)) = level_products
    /\ fst (risk_label (segment_churn
              (fst (segment (rows (w_csv w')) (sample_client "France" 1 1)))))
       = low_risk.
Proof.
  exists (snd (save_client (sample_client "France" 1 1) gate_world)).
  vm_compute. repeat split.
Qed.

(** X21. A save leaves unchanged the base rate of the next run and, for
    every customer, the rate of each of the three candidate cohorts (the
    saved row has no outcome label, so it only adds to the sizes); hence it
    leaves the rate of the selected cohort unchanged whenever the selected
    level is the same.  The level itself can change, and the rate with it:
    see [saving_can_move_the_cohort]. *)
Theorem saving_keeps_churn_rates (c : Client) (w w' : World) :
  save_client c w = (Ok tt, w') ->
  base_churn (rows (w_csv w')) = base_churn (rows (w_data w))
  /\ (forall c',
        segment_churn (cohort_products (rows (w_csv w')) c')
        = segment_churn (cohort_products (rows (w_data w)) c')
        /\ segment_churn (cohort_activity (rows (w_csv w')) c')
           = segment_churn (cohort_activity (rows (w_data w)) c')
        /\ segment_churn (cohort_region (rows (w_csv w')) c')
           = segment_churn (cohort_region (rows (w_data w)) c'))
  /\ (forall c',
        snd (segment (rows (w_csv w')) c') = snd (segment (rows (w_data w)) c') ->
        segment_churn (fst (segment (rows (w_csv w')) c'))
        = segment_churn (fst (segment (rows (w_data w)) c'))).
Proof.
  intros Hrun. destruct (save_client_ok c w w' Hrun) as (id & _ & ->).
  cbn [w_csv w_data].
  assert (Hcand : forall c',
        segment_churn (cohort_products (rows (concat_row (w_data w) (client_row c id))) c')
        = segment_churn (cohort_products (rows (w_data w)) c')
        /\ segment_churn (cohort_activity (rows (concat_row (w_data w) (client_row c id))) c')
           = segment_churn (cohort_activity (rows (w_data w)) c')
        /\ segment_churn (cohort_region (rows (concat_row (w_data w) (client_row c id))) c')
           = segment_churn (cohort_region (rows (w_data w)) c')).
  { intros c'. unfold cohort_products, cohort_activity, cohort_region.
    rewrite !churn_after_save; auto. }
  split; [apply base_churn_after_save|]. split; [exact Hcand|].
  intros c'. destruct (Hcand c') as (H1 & H2 & H3).
  pose proof (base_churn_after_save (w_data w) c id) as H0.
  rewrite !segment_chain. unfold fallback_chain.
  set (s1 := cohort_products (rows (concat_row _ _)) c') in *.
  set (s2 := cohort_activity (rows (concat_row _ _)) c') in *.
  set (s3 := cohort_region (rows (concat_row _ _)) c') in *.
  set (t1 := cohort_products (rows (w_data w)) c') in *.
  set (t2 := cohort_activity (rows (w_data w)) c') in *.
  set (t3 := cohort_region (rows (w_data w)) c') in *.
  clearbody s1 s2 s3 t1 t2 t3.
  repeat match goal with
         | |- context [Nat.leb ?n (length ?s)] => destruct (Nat.leb n (length s))
         end;
    cbn [fst snd]; intros Hlevel; try assumption; discriminate Hlevel.
Qed.

Lemma saving_keeps_churn_rates_witness :
  base_churn (rows (concat_row (mkFrame true two_customers)
                               (client_row (sample_client "France" 1 2) 15647312)))
  = base_churn two_customers.
Proof.
  apply (saving_keeps_churn_rates (sample_client "France" 1 2)
           {| w_data := mkFrame true two_customers;
              w_csv := mkFrame true [];
              w_screen := [] |}
           {| w_data := mkFrame true two_customers;
              w_csv := concat_row (mkFrame true two_customers)
                         (client_row (sample_client "France" 1 2) 15647312);
              w_screen := [SavedNotice 15647312] |}).
  vm_compute. reflexivity.
Defined.

(** ** How the two blocks can end *)

Lemma Zmax_list_None (s : list Z) : Pandas.Zmax_list s = None -> s = [].
Proof.
  destruct s as [|x s]; [reflexivity|]. cbn.
  destruct (Pandas.Zmax_list s); discriminate.
Qed.

Lemma new_id_raises (df : DataFrame) (e : Exn) :
  new_id df = Raise e ->
  e = ValueError /\ has_CustomerId df = true /\ identifiers df = [].
Proof.
  unfold new_id. intros H.
  destruct (has_CustomerId df) eqn:Hcol; [|discriminate].
  unfold identifiers, id_cells. rewrite Hcol.
  unfold Pandas.max_skipna in H.
  destruct (Pandas.Zmax_list _) eqn:E; [discriminate|].
  inversion H. auto using Zmax_list_None.
Qed.

(** X22. The block for a customer of the dataset ends in one of three
    ways.  Without an identifier column it prints the error message and
    nothing else.  With the column, a selection that no row carries (a
    missing value included) raises [IndexError] and prints nothing; an
    identifier that a row carries never raises. *)
Theorem existing_client_block_outcomes (w : World) (selected : option Z) (clicked : bool) :
  (has_CustomerId (w_data w) = false ->
   existing_client_block selected clicked w = (Ok tt, with_screen w [NoCustomerIdError]))
  /\ (has_CustomerId (w_data w) = true ->
      (selected = None \/ forall r, In r (rows (w_data w)) -> CustomerId r <> selected) ->
      existing_client_block selected clicked w = (Raise IndexError, w))
  /\ (has_CustomerId (w_data w) = true ->
      (exists id, selected = Some id /\ In selected (map CustomerId (rows (w_data w)))) ->
      fst (existing_client_block selected clicked w) = Ok tt).
Proof.
  unfold existing_client_block, Script.bind, Script.read_data, Script.lift.
  split; [|split].
  - intros ->. reflexivity.
  - intros -> Hsel. cbn [negb]. unfold row_by_id.
    rewrite filter_none; [reflexivity|].
    intros r Hr. destruct Hsel as [->|Hsel].
    + destruct (CustomerId r); reflexivity.
    + specialize (Hsel r Hr).
      destruct (CustomerId r) as [a|], selected as [b|]; cbn; try reflexivity.
      apply Z.eqb_neq. congruence.
  - intros -> (id & -> & Hin). cbn [negb].
    destruct (row_by_id_found _ _ Hin) as (row & ->).
    destruct clicked; [|reflexivity].
    unfold Script.bind. rewrite show_analysis_run. reflexivity.
Qed.

(** X23. The form block can fail only in the save, only with [ValueError],
    and only on a dataset that has an identifier column but no identifier;
    the analysis has then been printed in full and the file is untouched. *)
Theorem failed_save_writes_nothing (c : Client) (clicked save : bool) (w : World) (e : Exn) :
  fst (new_client_block c clicked save w) = Raise e ->
  e = ValueError /\ save = true
  /\ has_CustomerId (w_data w) = true /\ identifiers (w_data w) = []
  /\ w_csv (snd (new_client_block c clicked save w)) = w_csv w
  /\ w_screen (snd (new_client_block c clicked save w))
     = w_screen w ++ printed (evaluate (rows (w_data w)) c) ++ [ClientDict c].
Proof.
  unfold new_client_block, Script.bind.
  destruct (clicked || save); [|discriminate].
  rewrite show_analysis_run, emit_run, with_screen_app.
  destruct save; [|discriminate].
  rewrite save_client_run. cbn [w_data with_screen].
  destruct (new_id (w_data w)) as [id|e'] eqn:Hid; [discriminate|].
  cbn [fst snd]. intros H. inversion H; subst e'.
  destruct (new_id_raises _ _ Hid) as (-> & Hcol & Hids).
  repeat split; auto.
Qed.

Lemma failed_save_writes_nothing_witness :
  w_csv (snd (new_client_block (sample_client "Spain" 1 2) false true empty_world))
  = w_csv empty_world.
Proof.
  apply (failed_save_writes_nothing (sample_client "Spain" 1 2) false true
           empty_world ValueError).
  vm_compute. reflexivity.
Defined.

(** ** The median behind the high-balance factor *)

(** At least half of the values of a column are at most its median. *)
Lemma median_half (s : list Q) :
  s <> [] ->
  exists m, Pandas.median s = Some m /\ (length s <= 2 * count_le s m)%nat.
Proof.
  intros Hne. unfold Pandas.median.
  pose proof (sort_values_StronglySorted s) as Hs.
  pose proof (sort_values_length s) as Hlen.
  pose proof (sort_values_perm s) as Hperm.
  set (t := Pandas.sort_values s) in *.
  assert (Hpos : (0 < length t)%nat).
  { rewrite Hlen. destruct s; [congruence | cbn; lia]. }
  destruct (length t) as [|k] eqn:En; [lia|]. rewrite <- En in *.
  destruct (Nat.odd (length t)) eqn:Eodd.
  - eexists. split; [reflexivity|].
    rewrite (count_le_perm s t _ Hperm), <- Hlen.
    assert (Hi : (length t / 2 < length t)%nat) by (apply Nat.div_lt; lia).
    pose proof (sorted_prefix_count t Hs _ Hi).
    pose proof (Nat.div_mod_eq (length t) 2).
    pose proof (Nat.mod_upper_bound (length t) 2). lia.
  - eexists. split; [reflexivity|].
    rewrite (count_le_perm s t _ Hperm), <- Hlen.
    assert (Heven : Nat.even (length t) = true)
      by (rewrite <- Nat.negb_odd, Eodd; reflexivity).
    apply Nat.even_spec in Heven as [h Hh].
    assert (Hdiv : (length t / 2 = h)%nat).
    { rewrite Hh, Nat.mul_comm. apply Nat.div_mul. lia. }
    rewrite Hdiv.
    assert (Hh1 : (h - 1 < length t)%nat) by lia.
    pose proof (sorted_prefix_count t Hs _ Hh1) as Hc.
    assert (Hab : (nth (h - 1) t 0%Q <= nth h t 0%Q)%Q) by (apply sorted_nth_le; [exact Hs | lia]).
    assert (Hm : (nth (h - 1) t 0%Q
                  <= Pandas.mean_of_two (nth (h - 1) t 0%Q) (nth h t 0%Q))%Q)
      by (now apply mean_of_two_between).
    pose proof (count_le_monotone t _ _ Hm). lia.
Qed.

Lemma factor_In_iff (data : list Row) (c : Client) (k : Check) :
  In (check_text k) (factors data c) <-> appliesb data c k = true.
Proof.
  assert (Hall : In k all_checks) by (destruct k; cbn; tauto).
  rewrite factors_as_listed. unfold factor_list_spec.
  destruct (filter (appliesb data c) all_checks) as [|k0 ks] eqn:E.
  - split.
    + intros [H|[]]. symmetry in H. now apply check_text_not_placeholder in H.
    + intros H. assert (Hin : In k (filter (appliesb data c) all_checks))
        by (apply filter_In; auto).
      rewrite E in Hin. destruct Hin.
  - rewrite <- E. split.
    + intros H. apply in_map_iff in H as (k' & Ht & Hin).
      apply check_text_injective in Ht. subst k'. now apply filter_In in Hin.
    + intros H. apply in_map, filter_In. auto.
Qed.

(** X24. The high-balance factor is reported only for a customer whose
    balance is strictly above that of at least half of the population. *)
Theorem high_balance_is_above_half (data : list Row) (c : Client) :
  In factor_balance (factors data c) ->
  (length data
   <= 2 * length (filter (fun r => negb (Qle_bool (balance_new c) (Balance r))) data))%nat.
Proof.
  intros Hin. change factor_balance with (check_text HighBalance) in Hin.
  apply factor_In_iff in Hin. cbn [appliesb] in Hin.
  destruct data as [|r0 data']; [cbn in Hin; discriminate|].
  set (data := r0 :: data') in *.
  destruct (median_half (map Balance data)) as (m & Em & Hhalf); [discriminate|].
  rewrite Em in Hin. apply gt_nan_Some in Hin.
  rewrite length_map in Hhalf.
  assert (Hcount : (count_le (map Balance data) m
                    <= length (filter (fun r => negb (Qle_bool (balance_new c) (Balance r)))
                                      data))%nat).
  { unfold count_le. clearbody data. clear -Hin.
    induction data as [|r l IH]; [cbn; lia|].
    cbn [map filter]. destruct (Qle_bool (Balance r) m) eqn:E.
    - apply Qle_bool_iff in E.
      assert (Hlt : negb (Qle_bool (balance_new c) (Balance r)) = true).
      { apply Qle_bool_false_lt. eapply Qle_lt_trans; eassumption. }
      rewrite Hlt. cbn [length]. lia.
    - destruct (negb (Qle_bool (balance_new c) (Balance r))); cbn [length]; lia. }
  lia.
Qed.

Lemma high_balance_is_above_half_witness :
  (2 <= 2 * length (filter (fun r => negb (Qle_bool 1000 (Balance r)))
                           [sample_row 1 "France" 1 1 0 None;
                            sample_row 2 "France" 1 1 500 None]))%nat.
Proof.
  apply (high_balance_is_above_half
           [sample_row 1 "France" 1 1 0 None; sample_row 2 "France" 1 1 500 None]
           (sample_client "Germany" 0 1)).
  vm_compute. tauto.
Defined.

(** ** Percentiles of a customer of the dataset *)

Lemma client_column_of_row (col : Column) (row : Row) :
  client_column col (client_of_row row) = cell col row.
Proof. destruct col; reflexivity. Qed.

Lemma count_le_own (s : list Q) (v : Q) : In v s -> (1 <= count_le s v)%nat.
Proof.
  intros Hin. unfold count_le.
  assert (Hf : In v (filter (fun x => Qle_bool x v) s)).
  { apply filter_In. split; [exact Hin | apply Qle_bool_iff, Qle_refl]. }
  destruct (filter _ s); [destruct Hf | cbn; lia].
Qed.

(** X25. For a customer taken from the dataset no percentile is zero: on
    each of the seven columns it is at least one over the number of rows,
    the customer's own row being counted. *)
Theorem own_percentile_positive (data : list Row) (row : Row) (col : Column) :
  In row data ->
  exists q, percentile data col (client_column col (client_of_row row)) = Some q
            /\ (1 / inject_Z (Z.of_nat (length data)) <= q)%Q
            /\ (0 < q)%Q.
Proof.
  intros Hin.
  assert (Hne : data <> []) by (destruct data; [destruct Hin | discriminate]).
  assert (Hn : length data <> 0%nat) by (destruct data; [congruence | discriminate]).
  rewrite client_column_of_row.
  destruct (percentile_value data col (cell col row) Hne) as (q & Hq & Eq).
  exists q. split; [exact Hq|].
  assert (Hown : (1 <= count_le (column col data) (cell col row))%nat)
    by (apply count_le_own, in_map, Hin).
  assert (Hlow : (1 / inject_Z (Z.of_nat (length data)) <= q)%Q).
  { rewrite Eq. change 1%Q with (inject_Z 1).
    apply Qdiv_le_same_denominator; [lia | exact Hn]. }
  split; [exact Hlow|].
  eapply Qlt_le_trans; [|exact Hlow].
  apply Qlt_shift_div_l.
  - change 0%Q with (inject_Z 0). rewrite <- Zlt_Qlt. lia.
  - rewrite Qmult_0_l. reflexivity.
Qed.

Lemma own_percentile_positive_witness :
  exists q, percentile [sample_row 1 "France" 1 1 0 None;
                        sample_row 2 "France" 1 1 500 None] ColBalance
              (client_column ColBalance
                 (client_of_row (sample_row 1 "France" 1 1 0 None))) = Some q
            /\ (0 < q)%Q.
Proof.
  destruct (own_percentile_positive
              [sample_row 1 "France" 1 1 0 None; sample_row 2 "France" 1 1 500 None]
              (sample_row 1 "France" 1 1 0 None) ColBalance) as (q & Hq & _ & Hpos);
    [now left|].
  exists q. split; assumption.
Defined.
